(** * Ad-Wise agent: request pipeline and conversation wizard

    A shallow embedding of [app/agent.py] and [app/conversation_manager.py]
    together with the properties stated about them.

    Text.  A Python [str] is a sequence of Unicode code points; it is
    modelled as [list N].  Literals of the source are written [u "..."],
    where [u] decodes the UTF-8 bytes of a Rocq string to code points.
    The primitives of [str] used by the source ([strip], [lower],
    [startswith], [in], [split], [splitlines], slicing, [len]) and the
    regular expressions of [re] are modelled on code points:
      - whitespace and line boundaries are the full Unicode sets that
        CPython uses;
      - [lower] is exact on U+0000..U+00FF and on every code point that has
        no lowercase mapping (digits, punctuation, Hebrew, CJK, symbols);
        cased letters beyond U+00FF are left unchanged by this model.

    Effects.  The two collaborators of the pipeline (retriever and
    generator) are parameters acting on an abstract external state and
    may raise; the pipeline threads its trace and the log of generator
    calls through a small state-and-exception monad. *)

From Stdlib Require Import ZArith NArith List String Ascii Lia Bool.
From Stdlib Require Import Permutation Sorted.
From stdpp Require Import base decidable list gmap strings pretty.

Set Default Proof Using "Type".
Local Open Scope Z_scope.

(** ** Python text primitives *)

Module Py.

Abbreviation text := (list N).

(** UTF-8 decoding of a source literal. *)
Fixpoint utf8_go (need : nat) (acc : N) (s : string) : text :=
  match s with
  | EmptyString => []
  | String c s' =>
      let b := N_of_ascii c in
      if (b <? 128)%N then b :: utf8_go 0 0%N s'
      else if (b <? 192)%N then
        let acc' := (acc * 64 + (b - 128))%N in
        match need with
        | 1%nat => acc' :: utf8_go 0 0%N s'
        | S n => utf8_go n acc' s'
        | O => utf8_go 0 0%N s'
        end
      else if (b <? 224)%N then utf8_go 1 (b - 192)%N s'
      else if (b <? 240)%N then utf8_go 2 (b - 224)%N s'
      else utf8_go 3 (b - 240)%N s'
  end.

Definition u (s : string) : text := utf8_go 0 0%N s.
Arguments u _%_string.

Definition nl : text := [10%N].

(** [not s], for a [str]. *)
Definition is_empty (s : text) : bool :=
  match s with [] => true | _ => false end.

(** [len(s)], for a [str] or a list. *)
Definition len {A : Type} (s : list A) : Z := Z.of_nat (length s).

(** [x or ""], for an optional [str]. *)
Definition or_empty (s : option text) : text :=
  match s with Some t => t | None => [] end.

(** [str.isspace] of one code point (also the class [\s] of [re]). *)
Definition isspace (c : N) : bool :=
  ((9 <=? c) && (c <=? 13) || (28 <=? c) && (c <=? 32)
   || (c =? 133) || (c =? 160) || (c =? 5760)
   || (8192 <=? c) && (c <=? 8202)
   || (c =? 8232) || (c =? 8233) || (c =? 8239) || (c =? 8287)
   || (c =? 12288))%N.

(** Line boundaries of [str.splitlines]. *)
Definition is_linebreak (c : N) : bool :=
  ((10 <=? c) && (c <=? 13) || (28 <=? c) && (c <=? 30)
   || (c =? 133) || (c =? 8232) || (c =? 8233))%N.

(** [str.lower] of one code point. *)
Definition lower_cp (c : N) : N :=
  if ((65 <=? c) && (c <=? 90)
      || (192 <=? c) && (c <=? 222) && negb (c =? 215))%N
  then (c + 32)%N else c.

Definition lower (s : text) : text := map lower_cp s.

Fixpoint lstrip (s : text) : text :=
  match s with
  | [] => []
  | c :: s' => if isspace c then lstrip s' else s
  end.

Definition rstrip (s : text) : text := rev (lstrip (rev s)).

(** [s.strip()]. *)
Definition strip (s : text) : text := rstrip (lstrip s).

(** [s.startswith(p)]. *)
Fixpoint startswith (p s : text) : bool :=
  match p, s with
  | [], _ => true
  | _ :: _, [] => false
  | a :: p', b :: s' => (a =? b)%N && startswith p' s'
  end.

(** [needle in hay], for two [str]. *)
Fixpoint contains (needle hay : text) : bool :=
  startswith needle hay ||
  match hay with
  | [] => false
  | _ :: hay' => contains needle hay'
  end.

(** [x in xs], for a [str] and a set or list of [str]. *)
Definition mem (x : text) (xs : list text) : bool := bool_decide (x ∈ xs).

(** [any(h in s for h in hints)]. *)
Definition any_in (hints : list text) (s : text) : bool :=
  existsb (fun h => contains h s) hints.

(** [s.split(sep)] for a one-character separator: every piece, the empty
    ones included. *)
Fixpoint split_go (sep : N) (cur : text) (s : text) : list text :=
  match s with
  | [] => [cur]
  | c :: s' =>
      if (c =? sep)%N then cur :: split_go sep [] s'
      else split_go sep (cur ++ [c]) s'
  end.

Definition split (sep : N) (s : text) : list text := split_go sep [] s.

(** [s.split(sep, 1)]: one piece when [sep] does not occur, otherwise the
    text before the first [sep] and the text after it. *)
Fixpoint split1_go (sep : N) (cur : text) (s : text) : list text :=
  match s with
  | [] => [cur]
  | c :: s' =>
      if (c =? sep)%N then [cur; s'] else split1_go sep (cur ++ [c]) s'
  end.

Definition split1 (sep : N) (s : text) : list text := split1_go sep [] s.

(** [s.split(sep)] for a separator of several characters. *)
Fixpoint split_str_go (sep : text) (cur : text) (skip : nat) (s : text)
  : list text :=
  match s with
  | [] => [cur]
  | c :: s' =>
      match skip with
      | S k => split_str_go sep cur k s'
      | O =>
          if startswith sep s && negb (is_empty sep)
          then cur :: split_str_go sep [] (length sep - 1) s'
          else split_str_go sep (cur ++ [c]) O s'
      end
  end.

Definition split_str (sep s : text) : list text := split_str_go sep [] 0 s.

(** [s.splitlines()]: a carriage return followed by a line feed is one
    boundary, and a final boundary opens no further line. *)
Fixpoint splitlines_go (after_cr : bool) (cur : text) (s : text)
  : list text :=
  match s with
  | [] => if is_empty cur then [] else [cur]
  | c :: s' =>
      if after_cr && (c =? 10)%N then splitlines_go false cur s'
      else if is_linebreak c then cur :: splitlines_go (c =? 13)%N [] s'
      else splitlines_go false (cur ++ [c]) s'
  end.

Definition splitlines (s : text) : list text := splitlines_go false [] s.

(** [sep.join(xs)]. *)
Fixpoint join (sep : text) (xs : list text) : text :=
  match xs with
  | [] => []
  | [x] => x
  | x :: xs' => x ++ sep ++ join sep xs'
  end.

(** [s[:n]] for a non-negative [n]. *)
Definition slice_to (n : nat) (s : text) : text := take n s.

(** [s[n:]] for a non-negative [n]. *)
Definition slice_from (n : nat) (s : text) : text := drop n s.

(** [re.findall(r"[a-z0-9]+", s)]: the maximal runs of lowercase ASCII
    letters and digits, left to right. *)
Definition is_lower_alnum (c : N) : bool :=
  ((97 <=? c) && (c <=? 122) || (48 <=? c) && (c <=? 57))%N.

Fixpoint runs_go (cls : N -> bool) (cur : text) (s : text) : list text :=
  match s with
  | [] => if is_empty cur then [] else [cur]
  | c :: s' =>
      if cls c then runs_go cls (cur ++ [c]) s'
      else if is_empty cur then runs_go cls [] s'
      else cur :: runs_go cls [] s'
  end.

Definition findall_alnum (s : text) : list text := runs_go is_lower_alnum [] s.

End Py.

Import Py.

(** ** Regular expressions of [re]

    The two patterns of the source use literals, classes, sequence and
    repetition only, so [fullmatch] is membership in the language
    of the pattern; it is decided with Brzozowski derivatives.  Under
    [fullmatch] the anchors [^] and [$] of the patterns hold exactly at the
    two ends of the text and are not represented. *)

Module Re.

Inductive re : Type :=
  | Void
  | Eps
  | Cls (f : N -> bool)
  | Seq (r1 r2 : re)
  | Alt (r1 r2 : re)
  | Star (r : re).

Definition seq (r1 r2 : re) : re :=
  match r1, r2 with
  | Void, _ => Void
  | _, Void => Void
  | Eps, _ => r2
  | _, Eps => r1
  | _, _ => Seq r1 r2
  end.

Definition alt (r1 r2 : re) : re :=
  match r1, r2 with
  | Void, _ => r2
  | _, Void => r1
  | _, _ => Alt r1 r2
  end.

Fixpoint nullable (r : re) : bool :=
  match r with
  | Void => false
  | Eps => true
  | Cls _ => false
  | Seq r1 r2 => nullable r1 && nullable r2
  | Alt r1 r2 => nullable r1 || nullable r2
  | Star _ => true
  end.

Fixpoint deriv (c : N) (r : re) : re :=
  match r with
  | Void => Void
  | Eps => Void
  | Cls f => if f c then Eps else Void
  | Seq r1 r2 =>
      alt (seq (deriv c r1) r2) (if nullable r1 then deriv c r2 else Void)
  | Alt r1 r2 => alt (deriv c r1) (deriv c r2)
  | Star r1 => seq (deriv c r1) (Star r1)
  end.

Fixpoint matches (r : re) (s : text) : bool :=
  match s with
  | [] => nullable r
  | c :: s' => matches (deriv c r) s'
  end.

(** [re.compile(p).fullmatch(s)] as a truth value. *)
Definition fullmatch (r : re) (s : text) : bool := matches r s.

(** A literal. *)
Fixpoint lit (s : text) : re :=
  match s with
  | [] => Eps
  | c :: s' => Seq (Cls (N.eqb c)) (lit s')
  end.

(** [r{n}]. *)
Fixpoint rep (n : nat) (r : re) : re :=
  match n with
  | O => Eps
  | S k => Seq r (rep k r)
  end.

(** [r{0,n}]. *)
Fixpoint upto (n : nat) (r : re) : re :=
  match n with
  | O => Eps
  | S k => Alt Eps (Seq r (upto k r))
  end.

(** [r{n,m}], for [n <= m]. *)
Definition between (n m : nat) (r : re) : re := Seq (rep n r) (upto (m - n) r).

(** [[^\n]] and [\s]. *)
Definition not_nl : re := Cls (fun c => negb (c =? 10)%N).
Definition space : re := Cls isspace.

(** [r+]. *)
Definition plus (r : re) : re := Seq r (Star r).

Definition seqs (rs : list re) : re := foldr Seq Eps rs.

End Re.

(** ** [app/agent.py]: the pure stages *)

Module Agent.

Definition _MODE_FULL : text := u "full".
Definition _MODE_HEADLINE : text := u "headline".
Definition _MODE_KEYWORDS5 : text := u "keywords5".

Definition _detect_mode (prompt : text) : text :=
  let p := lower prompt in
  if contains (u "task:") p then
    if contains (u "write only") p && contains (u "headline") p
       || contains (u "headline only") p
    then _MODE_HEADLINE
    else if contains (u "5 keywords") p || contains (u "five keywords") p
            || contains (u "keywords that must be included") p
    then _MODE_KEYWORDS5
    else _MODE_FULL
  else if contains (u "headline only") p
          || contains (u "write only") p && contains (u "headline") p
  then _MODE_HEADLINE
  else if contains (u "5 keywords") p || contains (u "five keywords") p
  then _MODE_KEYWORDS5
  else _MODE_FULL.

Definition _FULL_FORMAT_REGEX : Re.re :=
  Re.seqs
    [ Re.lit (u "Headline:"); Re.space; Re.plus Re.not_nl; Re.lit nl;
      Re.lit (u "Bullets:"); Re.lit nl;
      Re.rep 5
        (Re.seqs [Re.lit (u "-"); Re.space; Re.plus Re.not_nl; Re.lit nl]);
      Re.lit (u "Short description:"); Re.space; Re.plus Re.not_nl; Re.lit nl;
      Re.lit (u "Keywords:"); Re.space; Re.plus Re.not_nl; Re.lit nl;
      Re.lit (u "Publishing tips:"); Re.space; Re.plus Re.not_nl ].

Definition _HEADLINE_ONLY_REGEX : Re.re :=
  Re.seqs [ Re.lit (u "Headline:"); Re.space; Re.between 3 200 Re.not_nl ].

Definition _validate_keywords5_line (text : text) : bool :=
  let t := strip text in
  if negb (startswith (u "keywords:") (lower t)) then false
  else
    (* the prefix holds a colon, so the split has a second piece *)
    let rest := strip (nth 1 (split1 58 t) []) in
    if is_empty rest then false
    else
      let parts :=
        map strip (List.filter (fun p => negb (is_empty (strip p)))
                               (split 44 rest)) in
      if negb (length parts =? 5)%nat then false
      else if existsb (fun p => (length p <? 2)%nat) parts then false
      else true.

Definition _is_valid_format (text mode : text) : bool :=
  let t := strip text in
  if is_empty t then false
  else if bool_decide (mode = _MODE_HEADLINE)
  then Re.fullmatch _HEADLINE_ONLY_REGEX t
  else if bool_decide (mode = _MODE_KEYWORDS5)
  then _validate_keywords5_line t
  else Re.fullmatch _FULL_FORMAT_REGEX t.

Definition _STOPWORDS : list text :=
  map u
    [ "a";"an";"the";"and";"or";"for";"to";"of";"in";"on";"with";"without";"by";
      "include";"includes";"including";"style";"amazon";"ad";"write";"bullet";
      "bullets";
      "cta";"benefits";"your";"now";"next";"new";"please";"make";"create";
      "this";"that";"these";"those";"from";"into";"over";"under";"best";"top";
      "high";"quality";"premium";"great" ]%string.

Definition _INTENT_HINTS : list text :=
  map u [ "write"; "generate"; "create"; "headline"; "keywords"; "ad";
          "listing"; "product" ]%string.

Definition _PRODUCT_HINTS : list text :=
  map u [ "bottle";"shoe";"watch";"backpack";"headphones";"laptop";"charger";
          "camera";"mug";"cup";"speaker";"mouse";"keyboard";"skincare";
          "perfume";"dress" ]%string.

Definition MIN_PROMPT_CHARS_FOR_AGENT : Z := 12.
Definition MIN_TOKENS_FOR_AGENT : Z := 3.

(** The token filter shared by the query rewriter and the ranker. *)
Definition significant (t : text) : bool :=
  (3 <=? len t) && negb (mem t _STOPWORDS).

(** The loop of [_rewrite_query] over the lines of the request: the last
    [Category:] line and the last [Product:] line give the two parts. *)
Definition scan_line (parts : text * text) (line : text) : text * text :=
  if startswith (u "Category:") line
  then (strip (nth 1 (split1 58 line) []), parts.2)
  else if startswith (u "Product:") line
  then (parts.1, strip (nth 1 (split1 58 line) []))
  else parts.

Definition scan_parts (prompt : text) : text * text :=
  fold_left scan_line (splitlines prompt) ([], []).

Definition _rewrite_query (prompt : text) : text :=
  let '(category_part, product_part) := scan_parts prompt in
  let text :=
    if negb (is_empty category_part) && negb (is_empty product_part)
    then lower (u "category " ++ category_part ++ u " " ++ product_part)
    else lower prompt in
  let toks := findall_alnum text in
  let toks := List.filter significant toks in
  let q := strip (join (u " ") (take 12 toks)) in
  if is_empty q then prompt else q.

(** [sorted(xs, key=key, reverse=True)].  Python's sort is stable, also
    with [reverse=True]: elements with equal keys keep their order.  The
    stable descending sort of a list is unique, and this insertion sort
    computes it. *)
Section Sorted.
Context {A : Type} (key : A -> nat).

Fixpoint insert_desc (x : A) (l : list A) : list A :=
match l with
| [] => [x]
| y :: l' =>
  if (key y <=? key x)%nat then x :: l else y :: insert_desc x l'
end.

Fixpoint sorted_desc (l : list A) : list A :=
match l with
| [] => []
| x :: l' => insert_desc x (sorted_desc l')
end.
End Sorted.

(** The candidate lines of a context block. *)
Definition candidate_line (ln : text) : list text :=
  let ln := strip ln in
  if startswith (u "- ") ln then
    let s := strip (slice_from 2 ln) in
    if is_empty s then [] else [s]
  else [].

Definition candidate_lines (ctx : text) : list text :=
  concat (map candidate_line (splitlines ctx)).

(** The significant tokens of the request, as a set. *)
Definition query_tokens (prompt : text) : list text :=
  List.filter significant (remove_dups (findall_alnum (lower prompt))).

Definition score (q : list text) (s : text) : nat :=
  let t := lower s in
  length (List.filter (fun tok => contains tok t) q).

(** The loop of [_condense_ctx] over the sorted candidates. *)
Fixpoint rank_loop (max_lines : Z) (seen : list text) (ranked : list text)
  (l : list text) : list text :=
  match l with
  | [] => ranked
  | s :: l' =>
      let k := strip (lower s) in
      if is_empty k || mem k seen then rank_loop max_lines seen ranked l'
      else
        let ranked' := ranked ++ [s] in
        if (max_lines <=? len ranked') then ranked'
        else rank_loop max_lines (k :: seen) ranked' l'
  end.

Definition ranked_lines (prompt : text) (lines : list text) (max_lines : Z)
  : list text :=
  rank_loop max_lines [] [] (sorted_desc (score (query_tokens prompt)) lines).

Definition _condense_ctx (prompt ctx : text) (max_lines : Z) : text :=
  if is_empty ctx then []
  else
    let lines := candidate_lines ctx in
    match lines with
    | [] => slice_to 1200 ctx
    | _ =>
        join nl
          (map (fun s => u "- " ++ s) (ranked_lines prompt lines max_lines))
    end.

(** [re.findall(r"[a-zA-Z][a-zA-Z\-]{2,}", s)]: a letter opens a run, the
    run extends over letters and hyphens as far as it can, and it is a
    match when it has at least three characters.  A shorter run holds no
    match: every later start inside it sees a still shorter run. *)
Definition is_letter (c : N) : bool :=
  ((97 <=? c) && (c <=? 122) || (65 <=? c) && (c <=? 90))%N.

Definition emit_term (cur : text) : list text :=
  if (3 <=? len cur) then [cur] else [].

Fixpoint terms_go (cur : text) (s : text) : list text :=
  match s with
  | [] => emit_term cur
  | c :: s' =>
      if is_empty cur then
        if is_letter c then terms_go [c] s' else terms_go [] s'
      else if is_letter c || (c =? 45)%N then terms_go (cur ++ [c]) s'
      else emit_term cur ++ terms_go [] s'
  end.

Definition findall_terms (s : text) : list text := terms_go [] s.

(** [Counter(toks)]: the counts, in the order in which the keys were first
    seen. *)
Fixpoint count_add (t : text) (cs : list (text * nat)) : list (text * nat) :=
  match cs with
  | [] => [(t, 1%nat)]
  | (k, n) :: cs' =>
      if bool_decide (k = t) then (k, S n) :: cs' else (k, n) :: count_add t cs'
  end.

Definition Counter (toks : list text) : list (text * nat) :=
  fold_left (fun cs t => count_add t cs) toks [].

(** [c.most_common(n)]: by descending count, ties in first-seen order. *)
Definition most_common (n : nat) (cs : list (text * nat))
  : list (text * nat) :=
  take n (sorted_desc snd cs).

Definition _extract_allowed_terms (condensed_ctx : text) (max_terms : nat)
  : list text :=
  if is_empty condensed_ctx then []
  else
    let toks := findall_terms (lower condensed_ctx) in
    let toks := List.filter (fun t => negb (mem t _STOPWORDS)) toks in
    let common :=
      map fst (List.filter (fun wc => (2 <=? wc.2)%nat)
                           (most_common 80 (Counter toks))) in
    take max_terms common.

Definition _build_messages (prompt condensed_ctx : text)
  (allowed_terms : list text) (mode : text) : text * text :=
  let system_msg :=
    u "You are Ad-Wise, an expert performance copywriter. "
    ++ u "Write high-converting ad copy using the provided inspiration examples. "
    ++ u "Be concise, avoid fluff, and follow user constraints strictly." in
  let allowed_block :=
    match allowed_terms with
    | [] => []
    | _ =>
        u "ALLOWED CLAIM TERMS (use only if they appear in inspiration or user request): "
        ++ join (u ", ") allowed_terms
        ++ nl ++ nl
    end in
  let output_format :=
    if bool_decide (mode = _MODE_HEADLINE) then
      u "OUTPUT FORMAT (MUST be EXACT — return ONLY one line):" ++ nl
      ++ u "Headline: ..." ++ nl ++ nl
      ++ u "CRITICAL RULES:" ++ nl
      ++ u "- Output ONLY the single line starting with 'Headline: '" ++ nl
      ++ u "- Do NOT add any other section" ++ nl
      ++ u "- Keep the entire line <= 160 characters" ++ nl
      ++ u "- Only use features from INSPIRATION EXAMPLES or USER REQUEST" ++ nl
    else if bool_decide (mode = _MODE_KEYWORDS5) then
      u "OUTPUT FORMAT (MUST be EXACT — return ONLY one line):" ++ nl
      ++ u "Keywords: k1, k2, k3, k4, k5" ++ nl ++ nl
      ++ u "CRITICAL RULES:" ++ nl
      ++ u "- Output ONLY the single line starting with 'Keywords: '" ++ nl
      ++ u "- Return EXACTLY 5 comma-separated keywords/phrases" ++ nl
      ++ u "- These MUST be suitable to include in the headline" ++ nl
      ++ u "- Do NOT add Headline, Bullets, Short description, or any other section" ++ nl
      ++ u "- Only use terms relevant to the product and category" ++ nl
    else
      u "OUTPUT FORMAT (MUST be EXACT, no extra text):" ++ nl
      ++ u "Headline: ..." ++ nl
      ++ u "Bullets:" ++ nl
      ++ u "- ..." ++ nl
      ++ u "- ..." ++ nl
      ++ u "- ..." ++ nl
      ++ u "- ..." ++ nl
      ++ u "- ..." ++ nl
      ++ u "Short description: ..." ++ nl
      ++ u "Keywords: k1, k2, ..." ++ nl
      ++ u "Publishing tips: ..." ++ nl ++ nl
      ++ u "RULES:" ++ nl
      ++ u "1) Only mention features that appear in INSPIRATION EXAMPLES or explicitly in the USER REQUEST." ++ nl
      ++ u "2) Do NOT invent numeric specs unless user provides them." ++ nl
      ++ u "3) Keep Headline <= 160 characters." ++ nl
      ++ u "4) Exactly 5 bullet lines, each starting with '- '." ++ nl
      ++ u "5) Keywords: 8-15 comma-separated keywords; include long-tail phrases." ++ nl
      ++ u "6) Publishing tips: 2-3 short actionable tips, no emojis." ++ nl
      ++ u "7) Keep each section on a single line." ++ nl in
  let user_msg :=
    u "USER REQUEST:" ++ nl ++ prompt ++ nl ++ nl
    ++ allowed_block
    ++ u "INSPIRATION EXAMPLES (most relevant excerpts):" ++ nl
    ++ (if is_empty condensed_ctx then u "(none)" else condensed_ctx)
    ++ nl ++ nl
    ++ output_format in
  (system_msg, user_msg).

(** The two messages that [_repair_format] sends to the generator. *)
Definition repair_messages (product_prompt draft mode : text) : text * text :=
  let system_msg :=
    u "You are a formatter. Rewrite the draft into the exact required format. "
    ++ u "Do NOT add new facts. Return ONLY the formatted output." in
  let required :=
    if bool_decide (mode = _MODE_HEADLINE)
    then u "Headline: ... (single line only)"
    else if bool_decide (mode = _MODE_KEYWORDS5)
    then u "Keywords: k1, k2, k3, k4, k5 (single line only, exactly 5)"
    else
      u "Headline: ..." ++ nl
      ++ u "Bullets:" ++ nl
      ++ u "- ..." ++ nl
      ++ u "- ..." ++ nl
      ++ u "- ..." ++ nl
      ++ u "- ..." ++ nl
      ++ u "- ..." ++ nl
      ++ u "Short description: ..." ++ nl
      ++ u "Keywords: ..." ++ nl
      ++ u "Publishing tips: ..." in
  let user_msg :=
    u "Required format:" ++ nl
    ++ required ++ nl ++ nl
    ++ u "User request:" ++ nl ++ product_prompt ++ nl ++ nl
    ++ u "Draft to fix:" ++ nl ++ draft in
  (system_msg, user_msg).

Definition _should_clarify (prompt : text) : bool * text :=
  let p := strip prompt in
  if is_empty p then (true, u "empty")
  else if (len p <? MIN_PROMPT_CHARS_FOR_AGENT) then (true, u "too_short")
  else
    let p_l := lower p in
    let toks := findall_alnum p_l in
    let meaningful := List.filter (fun t => (2 <=? len t)) toks in
    let has_intent := any_in _INTENT_HINTS p_l in
    let has_product :=
      any_in _PRODUCT_HINTS p_l || contains (u "product:") p_l in
    if has_intent && negb has_product then (true, u "missing_product")
    else if (len meaningful <? MIN_TOKENS_FOR_AGENT) then
      if has_product then (false, []) else (true, u "too_few_tokens")
    else if negb has_intent && negb has_product
    then (true, u "no_intent_or_product")
    else (false, []).

Definition _clarification_response (reason : text) : text :=
  if bool_decide (reason = u "missing_product") then
    u "Sure — what product should I write the ad copy for?" ++ nl ++ nl
    ++ u "Try:" ++ nl
    ++ u "Product: ..." ++ nl
    ++ u "Category: ..." ++ nl
    ++ u "Constraints: ... (optional)" ++ nl
    ++ u "Task: Full ad / headline only / 5 keywords" ++ nl
  else
    u "Hi! Please describe the product and what you want:" ++ nl ++ nl
    ++ u "Product: ..." ++ nl
    ++ u "Category: ..." ++ nl
    ++ u "Constraints: ... (optional)" ++ nl
    ++ u "Task: Full ad / headline only / 5 keywords" ++ nl.

End Agent.

(** ** [app/agent.py]: [run_agent] *)

Module Pipeline.
Import Agent.

(** The values that a trace step holds. *)
#[local] Set Warnings "-register-all".
Inductive pyval : Type :=
  | PNone
  | PBool (b : bool)
  | PInt (z : Z)
  | PStr (s : text)
  | PList (l : list pyval)
  | PDict (d : list (string * pyval)).

Definition PStrOpt (s : option text) : pyval :=
  match s with Some t => PStr t | None => PNone end.

(** [app/retriever.py], [RetrievalTrace]. *)
Record RetrievalTrace := {
  provider : text;
  top_k : Z;
  namespace : text;
  index_name : text;
  matches : Z;
  categories : list text;
  ads_used : Z;
  note : text
}.

(** A raised exception: [type(e).__name__] and [str(e)]. *)
Inductive exn : Type := Exn (kind msg : text).

(** The dictionary that [run_agent] returns. *)
Record result := {
  status : text;
  error : option text;
  response : option text;
  steps : list pyval
}.

Section Run.
(** The state of the services behind the two collaborators. *)
Context {World : Type}.

(** [app/settings.py]. *)
Variable ENABLE_REPAIR : bool.
Variable MAX_PROMPT_CHARS : Z.

(** [retrieve_examples(query, category_filter=...)] and
[llm_generate_ad(system_msg, user_msg)]: each returns or raises, and
may change the state of its service. *)
Variable retrieve_examples :
text -> text -> World -> (exn + option text * RetrievalTrace) * World.
Variable llm_generate_ad :
text -> text -> World -> (exn + option text * pyval) * World.

(** What a run threads through its stages: the trace, the generator calls
issued so far (system and user message of each), and the services. *)
Record pstate := {
st_steps : list pyval;
st_calls : list (text * text);
st_world : World
}.

Definition M (A : Type) : Type := pstate -> (exn + A) * pstate.

Definition ret {A} (a : A) : M A := fun st => (inr a, st).

Definition bind {A B} (m : M A) (k : A -> M B) : M B :=
fun st =>
match m st with
| (inl e, st') => (inl e, st')
| (inr a, st') => k a st'
end.

Local Notation "'let*' x ':=' m 'in' k" := (bind m (fun x => k))
(at level 10, x pattern, k at level 200).

(** [steps.append(step)]. *)
Definition append (step : pyval) : M unit :=
fun st =>
(inr tt, {| st_steps := st_steps st ++ [step];
            st_calls := st_calls st;
            st_world := st_world st |}).

Definition call_retriever (query category_filter : text)
: M (option text * RetrievalTrace) :=
fun st =>
let '(r, w) := retrieve_examples query category_filter (st_world st) in
(r, {| st_steps := st_steps st;
       st_calls := st_calls st;
       st_world := w |}).

Definition call_llm (system_msg user_msg : text) : M (option text * pyval) :=
fun st =>
let '(r, w) := llm_generate_ad system_msg user_msg (st_world st) in
(r, {| st_steps := st_steps st;
       st_calls := st_calls st ++ [(system_msg, user_msg)];
       st_world := w |}).

Definition _repair_format (product_prompt draft mode : text)
: M (option text * pyval) :=
let '(system_msg, user_msg) := repair_messages product_prompt draft mode in
call_llm system_msg user_msg.

Definition step (module : text) (prompt response : pyval) : pyval :=
PDict [("module", PStr module); ("prompt", prompt); ("response", response)]%string.

(** The body of the [try] block; it yields the status, the error and the
response of the returned dictionary. *)
Definition run_body (user_prompt : option text) (category_filter : text)
: M (text * option text * option text) :=
let prompt := strip (or_empty user_prompt) in
let mode := _detect_mode prompt in
let guard_empty := is_empty prompt in
let guard_too_long := (MAX_PROMPT_CHARS <? len prompt) in
let* _ :=
append (step (u "InputGuard")
          (PDict [("user_prompt", PStrOpt user_prompt)]%string)
          (PDict [("empty", PBool guard_empty);
                  ("too_long", PBool guard_too_long);
                  ("length", PInt (len prompt));
                  ("max", PInt MAX_PROMPT_CHARS);
                  ("mode", PStr mode)]%string)) in
if guard_empty then ret (u "error", Some (u "Empty prompt"), None)
else if guard_too_long then ret (u "error", Some (u "Prompt too long"), None)
else
let from_wizard :=
  contains (u "RAG Category Filter:") prompt
  || contains (u "Category:") prompt
  || contains (u "Task:") prompt in
let '(clarify, reason) :=
  if from_wizard then (false, []) else _should_clarify prompt in
let* _ :=
  append (step (u "IntentGuard")
            (PDict [("user_prompt", PStr prompt)]%string)
            (PDict [("should_clarify", PBool clarify);
                    ("reason", PStr reason);
                    ("from_wizard", PBool from_wizard);
                    ("mode", PStr mode)]%string)) in
if clarify
then ret (u "ok", None, Some (_clarification_response reason))
else
  let search_query := _rewrite_query prompt in
  let* (ctx, trace) := call_retriever search_query category_filter in
  let* _ :=
    append (step (u "AmazonInspirationRetriever")
              (PDict [("query", PStr search_query);
                      ("original_prompt", PStr prompt);
                      ("category_filter", PStr category_filter)]%string)
              (PDict [("provider", PStr (provider trace));
                      ("index", PStr (index_name trace));
                      ("namespace", PStr (namespace trace));
                      ("top_k", PInt (top_k trace));
                      ("matches", PInt (matches trace));
                      ("categories", PList (map PStr (categories trace)));
                      ("ads_used", PInt (ads_used trace));
                      ("note", PStr (note trace));
                      ("ctx_preview",
                       PStr (slice_to 1200 (or_empty ctx)))]%string)) in
  let condensed := _condense_ctx prompt (or_empty ctx) 10 in
  let allowed_terms := _extract_allowed_terms condensed 12 in
  let '(system_msg, user_msg) :=
    _build_messages prompt condensed allowed_terms mode in
  let* (llm_text, meta) := call_llm system_msg user_msg in
  let* _ :=
    append (step (u "AdCopyWriter")
              (PDict [("system", PStr system_msg);
                      ("user", PStr user_msg)]%string)
              meta) in
  let final_text := strip (or_empty llm_text) in
  let* (final_text, repaired) :=
    (if ENABLE_REPAIR && negb (_is_valid_format final_text mode) then
       let* (fixed, meta2) := _repair_format prompt final_text mode in
       let* _ :=
         append (step (u "FormatRepair")
                   (PDict [("system", PStr (u "formatter"));
                           ("user", PStr (u "(see above)"));
                           ("mode", PStr mode)]%string)
                   meta2) in
       if _is_valid_format (or_empty fixed) mode
       then ret (strip (or_empty fixed), true)
       else ret (final_text, false)
     else ret (final_text, false)) in
  let* _ :=
    append (step (u "FinalResponseComposer")
              (PDict [("repaired", PBool repaired);
                      ("mode", PStr mode)]%string)
              (PDict [("format_valid",
                       PBool (_is_valid_format final_text mode))]%string)) in
  ret (u "ok", None, Some final_text).

(** [run_agent]: the [try] block and its single [except Exception].  The
final state of the run is returned next to the dictionary, so that
the generator calls can be observed. *)
Definition run_agent (user_prompt : option text) (category_filter : text)
(w : World) : result * pstate :=
let st0 := {| st_steps := []; st_calls := []; st_world := w |} in
match run_body user_prompt category_filter st0 with
| (inr (st, err, resp), st') =>
  ({| status := st; error := err; response := resp;
      steps := st_steps st' |}, st')
| (inl (Exn kind msg), st') =>
  ({| status := u "error";
      error := Some (kind ++ u ": " ++ msg);
      response := None;
      steps := st_steps st' |}, st')
end.

End Run.

End Pipeline.

(** ** [app/conversation_manager.py] *)

Module Conversation.
Import Pipeline.

(** The values of a conversation state: the scalars of a JSON object. *)
Inductive value : Type :=
  | VNone
  | VBool (b : bool)
  | VInt (z : Z)
  | VStr (s : text).

#[global] Instance value_eq_dec : EqDecision value.
Proof. solve_decision. Defined.

(** A state is a dictionary with string keys. *)
Abbreviation state := (gmap string value).

(** Truth value of a Python value. *)
Definition truthy (v : value) : bool :=
  match v with
  | VNone => false
  | VBool b => b
  | VInt z => negb (z =? 0)
  | VStr s => negb (is_empty s)
  end.

(** [v == s], for a [str] [s]. *)
Definition eq_str (v : value) (s : text) : bool :=
  match v with
  | VStr t => bool_decide (t = s)
  | _ => false
  end.

(** [str(v)], as an f-string renders it. *)
Definition fmt (v : value) : text :=
  match v with
  | VNone => u "None"
  | VBool true => u "True"
  | VBool false => u "False"
  | VInt z => u (pretty z)
  | VStr s => s
  end.

(** [d.get(k)] and [d.get(k, default)]. *)
Definition get (d : state) (k : string) : value := default VNone (d !! k).
Definition get_or (d : state) (k : string) (dflt : value) : value :=
  default dflt (d !! k).

Record action := { a_id : text; a_label : text; a_desc : text }.

Definition MENU_ACTIONS : list action :=
  [ {| a_id := u "full_ad"; a_label := u "✍️  Create Full Ad";
       a_desc := u "Headline + 5 bullets + description + keywords + publishing tips" |};
    {| a_id := u "headline_only"; a_label := u "🏷️  Create Headline Only";
       a_desc := u "One high-converting headline line" |};
    {| a_id := u "keywords_5"; a_label := u "🔑  Get 5 Must-Use Keywords";
       a_desc := u "Exactly 5 keywords/phrases to include in the headline" |} ].

Record subcategory := { s_id : text; s_label : text; s_pinecone_id : text }.

Record category := {
  c_id : text;
  c_label : text;
  c_pinecone_id : text;
  c_subcategories : list subcategory
}.

Definition CATEGORY_TREE : list category :=
  [ {| c_id := u "electronics"; c_label := u "💻  Electronics & Computers";
       c_pinecone_id := u "electronics";
       c_subcategories :=
         [ {| s_id := u "electronics"; s_label := u "Electronics (General)";
              s_pinecone_id := u "electronics" |};
           {| s_id := u "computers"; s_label := u "Computers";
              s_pinecone_id := u "computers" |} ] |};
    {| c_id := u "home_kitchen"; c_label := u "🏠  Home & Kitchen";
       c_pinecone_id := u "home-kitchen"; c_subcategories := [] |};
    {| c_id := u "sports_outdoors"; c_label := u "⚽  Sports & Outdoors";
       c_pinecone_id := u "sports-outdoors"; c_subcategories := [] |};
    {| c_id := u "beauty_health"; c_label := u "💄  Beauty & Health";
       c_pinecone_id := u "health-household";
       c_subcategories :=
         [ {| s_id := u "beauty"; s_label := u "Beauty";
              s_pinecone_id := u "beauty" |};
           {| s_id := u "health-household"; s_label := u "Health & Household";
              s_pinecone_id := u "health-household" |} ] |};
    {| c_id := u "automotive"; c_label := u "🚗  Automotive";
       c_pinecone_id := u "automotive"; c_subcategories := [] |};
    {| c_id := u "baby"; c_label := u "🍼  Baby";
       c_pinecone_id := u "baby"; c_subcategories := [] |};
    {| c_id := u "pets"; c_label := u "🐾  Pets";
       c_pinecone_id := u "pets"; c_subcategories := [] |};
    {| c_id := u "luggage"; c_label := u "🧳  Luggage & Travel";
       c_pinecone_id := u "luggage"; c_subcategories := [] |};
    {| c_id := u "arts_crafts"; c_label := u "🎨  Arts & Crafts";
       c_pinecone_id := u "arts_crafts"; c_subcategories := [] |};
    {| c_id := u "industrial"; c_label := u "🏭  Industrial & Scientific";
       c_pinecone_id := u "industrial-scientific"; c_subcategories := [] |} ].

Definition BACK_COMMANDS : list text :=
  map u [ "__back"; "back"; "go back"; "prev"; "previous"; "return";
          "חזור"; "אחורה" ]%string.

Definition _empty_state : state :=
  {[ "step" := VStr (u "GREETING");
     "action" := VNone;
     "category" := VNone;
     "subcategory" := VNone;
     "product" := VNone;
     "constraints" := VNone ]}%string.

(** The option lists of a payload, as the values sent to the client. *)
Definition option_of (id label : text) : pyval :=
  PDict [("id", PStr id); ("label", PStr label)]%string.

Definition menu_options : pyval :=
  PList (map (fun a => PDict [("id", PStr (a_id a));
                              ("label", PStr (a_label a));
                              ("desc", PStr (a_desc a))]%string)
             MENU_ACTIONS).

Definition _top_level_options : list (text * text) :=
  map (fun c => (c_id c, c_label c)) CATEGORY_TREE.

Definition find_category (cat_id : value) : option category :=
  List.find (fun c => eq_str cat_id (c_id c)) CATEGORY_TREE.

Definition _subcategory_options (cat_id : value) : list (text * text) :=
  match find_category cat_id with
  | Some c => map (fun s => (s_id s, s_label s)) (c_subcategories c)
  | None => []
  end.

Definition _has_subcategories (cat_id : value) : bool :=
  match find_category cat_id with
  | Some c => (1 <? len (c_subcategories c))
  | None => false
  end.

Definition _pinecone_id (cat_id sub_id : value) : value :=
  let by_category :=
    match find_category cat_id with
    | Some c => VStr (c_pinecone_id c)
    | None => cat_id
    end in
  if truthy sub_id then
    match List.find (fun s => eq_str sub_id (s_id s))
                    (concat (map c_subcategories CATEGORY_TREE)) with
    | Some s => VStr (s_pinecone_id s)
    | None => by_category
    end
  else by_category.

(** [label.split("  ")[1]]; every label of the tree has the two spaces. *)
Definition label_text (label : text) : text :=
  nth 1 (split_str (u "  ") label) [].

Definition _category_label (cat_id sub_id : value) : value :=
  match find_category cat_id with
  | Some c =>
      let plain :=
        if contains (u "  ") (c_label c) then label_text (c_label c)
        else c_label c in
      if truthy sub_id then
        match List.find (fun s => eq_str sub_id (s_id s)) (c_subcategories c) with
        | Some s => VStr (label_text (c_label c) ++ u " > " ++ s_label s)
        | None => VStr plain
        end
      else VStr plain
  | None => cat_id
  end.

Definition _all_top_ids : list text := map c_id CATEGORY_TREE.

Definition options_of (l : list (text * text)) : pyval :=
  PList (map (fun o => option_of o.1 o.2) l).

(** The payload sent to the client. *)
Record payload := {
  message : text;
  ui_type : text;
  options : pyval;
  ready : bool;
  agent_prompt : option text
}.

Definition _payload_for_step (st : state) : payload :=
  let step := get_or st "step" (VStr (u "GREETING")) in
  if eq_str step (u "MENU") then
    {| message := u "What would you like to do today?";
       ui_type := u "menu";
       options := menu_options;
       ready := false;
       agent_prompt := None |}
  else if eq_str step (u "COLLECT_CATEGORY") then
    {| message := u "Select the **main category** of your product:";
       ui_type := u "categories";
       options := options_of _top_level_options;
       ready := false;
       agent_prompt := None |}
  else if eq_str step (u "COLLECT_SUBCATEGORY") then
    let cat_id := get_or st "category" (VStr []) in
    let cat_label := _category_label cat_id VNone in
    {| message :=
         u "Great — **" ++ fmt cat_label ++ u "**! Now pick a sub-category:";
       ui_type := u "categories";
       options := options_of (_subcategory_options cat_id);
       ready := false;
       agent_prompt := None |}
  else if eq_str step (u "COLLECT_PRODUCT") then
    let cat_label :=
      _category_label (get_or st "category" (VStr [])) (get st "subcategory") in
    {| message :=
         u "Perfect — **" ++ fmt cat_label ++ u "**!" ++ nl ++ nl
         ++ u "Describe your product:" ++ nl
         ++ u "• Name / model" ++ nl
         ++ u "• Key features (material, size, color, specs)" ++ nl
         ++ u "• What makes it unique";
       ui_type := u "input";
       options := PNone;
       ready := false;
       agent_prompt := None |}
  else if eq_str step (u "COLLECT_CONSTRAINTS") then
    {| message :=
         u "Any constraints or preferences?" ++ nl ++ nl
         ++ u "Examples:" ++ nl
         ++ u "• Target audience" ++ nl
         ++ u "• Tone" ++ nl
         ++ u "• Language (default: English)" ++ nl
         ++ u "• Things to avoid (e.g. no emojis)" ++ nl ++ nl
         ++ u "Or type **skip**.";
       ui_type := u "input";
       options := PNone;
       ready := false;
       agent_prompt := None |}
  else
    {| message := u "Something went wrong. Let's start over!";
       ui_type := u "menu";
       options := menu_options;
       ready := false;
       agent_prompt := None |}.

Definition _go_back (st : state) : state :=
  let step := get_or st "step" (VStr (u "GREETING")) in
  if eq_str step (u "GREETING") || eq_str step (u "MENU") then
    <["step" := VStr (u "MENU")]> _empty_state
  else if eq_str step (u "COLLECT_CATEGORY") then
    <["step" := VStr (u "MENU")]> _empty_state
  else if eq_str step (u "COLLECT_SUBCATEGORY") then
    <["subcategory" := VNone]> (<["step" := VStr (u "COLLECT_CATEGORY")]> st)
  else if eq_str step (u "COLLECT_PRODUCT") then
    let cat_id := get st "category" in
    if truthy cat_id && _has_subcategories cat_id then
      <["constraints" := VNone]>
        (<["product" := VNone]>
           (<["step" := VStr (u "COLLECT_SUBCATEGORY")]> st))
    else
      <["constraints" := VNone]>
        (<["product" := VNone]>
           (<["subcategory" := VNone]>
              (<["category" := VNone]>
                 (<["step" := VStr (u "COLLECT_CATEGORY")]> st))))
  else if eq_str step (u "COLLECT_CONSTRAINTS") then
    <["constraints" := VNone]> (<["step" := VStr (u "COLLECT_PRODUCT")]> st)
  else if eq_str step (u "GENERATE") then
    <["step" := VStr (u "COLLECT_CONSTRAINTS")]> st
  else
    <["step" := VStr (u "MENU")]> _empty_state.

Definition action_instruction (action : value) : text :=
  if eq_str action (u "full_ad") then
    u "Write a full high-converting ad: headline + 5 bullets + short description + keywords + publishing tips."
  else if eq_str action (u "headline_only") then
    u "Write ONLY a high-converting headline for this product. Output only 'Headline: ...'."
  else if eq_str action (u "keywords_5") then
    u "Generate ONLY a list of 5 keywords/phrases that MUST be included in the headline. Output only 'Keywords: k1, k2, k3, k4, k5'."
  else u "Write a full high-converting ad.".

Definition process_message (user_input : option text) (st : option state)
  : state * payload :=
  let st :=
    match st with
    | None => _empty_state
    | Some s => if negb (truthy (get s "step")) then _empty_state else s
    end in
  let step := get_or st "step" (VStr (u "GREETING")) in
  let text := strip (or_empty user_input) in
  if negb (is_empty text) && mem (lower text) BACK_COMMANDS then
    let new_state := _go_back st in
    (new_state, _payload_for_step new_state)
  else if eq_str step (u "GREETING") then
    let new_state := <["step" := VStr (u "MENU")]> st in
    (new_state,
     {| message :=
          u "👋 Welcome to **Ad-Wise**!" ++ nl ++ nl
          ++ u "I help you craft high-converting ad copy grounded in real product listing data."
          ++ nl ++ nl
          ++ u "Choose an option:";
        ui_type := u "menu";
        options := menu_options;
        ready := false;
        agent_prompt := None |})
  else if eq_str step (u "MENU") then
    if negb (mem text (map a_id MENU_ACTIONS)) then
      (st,
       {| message := u "Please choose one of the options below:";
          ui_type := u "menu";
          options := menu_options;
          ready := false;
          agent_prompt := None |})
    else
      let new_state :=
        <["action" := VStr text]>
          (<["step" := VStr (u "COLLECT_CATEGORY")]> st) in
      (new_state, _payload_for_step new_state)
  else if eq_str step (u "COLLECT_CATEGORY") then
    if negb (mem text _all_top_ids) then
      (st,
       {| message := u "Please select a category from the list:";
          ui_type := u "categories";
          options := options_of _top_level_options;
          ready := false;
          agent_prompt := None |})
    else
      let new_state := <["category" := VStr text]> st in
      if _has_subcategories (VStr text) then
        let new_state :=
          <["step" := VStr (u "COLLECT_SUBCATEGORY")]> new_state in
        (new_state, _payload_for_step new_state)
      else
        let new_state := <["step" := VStr (u "COLLECT_PRODUCT")]> new_state in
        let new_state := <["subcategory" := VNone]> new_state in
        (new_state, _payload_for_step new_state)
  else if eq_str step (u "COLLECT_SUBCATEGORY") then
    let cat_id := get_or st "category" (VStr []) in
    let valid_subs := map fst (_subcategory_options cat_id) in
    if negb (mem text valid_subs) then
      (st,
       {| message := u "Please select a sub-category:";
          ui_type := u "categories";
          options := options_of (_subcategory_options cat_id);
          ready := false;
          agent_prompt := None |})
    else
      let new_state :=
        <["subcategory" := VStr text]>
          (<["step" := VStr (u "COLLECT_PRODUCT")]> st) in
      (new_state, _payload_for_step new_state)
  else if eq_str step (u "COLLECT_PRODUCT") then
    if (len text <? 5) then
      (st,
       {| message := u "Please describe your product in a bit more detail:";
          ui_type := u "input";
          options := PNone;
          ready := false;
          agent_prompt := None |})
    else
      let new_state :=
        <["product" := VStr text]>
          (<["step" := VStr (u "COLLECT_CONSTRAINTS")]> st) in
      (new_state, _payload_for_step new_state)
  else if eq_str step (u "COLLECT_CONSTRAINTS") then
    let constraints :=
      if bool_decide (lower text = u "skip") then [] else text in
    let new_state :=
      <["constraints" := VStr constraints]>
        (<["step" := VStr (u "GENERATE")]> st) in
    let action := get_or new_state "action" (VStr (u "full_ad")) in
    let cat_id := get_or new_state "category" (VStr []) in
    let sub_id := get new_state "subcategory" in
    let product := get_or new_state "product" (VStr []) in
    let cons_str := if is_empty constraints then u "None" else constraints in
    let cat_label := _category_label cat_id sub_id in
    let rag_category := _pinecone_id cat_id sub_id in
    let agent_prompt :=
      u "Product: " ++ fmt product ++ nl
      ++ u "Category: " ++ fmt cat_label ++ nl
      ++ u "RAG Category Filter: " ++ fmt rag_category ++ nl
      ++ u "Constraints: " ++ cons_str ++ nl
      ++ u "Platform: E-commerce" ++ nl
      ++ u "Task: " ++ action_instruction action in
    (new_state,
     {| message :=
          u "✅ Got it! Generating output for _" ++ fmt cat_label ++ u "_...";
        ui_type := u "result";
        options := PNone;
        ready := true;
        agent_prompt := Some agent_prompt |})
  else if eq_str step (u "GENERATE") then
    let new_state := <["step" := VStr (u "MENU")]> _empty_state in
    (new_state, _payload_for_step new_state)
  else
    (_empty_state, _payload_for_step _empty_state).

End Conversation.

(** ** [app/main.py]: the two endpoints *)

Module Main.
Import Agent Pipeline Conversation.

(** The loop of both endpoints over the lines of a prompt: the value of
    the first [RAG Category Filter:] line, or the empty text. *)
Definition rag_category (prompt : text) : text :=
  match List.find (startswith (u "RAG Category Filter:")) (splitlines prompt)
  with
  | Some line => strip (nth 1 (split1 58 line) [])
  | None => []
  end.

(** The steps of a chat reply: those of the pipeline, or the one step of
    the conversation manager (user input, state received, next step and
    kind of the reply). *)
Inductive chat_steps : Type :=
  | AgentSteps (l : list pyval)
  | ManagerStep (user_input : text) (st : option state) (next_step : value)
      (ui_type : text).

(** The dictionary that [chat] returns; [r_agent_prompt] is the key that
    only the generating reply has. *)
Record chat_reply := {
  r_status : text;
  r_error : option text;
  r_response : option text;
  r_steps : chat_steps;
  r_next_state : state;
  r_ui_type : text;
  r_options : pyval;
  r_message : text;
  r_agent_prompt : option text
}.

Section Endpoints.
Context {World : Type}.
Variable ENABLE_REPAIR : bool.
Variable MAX_PROMPT_CHARS : Z.
Variable retrieve_examples :
text -> text -> World -> (exn + option text * RetrievalTrace) * World.
Variable llm_generate_ad :
text -> text -> World -> (exn + option text * pyval) * World.

(** [execute]: the run of the pipeline on the trimmed prompt, or the error
reply for an empty one.  Next to the reply stand the generator calls
and the state of the services after the request. *)
Definition execute (prompt : text) (w : World)
: result * list (text * text) * World :=
let prompt := strip prompt in
if is_empty prompt then
({| status := u "error"; error := Some (u "Empty prompt");
    response := None; steps := [] |}, [], w)
else
let rag_cat := rag_category prompt in
let '(agent_result, st) :=
  run_agent ENABLE_REPAIR MAX_PROMPT_CHARS retrieve_examples
            llm_generate_ad (Some prompt) rag_cat w in
({| status := status agent_result; error := error agent_result;
    response := response agent_result; steps := steps agent_result |},
 st_calls st, st_world st).

(** [chat]: one turn of the wizard, and the run of the pipeline when the
turn is ready. *)
Definition chat (prompt : text) (st : option state) (w : World)
: chat_reply * list (text * text) * World :=
let '(new_state, payload) := process_message (Some prompt) st in
if ready payload then
let agent_prompt := or_empty (agent_prompt payload) in
let rag_cat := rag_category agent_prompt in
let '(agent_result, pst) :=
  run_agent ENABLE_REPAIR MAX_PROMPT_CHARS retrieve_examples
            llm_generate_ad (Some agent_prompt) rag_cat w in
({| r_status := status agent_result;
    r_error := error agent_result;
    r_response := response agent_result;
    r_steps := AgentSteps (steps agent_result);
    r_next_state := new_state;
    r_ui_type := u "result";
    r_options := PNone;
    r_message := message payload;
    r_agent_prompt := Some agent_prompt |},
 st_calls pst, st_world pst)
else
({| r_status := u "ok";
    r_error := None;
    r_response := Some (message payload);
    r_steps := ManagerStep prompt st (get new_state "step")
                           (ui_type payload);
    r_next_state := new_state;
    r_ui_type := ui_type payload;
    r_options := options payload;
    r_message := message payload;
    r_agent_prompt := None |}, [], w).

End Endpoints.

End Main.

(** ** Notions used in the statements *)

Module Notions.
Import Agent Pipeline Conversation Main.


(** The text that follows the first occurrence of a marker. *)
Fixpoint phrase_after (marker s : text) : option text :=
  if startswith marker s then Some (drop (length marker) s)
  else match s with
       | [] => None
       | _ :: s' => phrase_after marker s'
       end.


(** The two signals and the token count of the clarification gate, for a
    trimmed and lower-cased text [p_l]. *)
Definition has_intent (p_l : text) : bool := any_in _INTENT_HINTS p_l.

Definition has_product (p_l : text) : bool :=
  any_in _PRODUCT_HINTS p_l || contains (u "product:") p_l.

Definition meaningful_tokens (p_l : text) : Z :=
  len (List.filter (fun t => (2 <=? len t)) (findall_alnum p_l)).

(** A Full-mode text with the given bullet lines. *)
Definition full_text (bullets : list text) : text :=
  u "Headline: Red ceramic mug" ++ nl
  ++ u "Bullets:" ++ nl
  ++ concat (map (fun b => u "- " ++ b ++ nl) bullets)
  ++ u "Short description: A mug." ++ nl
  ++ u "Keywords: mug, red, ceramic" ++ nl
  ++ u "Publishing tips: Post in the morning.".

(** The global back test of [process_message]. *)
Definition is_back_command (user_input : option text) : bool :=
  let text := strip (or_empty user_input) in
  negb (is_empty text) && mem (lower text) BACK_COMMANDS.

(** The guards of [run_agent] on the trimmed request: it is not empty and
    not longer than the limit. *)
Definition guards_pass (max_prompt_chars : Z) (prompt : text) : bool :=
  negb (is_empty prompt) && negb (max_prompt_chars <? len prompt).

(** The request is wizard-originated. *)
Definition from_wizard (prompt : text) : bool :=
  contains (u "RAG Category Filter:") prompt
  || contains (u "Category:") prompt
  || contains (u "Task:") prompt.

(** The intent guard lets the request through. *)
Definition proceeds (prompt : text) : bool :=
  from_wizard prompt || negb (_should_clarify prompt).1.

(** The two messages of the draft generation call, for a request and the
    context block that the retriever returned. *)
Definition draft_messages (prompt : text) (ctx : option text) : text * text :=
  let condensed := _condense_ctx prompt (or_empty ctx) 10 in
  _build_messages prompt condensed (_extract_allowed_terms condensed 12)
                  (_detect_mode prompt).

(** The module names of a trace. *)
Definition module_of (step : pyval) : text :=
  match step with
  | PDict (("module"%string, PStr m) :: _) => m
  | _ => []
  end.

Definition modules (steps : list pyval) : list text := map module_of steps.

(** The last step of the trace of a composed result. *)
Definition composer_step (repaired : bool) (mode : text) (format_valid : bool)
  : pyval :=
  step (u "FinalResponseComposer")
    (PDict [("repaired", PBool repaired); ("mode", PStr mode)]%string)
    (PDict [("format_valid", PBool format_valid)]%string).


(** The module names of the trace of a composed result, without and with
    the repair step. *)
Definition composed_modules (repair : bool) : list text :=
  [ u "InputGuard"; u "IntentGuard"; u "AmazonInspirationRetriever";
    u "AdCopyWriter" ]
  ++ (if repair then [u "FormatRepair"] else [])
  ++ [ u "FinalResponseComposer" ].

(** Two collaborators for the examples: a retriever that returns one fixed
    context block, and a generator that answers every call with the same
    text and counts its calls. *)
Definition fixed_retriever (ctx : text)
  : text -> text -> nat -> (exn + option text * RetrievalTrace) * nat :=
  fun _ _ w =>
    (inr (Some ctx,
          {| provider := u "pinecone"; top_k := 5; namespace := u "amazon_ads";
             index_name := u "amazon-ads-index"; matches := 1;
             categories := [u "home-kitchen"]; ads_used := 2; note := [] |}),
     w).

Definition fixed_generator (answer : text)
  : text -> text -> nat -> (exn + option text * pyval) * nat :=
  fun _ _ w => (inr (Some answer, PNone), S w).

(** The words of a rewritten query: its pieces between single spaces. *)
Definition query_words (q : text) : list text := split 32 q.

(** A query word is drawn from the two values when it is a token of the
    lower-cased category value or of the lower-cased product value. *)
Definition drawn_from (category_part product_part : text) (t : text) : bool :=
  mem t (findall_alnum (lower category_part))
  || mem t (findall_alnum (lower product_part)).

(** The tokens that the rewriter keeps for a request with both values. *)
Definition kept_tokens (category_part product_part : text) : list text :=
  take 12
    (List.filter significant
       (u "category" :: findall_alnum (lower category_part)
        ++ findall_alnum (lower product_part))).

(** Neither end of a text is whitespace. *)
Definition ends_clean (s : text) : Prop :=
  (forall c, head s = Some c -> isspace c = false)
  /\ (forall c, last s = Some c -> isspace c = false).

(** A non-empty text without whitespace. *)
Definition clean_token (t : text) : Prop :=
  t <> [] /\ Forall (fun c => isspace c = false) t.

(** The key under which [_condense_ctx] remembers a line. *)
Definition line_key (s : text) : text := strip (lower s).

(** The first occurrences, by key, of the lines whose key is not empty and
    not yet seen: what the loop of [_condense_ctx] keeps when it is not
    cut short. *)
Fixpoint dedupe (seen : list text) (l : list text) : list text :=
  match l with
  | [] => []
  | s :: l' =>
      if is_empty (line_key s) || mem (line_key s) seen then dedupe seen l'
      else s :: dedupe (line_key s :: seen) l'
  end.

(** Keys never increase along a list. *)
Definition descending {A : Type} (key : A -> nat) (l : list A) : Prop :=
  StronglySorted (fun x y => (key y <= key x)%nat) l.

(** More collaborators for the examples: a retriever and a generator that
    raise, and a generator that answers its calls from a script (the state
    counts the calls; past the script it raises). *)
Definition raising_retriever (kind msg : text)
  : text -> text -> nat -> (exn + option text * RetrievalTrace) * nat :=
  fun _ _ w => (inl (Exn kind msg), w).

Definition scripted_generator (script : list (option text))
  : text -> text -> nat -> (exn + option text * pyval) * nat :=
  fun _ _ w =>
    match script !! w with
    | Some answer => (inr (answer, PNone), S w)
    | None => (inl (Exn (u "RuntimeError") (u "LLM call failed")), S w)
    end.

(** A structured request and a context block for the examples. *)
Definition example_request : text :=
  u "Product: red ceramic mug" ++ nl ++ u "Category: Home & Kitchen" ++ nl
  ++ u "Task: Write ONLY a high-converting headline for this product.".

Definition example_block : text :=
  u "[Category: home-kitchen]" ++ nl ++ u "- Red ceramic mug 350ml" ++ nl
  ++ u "- Blue glass cup".

(** What the caller sees of a run, in short: the status, whether an error
    text and a response are present, the module names of the trace and the
    number of generator calls. *)
Definition summary (r : result) (calls : list (text * text))
  : text * bool * bool * list text * nat :=
  (status r, bool_decide (is_Some (error r)),
   bool_decide (is_Some (response r)), modules (steps r), length calls).

(** The ways in which a run can end. *)
Definition run_endings (repair : bool)
  : list (text * bool * bool * list text * nat) :=
  [ (u "error", true, false, [u "InputGuard"], 0%nat);
    (u "ok", false, true, [u "InputGuard"; u "IntentGuard"], 0%nat);
    (u "error", true, false, [u "InputGuard"; u "IntentGuard"], 0%nat);
    (u "error", true, false,
     [u "InputGuard"; u "IntentGuard"; u "AmazonInspirationRetriever"],
     1%nat);
    (u "ok", false, true, composed_modules false, 1%nat) ]
  ++ (if repair then
        [ (u "error", true, false,
           [u "InputGuard"; u "IntentGuard"; u "AmazonInspirationRetriever";
            u "AdCopyWriter"], 2%nat);
          (u "ok", false, true, composed_modules true, 2%nat) ]
      else []).

(** The bounds and the shape that every ending respects, as tests. *)
Definition ending_in_bounds (repair : bool)
  (e : text * bool * bool * list text * nat) : bool :=
  let '(_, _, _, ms, calls) := e in
  (calls <=? 2)%nat
  && (repair || (calls <=? 1)%nat)
  && (1 <=? length ms)%nat && (length ms <=? 6)%nat
  && (bool_decide (ms `prefix_of` composed_modules true)
      || bool_decide (ms `prefix_of` composed_modules false)).

Definition ending_well_shaped
  (e : text * bool * bool * list text * nat) : bool :=
  let '(st, has_error, has_response, _, _) := e in
  bool_decide (st = u "ok") && negb has_error && has_response
  || bool_decide (st = u "error") && has_error && negb has_response.

(** How often a token occurs in a list of tokens. *)
Definition occurrences (t : text) (toks : list text) : nat :=
  length (List.filter (fun x => bool_decide (x = t)) toks).

(** The count that a counter holds for a key (zero when it holds none). *)
Fixpoint count_of (t : text) (cs : list (text * nat)) : nat :=
  match cs with
  | [] => 0%nat
  | (k, n) :: cs' => if bool_decide (k = t) then n else count_of t cs'
  end.

(** The tokens that [_extract_allowed_terms] counts. *)
Definition counted_tokens (condensed_ctx : text) : list text :=
  List.filter (fun t => negb (mem t _STOPWORDS))
              (findall_terms (lower condensed_ctx)).

(** The tokens that [_rewrite_query] keeps for a request, structured or
    not. *)
Definition rewritten_tokens (prompt : text) : list text :=
  let '(category_part, product_part) := scan_parts prompt in
  let text :=
    if negb (is_empty category_part) && negb (is_empty product_part)
    then lower (u "category " ++ category_part ++ u " " ++ product_part)
    else lower prompt in
  take 12 (List.filter significant (findall_alnum text)).

(** The state that [process_message] works on: the given one, or the fresh
    one when none is given or its step is missing or falsy. *)
Definition current_state (st : option state) : state :=
  match st with
  | None => _empty_state
  | Some s => if negb (truthy (get s "step")) then _empty_state else s
  end.

Definition current_step (st : option state) : value :=
  get_or (current_state st) "step" (VStr (u "GREETING")).

(** A text without line boundary. *)
Definition one_line (s : text) : Prop :=
  Forall (fun c => is_linebreak c = false) s.

(** The request that the wizard hands to the pipeline, read off the state
    in which the constraints question is answered and the trimmed answer. *)
Definition wizard_prompt (st : state) (answer : text) : text :=
  let constraints :=
    if bool_decide (lower answer = u "skip") then [] else answer in
  let cat_id := get_or st "category" (VStr []) in
  let sub_id := get st "subcategory" in
  u "Product: " ++ fmt (get_or st "product" (VStr [])) ++ nl
  ++ u "Category: " ++ fmt (_category_label cat_id sub_id) ++ nl
  ++ u "RAG Category Filter: " ++ fmt (_pinecone_id cat_id sub_id) ++ nl
  ++ u "Constraints: "
  ++ (if is_empty constraints then u "None" else constraints) ++ nl
  ++ u "Platform: E-commerce" ++ nl
  ++ u "Task: " ++ action_instruction (get_or st "action" (VStr (u "full_ad"))).

(** The language of a pattern. *)
Inductive in_lang : Re.re -> text -> Prop :=
  | L_eps : in_lang Re.Eps []
  | L_cls f c : f c = true -> in_lang (Re.Cls f) [c]
  | L_seq r1 r2 s1 s2 :
      in_lang r1 s1 -> in_lang r2 s2 -> in_lang (Re.Seq r1 r2) (s1 ++ s2)
  | L_alt_l r1 r2 s : in_lang r1 s -> in_lang (Re.Alt r1 r2) s
  | L_alt_r r1 r2 s : in_lang r2 s -> in_lang (Re.Alt r1 r2) s
  | L_star_nil r : in_lang (Re.Star r) []
  | L_star_cons r s1 s2 :
      in_lang r s1 -> in_lang (Re.Star r) s2 -> in_lang (Re.Star r) (s1 ++ s2).

(** A labelled section of the output formats: the label, one whitespace
    character, and a non-empty value without line feed. *)
Definition labelled (label line : text) : Prop :=
  exists ws v, line = label ++ ws :: v
               /\ isspace ws = true /\ v <> []
               /\ Forall (fun c => c <> 10%N) v.

(** The shape of a valid Full-mode text. *)
Definition full_shape (t : text) : Prop :=
  exists h b1 b2 b3 b4 b5 d k p,
    t = h ++ nl ++ u "Bullets:" ++ nl
        ++ b1 ++ nl ++ b2 ++ nl ++ b3 ++ nl ++ b4 ++ nl ++ b5 ++ nl
        ++ d ++ nl ++ k ++ nl ++ p
    /\ labelled (u "Headline:") h
    /\ labelled (u "-") b1 /\ labelled (u "-") b2 /\ labelled (u "-") b3
    /\ labelled (u "-") b4 /\ labelled (u "-") b5
    /\ labelled (u "Short description:") d
    /\ labelled (u "Keywords:") k
    /\ labelled (u "Publishing tips:") p.

End Notions.
(** * Properties

    ** The text primitives on examples *)

Import Notions.

Example splitlines_ex :
  splitlines (u "a" ++ [13;10]%N ++ u "b" ++ nl ++ nl ++ u "c" ++ nl)
  = [u "a"; u "b"; []; u "c"].
Proof. reflexivity. Qed.

Example split_ex : split 44 (u "a,,b,") = [u "a"; []; u "b"; []].
Proof. reflexivity. Qed.

Example split1_ex : split1 58 (u "k: v: w") = [u "k"; u " v: w"].
Proof. reflexivity. Qed.

Example split_str_ex :
  split_str (u "  ") (u "💻  Electronics & Computers")
  = [[128187%N]; u "Electronics & Computers"].
Proof. reflexivity. Qed.

Example strip_ex : strip (u "  a b " ++ nl) = u "a b".
Proof. reflexivity. Qed.

Example findall_ex :
  findall_alnum (u "red-mug 350ml, Ok") = [u "red"; u "mug"; u "350ml"; u "k"].
Proof. reflexivity. Qed.

(** ** Facts about the text primitives *)

Lemma lookup_map {A B} (f : A -> B) (l : list A) (i : nat) :
  map f l !! i = f <$> l !! i.
Proof.
  revert i. induction l as [|x l IH]; intros [|i]; simpl; auto.
Qed.

Lemma lower_app (a b : text) : lower (a ++ b) = lower a ++ lower b.
Proof. apply map_app. Qed.

(** Tokens: every run is non-empty and holds characters of the class only. *)
Lemma runs_go_spec (cls : N -> bool) (cur s : text) :
  Forall (fun c => cls c = true) cur ->
  Forall (fun t => t <> [] /\ Forall (fun c => cls c = true) t)
         (runs_go cls cur s).
Proof.
  revert cur. induction s as [|c s IH]; intros cur Hcur; simpl.
  - destruct cur; simpl; [constructor|].
    constructor; [split; [discriminate|exact Hcur]|constructor].
  - destruct (cls c) eqn:Hc.
    + apply IH. apply Forall_app. split; [exact Hcur|].
      constructor; [exact Hc|constructor].
    + destruct cur; simpl.
      * apply IH. constructor.
      * constructor; [split; [discriminate|exact Hcur]|].
        apply IH. constructor.
Qed.

(** A character outside the class ends the current run: the tokens of a
    text split there are the tokens of its two sides. *)
Lemma runs_go_sep (cls : N -> bool) (cur a : text) (c : N) (b : text) :
  cls c = false ->
  runs_go cls cur (a ++ c :: b) = runs_go cls cur a ++ runs_go cls [] b.
Proof.
  intros Hc. revert cur. induction a as [|x a IH]; intros cur; simpl.
  - rewrite Hc. by destruct cur.
  - destruct (cls x); [apply IH|].
    destruct cur; simpl; [apply IH|]. f_equal. apply IH.
Qed.

Lemma findall_alnum_sep (a : text) (c : N) (b : text) :
  is_lower_alnum c = false ->
  findall_alnum (a ++ c :: b) = findall_alnum a ++ findall_alnum b.
Proof. apply runs_go_sep. Qed.

Lemma findall_alnum_spec (s : text) :
  Forall (fun t => t <> [] /\ Forall (fun c => is_lower_alnum c = true) t)
         (findall_alnum s).
Proof. apply runs_go_spec. constructor. Qed.

Lemma alnum_not_space (c : N) : is_lower_alnum c = true -> isspace c = false.
Proof.
  unfold is_lower_alnum. intros H.
  rewrite orb_true_iff, !andb_true_iff, !N.leb_le in H.
  destruct (isspace c) eqn:E; [exfalso|reflexivity].
  unfold isspace in E.
  rewrite !orb_true_iff, !andb_true_iff, !N.leb_le, !N.eqb_eq in E. lia.
Qed.

Lemma lstrip_id (s : text) :
  (forall c, head s = Some c -> isspace c = false) -> lstrip s = s.
Proof.
  destruct s as [|c s]; [reflexivity|]. intros H. simpl.
  by rewrite (H c eq_refl).
Qed.

Lemma head_rev {A} (s : list A) : head (rev s) = last s.
Proof.
  induction s as [|x l _] using rev_ind; [reflexivity|].
  rewrite rev_app_distr, last_snoc. reflexivity.
Qed.

Lemma strip_id (s : text) : ends_clean s -> strip s = s.
Proof.
  intros [Hh Hl]. unfold strip, rstrip. rewrite (lstrip_id s Hh).
  rewrite lstrip_id; [apply rev_involutive|].
  intros c Hc. apply Hl. by rewrite <- head_rev.
Qed.

(** ** ModeDetector *)

Section ModeDetector.
Import Agent Notions.

Lemma phrase_after_contains marker s :
is_Some (phrase_after marker s) <-> contains marker s = true.
Proof.
induction s as [|c s IH]; simpl.
- destruct (startswith marker []); simpl; split; intros H;
  try done; try (by eexists); by destruct H.
- destruct (startswith marker (c :: s)); simpl.
+ split; [done | by eexists].
+ exact IH.
Qed.

Example detect_mode_headline :
_detect_mode (u "Product: mug" ++ nl ++ u "Task: Write ONLY a high-converting headline for this product.")
= _MODE_HEADLINE.
Proof. vm_compute. reflexivity. Qed.

Example detect_mode_keywords :
_detect_mode (u "Task: give me 5 keywords") = _MODE_KEYWORDS5.
Proof. vm_compute. reflexivity. Qed.

Example detect_mode_full :
_detect_mode (u "Task: Full ad") = _MODE_FULL.
Proof. vm_compute. reflexivity. Qed.




End ModeDetector.

(** ** ClarificationGate *)

Section ClarificationGate.
Import Agent Notions.

Example clarify_empty : _should_clarify (u "   ") = (true, u "empty").
Proof. vm_compute. reflexivity. Qed.

Example clarify_short : _should_clarify (u "red mug") = (true, u "too_short").
Proof. vm_compute. reflexivity. Qed.

Example clarify_missing_product :
_should_clarify (u "please write something nice")
= (true, u "missing_product").
Proof. vm_compute. reflexivity. Qed.

Example clarify_few_tokens_product :
_should_clarify (u "mug!!!!!!!!!!!!!") = (false, []).
Proof. vm_compute. reflexivity. Qed.

Example clarify_few_tokens :
_should_clarify (u "xyzzy!!!!!!!!!!!") = (true, u "too_few_tokens").
Proof. vm_compute. reflexivity. Qed.

Example clarify_no_signal :
_should_clarify (u "something blue for my kitchen")
= (true, u "no_intent_or_product").
Proof. vm_compute. reflexivity. Qed.

(** C8: for a free-form text of at least 12 characters after trimming the
gate applies its rules in this order: intent hint without product
signal gives missing_product; otherwise fewer than 3 tokens of length
at least 2 gives too_few_tokens, unless a product signal is present,
in which case the request proceeds; otherwise neither signal gives
no_intent_or_product; otherwise the request proceeds. *)
Theorem C8_clarification_rules (prompt : text) :
12 <= len (strip prompt) ->
let p_l := lower (strip prompt) in
(has_intent p_l = true -> has_product p_l = false ->
 _should_clarify prompt = (true, u "missing_product"))
/\ (~ (has_intent p_l = true /\ has_product p_l = false) ->
  meaningful_tokens p_l < 3 ->
  _should_clarify prompt =
    if has_product p_l then (false, []) else (true, u "too_few_tokens"))
/\ (~ (has_intent p_l = true /\ has_product p_l = false) ->
  3 <= meaningful_tokens p_l ->
  has_intent p_l = false -> has_product p_l = false ->
  _should_clarify prompt = (true, u "no_intent_or_product"))
/\ (~ (has_intent p_l = true /\ has_product p_l = false) ->
  3 <= meaningful_tokens p_l ->
  ~ (has_intent p_l = false /\ has_product p_l = false) ->
  _should_clarify prompt = (false, [])).
Proof.
intros Hlen p_l. unfold _should_clarify.
assert (Hne : is_empty (strip prompt) = false).
{ destruct (strip prompt); [unfold len in Hlen; simpl in Hlen; lia | reflexivity]. }
rewrite Hne.
assert (Hshort :
(len (strip prompt) <? MIN_PROMPT_CHARS_FOR_AGENT) = false).
{ apply Z.ltb_ge. exact Hlen. }
rewrite Hshort.
fold p_l. fold (has_intent p_l). fold (has_product p_l).
fold (meaningful_tokens p_l).
unfold MIN_TOKENS_FOR_AGENT.
generalize (has_intent p_l) (has_product p_l) (meaningful_tokens p_l)
         (true, u "missing_product") (true, u "too_few_tokens")
         (true, u "no_intent_or_product") (false, @nil N).
intros hi hp n r1 r2 r3 r4.
destruct (Z.ltb_spec n 3); destruct hi, hp; cbn [andb negb];
repeat split; intros; try reflexivity; try lia;
try discriminate; exfalso; tauto.
Qed.

Lemma C8_clarification_rules_witness :
_should_clarify (u "mug!!!!!!!!!!!!!") = (false, []).
Proof.
assert (Hlen : 12 <= len (strip (u "mug!!!!!!!!!!!!!")))
by (vm_compute; discriminate).
destruct (C8_clarification_rules (u "mug!!!!!!!!!!!!!") Hlen)
as (_ & H & _).
rewrite H.
- vm_compute. reflexivity.
- vm_compute. intros [? ?]. discriminate.
- vm_compute. reflexivity.
Defined.

End ClarificationGate.

(** ** OutputFormatValidator *)

Section OutputFormatValidator.
Import Agent Notions.

(** The split in [_validate_keywords5_line] always has a second piece:
the accepted prefix holds a colon. *)
Lemma split1_go_colon cur s :
58%N ∈ s -> exists a b, split1_go 58 cur s = [a; b].
Proof.
revert cur. induction s as [|c s IH]; intros cur Hin.
- by apply elem_of_nil in Hin.
- simpl. destruct (N.eqb_spec c 58) as [->|Hne].
+ by eexists _, _.
+ apply elem_of_cons in Hin as [Heq|Hin]; [congruence|].
  by apply IH.
Qed.

Lemma startswith_prefix (p s : text) :
startswith p s = true -> exists r, s = p ++ r.
Proof.
revert s. induction p as [|a p IH]; intros s H.
- by exists s.
- destruct s as [|b s]; [discriminate H|].
simpl in H. apply andb_prop in H as [Hab H].
apply N.eqb_eq in Hab as ->.
destruct (IH _ H) as [r ->]. by exists r.
Qed.

Lemma lower_cp_colon (c : N) : lower_cp c = 58%N -> c = 58%N.
Proof.
unfold lower_cp.
destruct ((65 <=? c) && (c <=? 90)
        || (192 <=? c) && (c <=? 222) && negb (c =? 215))%N eqn:E;
[|done].
intros Hc. exfalso.
apply orb_prop in E as [E|E]; apply andb_prop in E as [E1 E2].
- apply N.leb_le in E1. lia.
- apply andb_prop in E1 as [E1 _]. apply N.leb_le in E1. lia.
Qed.

Lemma startswith_lower_colon (t : text) :
startswith (u "keywords:") (lower t) = true -> 58%N ∈ t.
Proof.
intros H. apply startswith_prefix in H as [r Hr].
assert (H8 : lower t !! 8%nat = Some 58%N) by (rewrite Hr; reflexivity).
unfold lower in H8. rewrite lookup_map in H8.
destruct (t !! 8%nat) as [c|] eqn:Hc; [|discriminate H8].
injection H8 as H8. apply lower_cp_colon in H8 as ->.
by eapply list_elem_of_lookup_2.
Qed.

Lemma keywords5_split_total (t : text) :
startswith (u "keywords:") (lower t) = true ->
exists a b, split1 58 t = [a; b].
Proof. intros H. apply split1_go_colon, startswith_lower_colon, H. Qed.

Example headline_ok : _is_valid_format (u "Headline: Red mug") _MODE_HEADLINE = true.
Proof. vm_compute. reflexivity. Qed.

Example headline_two_lines :
_is_valid_format (u "Headline: Red mug" ++ nl ++ u "Buy now") _MODE_HEADLINE
= false.
Proof. vm_compute. reflexivity. Qed.

Example whitespace_invalid :
_is_valid_format (u "  " ++ nl) _MODE_FULL = false
/\ _is_valid_format (u "  " ++ nl) _MODE_HEADLINE = false
/\ _is_valid_format (u "  " ++ nl) _MODE_KEYWORDS5 = false.
Proof. vm_compute. auto. Qed.

Example full_five_bullets :
_is_valid_format
(full_text [u "one"; u "two"; u "three"; u "four"; u "five"]) _MODE_FULL
= true.
Proof. vm_compute. reflexivity. Qed.

(** C4: the code accepts a Keywords5 text of two lines.  The fifth item
runs over the line break, and nothing in [_validate_keywords5_line]
looks for one. *)
Theorem C4_keywords5_accepts_two_lines :
let t := u "Keywords: aa, bb, cc, dd, ee" ++ nl ++ u "Buy now" in
strip t = t
/\ length (splitlines t) = 2%nat
/\ _validate_keywords5_line t = true
/\ _is_valid_format t _MODE_KEYWORDS5 = true.
Proof. vm_compute. auto. Qed.

(** C5, as stated, fails on its first example: the item "a" has one
character, and the validator rejects items shorter than two. *)
Lemma C5_counterexample :
_is_valid_format (u "Keywords: a, bb, ccc, dddd, eeeee") _MODE_KEYWORDS5
<> true.
Proof. vm_compute. congruence. Qed.

(** C5, amended: "Keywords: a, bb, ccc, dddd, eeeee" is invalid for
Keywords5 and becomes valid once its first item has two characters;
"Keywords: a, b" is invalid for Keywords5; a Full-mode text with 4
bullet lines is invalid for Full mode, where the same text with 5
bullet lines is valid. *)
Theorem C5_validator_examples :
_is_valid_format (u "Keywords: a, bb, ccc, dddd, eeeee") _MODE_KEYWORDS5
= false
/\ _is_valid_format (u "Keywords: aa, bb, ccc, dddd, eeeee") _MODE_KEYWORDS5
 = true
/\ _is_valid_format (u "Keywords: a, b") _MODE_KEYWORDS5 = false
/\ _is_valid_format
   (full_text [u "one"; u "two"; u "three"; u "four"]) _MODE_FULL
 = false
/\ _is_valid_format
   (full_text [u "one"; u "two"; u "three"; u "four"; u "five"])
   _MODE_FULL
 = true.
Proof. vm_compute. auto. Qed.

End OutputFormatValidator.

(** ** ConversationStateMachine *)

Section ConversationStateMachine.
Import Pipeline Conversation Notions.

(** Comparisons of a known step with the step names are evaluated. *)
Ltac eval_steps :=
repeat match goal with
| |- context [eq_str (VStr ?a) ?b] =>
  let v := eval vm_compute in (eq_str (VStr a) b) in
  change (eq_str (VStr a) b) with v
| |- context [truthy (VStr ?a)] =>
  let v := eval vm_compute in (truthy (VStr a)) in
  change (truthy (VStr a)) with v
end; cbn [negb orb andb].

Lemma get_lookup (st : state) k v : st !! k = Some v -> get st k = v.
Proof. unfold get. by intros ->. Qed.

Lemma get_or_lookup (st : state) k d v :
st !! k = Some v -> get_or st k d = v.
Proof. unfold get_or. by intros ->. Qed.

Lemma get_missing (st : state) k : st !! k = None -> get st k = VNone.
Proof. unfold get. by intros ->. Qed.

(** The state that every restart yields. *)
Lemma menu_state_fields :
let ns : state := <["step" := VStr (u "MENU")]> _empty_state in
ns !! "step" = Some (VStr (u "MENU"))
/\ ns !! "action" = Some VNone
/\ ns !! "category" = Some VNone
/\ ns !! "subcategory" = Some VNone
/\ ns !! "product" = Some VNone
/\ ns !! "constraints" = Some VNone
/\ dom ns = {[ "step"; "action"; "category"; "subcategory"; "product";
             "constraints" ]}.
Proof.
cbv zeta. unfold _empty_state.
repeat split; vm_compute; reflexivity.
Qed.

Lemma go_back_fresh :
_go_back _empty_state = <["step" := VStr (u "MENU")]> _empty_state.
Proof. vm_compute. reflexivity. Qed.

Lemma payload_menu_not_ready (st : state) :
ready (_payload_for_step st) = false
/\ agent_prompt (_payload_for_step st) = None.
Proof.
unfold _payload_for_step.
repeat match goal with
     | |- context [if ?b then _ else _] => destruct b
     end; auto.
Qed.

(** A missing state, or a state whose step is missing or falsy, is
replaced by the fresh state before anything else happens. *)
Lemma process_message_fresh (user_input : option text) (st : option state) :
(st = None \/ exists s, st = Some s /\ truthy (get s "step") = false) ->
process_message user_input st = process_message user_input None.
Proof.
intros [->|(s & -> & Hs)]; [reflexivity|].
unfold process_message. rewrite Hs. reflexivity.
Qed.

(** C10: with no state, or a state without a ["step"] key, every input
(back commands included) leads to the menu: the next state has step
MENU and every other field None, and the payload is not ready and
carries no agent prompt. *)
Theorem C10_missing_state_goes_to_menu
(user_input : option text) (st : option state) :
(st = None \/ exists s, st = Some s /\ s !! "step" = None) ->
let '(ns, pl) := process_message user_input st in
ns = <["step" := VStr (u "MENU")]> _empty_state
/\ ns !! "step" = Some (VStr (u "MENU"))
/\ ns !! "action" = Some VNone
/\ ns !! "category" = Some VNone
/\ ns !! "subcategory" = Some VNone
/\ ns !! "product" = Some VNone
/\ ns !! "constraints" = Some VNone
/\ ready pl = false
/\ agent_prompt pl = None.
Proof.
intros Hst.
rewrite process_message_fresh.
2:{ destruct Hst as [->|(s & -> & Hs)]; [by left|right].
  exists s. split; [done|]. by rewrite (get_missing _ _ Hs). }
unfold process_message.
assert (Hstep : get_or _empty_state "step" (VStr (u "GREETING"))
              = VStr (u "GREETING")) by (vm_compute; reflexivity).
rewrite Hstep.
destruct (negb (is_empty (strip (or_empty user_input)))
        && mem (lower (strip (or_empty user_input))) BACK_COMMANDS).
- rewrite go_back_fresh.
destruct menu_state_fields as (? & ? & ? & ? & ? & ? & _).
destruct (payload_menu_not_ready
            (<["step" := VStr (u "MENU")]> _empty_state)).
repeat split; assumption.
- eval_steps.
destruct menu_state_fields as (? & ? & ? & ? & ? & ? & _).
repeat split; assumption.
Qed.

Lemma C10_missing_state_goes_to_menu_witness :
let '(ns, pl) :=
process_message (Some (u "back")) (Some {[ "category" := VStr (u "pets") ]})
in ns !! "step" = Some (VStr (u "MENU")) /\ ns !! "category" = Some VNone
 /\ ready pl = false.
Proof.
assert (Hs : Some ({[ "category" := VStr (u "pets") ]} : state) = None
           \/ exists s : state,
                Some ({[ "category" := VStr (u "pets") ]} : state) = Some s
                /\ s !! "step" = None).
{ right. eexists. split; [reflexivity|]. vm_compute. reflexivity. }
pose proof (C10_missing_state_goes_to_menu (Some (u "back")) _ Hs) as H.
destruct (process_message _ _) as [ns pl].
destruct H as (_ & ? & _ & ? & _ & _ & _ & ? & _). auto.
Defined.

Example back_spellings :
forallb (fun s => is_back_command (Some s))
[u "back"; u " Back "; u "GO BACK"; u "__back"; u "prev"; u "Previous";
 u "return"; u "חזור"; u "אחורה"] = true
/\ is_back_command (Some (u "backwards")) = false
/\ is_back_command None = false.
Proof. vm_compute. auto. Qed.

(** C9: a back command in COLLECT_SUBCATEGORY returns the state with step
COLLECT_CATEGORY and subcategory None and every other key (action,
category, product and constraints among them) as it was; a back
command in MENU returns the fresh state with step MENU. *)
Theorem C9_back_navigation (user_input : option text) (st : state) :
is_back_command user_input = true ->
(st !! "step" = Some (VStr (u "COLLECT_SUBCATEGORY")) ->
 let ns := (process_message user_input (Some st)).1 in
 ns !! "step" = Some (VStr (u "COLLECT_CATEGORY"))
 /\ ns !! "subcategory" = Some VNone
 /\ ns !! "action" = st !! "action"
 /\ ns !! "category" = st !! "category"
 /\ ns !! "product" = st !! "product"
 /\ ns !! "constraints" = st !! "constraints"
 /\ forall k, k <> "step"%string -> k <> "subcategory"%string ->
            ns !! k = st !! k)
/\ (st !! "step" = Some (VStr (u "MENU")) ->
  (process_message user_input (Some st)).1
  = <["step" := VStr (u "MENU")]> _empty_state).
Proof.
unfold is_back_command. intros Hback.
split; intros Hstep; unfold process_message;
rewrite (get_lookup _ _ _ Hstep); eval_steps;
rewrite (get_or_lookup _ _ _ _ Hstep), Hback; cbn [fst];
unfold _go_back; rewrite (get_or_lookup _ _ _ _ Hstep); eval_steps.
- assert (Hframe : forall k, k <> "step"%string -> k <> "subcategory"%string ->
   (<["subcategory" := VNone]>
      (<["step" := VStr (u "COLLECT_CATEGORY")]> st) : state) !! k
   = st !! k).
{ intros k H1 H2. by rewrite !lookup_insert_ne. }
split.
{ rewrite lookup_insert_ne by discriminate. apply lookup_insert_eq. }
split; [apply lookup_insert_eq|].
repeat (split; [apply Hframe; discriminate|]). exact Hframe.
- reflexivity.
Qed.

Lemma C9_back_navigation_witness :
let st : state :=
{[ "step" := VStr (u "COLLECT_SUBCATEGORY");
   "action" := VStr (u "full_ad");
   "category" := VStr (u "electronics");
   "subcategory" := VNone; "product" := VNone;
   "constraints" := VNone ]} in
let ns := (process_message (Some (u "Back")) (Some st)).1 in
ns !! "step" = Some (VStr (u "COLLECT_CATEGORY"))
/\ ns !! "subcategory" = Some VNone
/\ ns !! "category" = Some (VStr (u "electronics")).
Proof.
intros st ns.
assert (Hb : is_back_command (Some (u "Back")) = true)
by (vm_compute; reflexivity).
assert (Hs : st !! "step" = Some (VStr (u "COLLECT_SUBCATEGORY")))
by (vm_compute; reflexivity).
destruct (C9_back_navigation (Some (u "Back")) st Hb) as [H _].
destruct (H Hs) as (H1 & H2 & _ & H4 & _).
split; [exact H1|]. split; [exact H2|].
etransitivity; [exact H4|]. vm_compute. reflexivity.
Defined.

End ConversationStateMachine.

(** ** AgentPipeline and the repair retry *)

Section AgentPipeline.
Import Agent Pipeline Notions.

Context {World : Type}.
Variable MAX_PROMPT_CHARS : Z.
Variable retrieve_examples :
text -> text -> World -> (exn + option text * RetrievalTrace) * World.
Variable llm_generate_ad :
text -> text -> World -> (exn + option text * pyval) * World.

Local Abbreviation run repair :=
(run_agent repair MAX_PROMPT_CHARS retrieve_examples llm_generate_ad).

Ltac unfold_run :=
unfold run_agent, run_body;
cbv beta iota zeta delta
[bind ret append call_retriever call_llm _repair_format
 st_steps st_calls st_world].

Ltac reduce := cbv beta iota.

Ltac trace_names :=
cbv beta iota delta [steps status error response st_calls];
cbn [fst snd app map modules module_of step last composed_modules].

(** Symbolic execution of a run that passes both guards and whose
retrieval and draft generation return: what the run yields in each
of its three continuations. *)
Lemma run_completed (repair : bool) (user_prompt : option text)
(category_filter : text) (w : World) ctx trace w1 llm_text meta w2 :
let prompt := strip (or_empty user_prompt) in
let mode := _detect_mode prompt in
guards_pass MAX_PROMPT_CHARS prompt = true ->
proceeds prompt = true ->
retrieve_examples (_rewrite_query prompt) category_filter w
= (inr (ctx, trace), w1) ->
llm_generate_ad (draft_messages prompt ctx).1
              (draft_messages prompt ctx).2 w1
= (inr (llm_text, meta), w2) ->
let draft := strip (or_empty llm_text) in
let dm := draft_messages prompt ctx in
let rm := repair_messages prompt draft mode in
let out := run repair user_prompt category_filter w in
if repair && negb (_is_valid_format draft mode) then
match llm_generate_ad rm.1 rm.2 w2 with
| (inl (Exn k m), _) =>
    status out.1 = u "error"
    /\ error out.1 = Some (k ++ u ": " ++ m)
    /\ response out.1 = None
    /\ modules (steps out.1)
       = [ u "InputGuard"; u "IntentGuard";
           u "AmazonInspirationRetriever"; u "AdCopyWriter" ]
    /\ st_calls out.2 = [dm; rm]
| (inr (fixed, meta2), _) =>
    let ok := _is_valid_format (or_empty fixed) mode in
    let final := if ok then strip (or_empty fixed) else draft in
    status out.1 = u "ok"
    /\ error out.1 = None
    /\ response out.1 = Some final
    /\ modules (steps out.1) = composed_modules true
    /\ last (steps out.1)
       = Some (composer_step ok mode (_is_valid_format final mode))
    /\ st_calls out.2 = [dm; rm]
end
else
status out.1 = u "ok"
/\ error out.1 = None
/\ response out.1 = Some draft
/\ modules (steps out.1) = composed_modules false
/\ last (steps out.1)
   = Some (composer_step false mode (_is_valid_format draft mode))
/\ st_calls out.2 = [dm].
Proof.
intros prompt mode Hguard Hproceed Hretr Hgen. cbv zeta.
unfold guards_pass in Hguard. apply andb_prop in Hguard as [Hne Hlen].
apply negb_true_iff in Hne, Hlen.
unfold proceeds, from_wizard in Hproceed.
subst mode. unfold draft_messages in *.
unfold_run. fold prompt. rewrite Hne, Hlen.
destruct (_should_clarify prompt) as [c r].
set (fw := contains (u "RAG Category Filter:") prompt
         || contains (u "Category:") prompt
         || contains (u "Task:") prompt) in *.
assert (Hc : (if fw then (false, []) else (c, r))
           = (false, if fw then [] else r)).
{ destruct fw; [reflexivity|].
simpl in Hproceed. apply negb_true_iff in Hproceed. by subst. }
rewrite Hc. reduce. rewrite Hretr. reduce.
destruct (_build_messages prompt _ _ _) as [sys usr].
cbn [fst snd] in Hgen. reduce. rewrite Hgen. reduce.
set (mode := _detect_mode prompt) in *.
destruct (repair && negb (_is_valid_format (strip (or_empty llm_text)) mode)).
- destruct (repair_messages prompt (strip (or_empty llm_text)) mode)
  as [rs ru]. reduce. cbn [fst snd].
destruct (llm_generate_ad rs ru w2) as [[[k m]|[fixed meta2]] w3];
  reduce.
+ trace_names. repeat split; reflexivity.
+ destruct (_is_valid_format (or_empty fixed) mode);
    reduce; trace_names; repeat split; reflexivity.
- trace_names. repeat split; reflexivity.
Qed.

(** C1: with repair enabled, a draft that fails validation leads to
exactly one repair call: the generator is called twice in the run,
once for the draft and once with the repair messages.  If the repaired
text fails validation too, the run returns the draft (the generator's
text, trimmed) with status ok and no error, and the last step of the
trace reports [format_valid: false]. *)
Theorem C1_single_repair_keeps_draft (user_prompt : option text)
(category_filter : text) (w : World) ctx trace w1 llm_text meta w2 :
let prompt := strip (or_empty user_prompt) in
let mode := _detect_mode prompt in
let draft := strip (or_empty llm_text) in
let rm := repair_messages prompt draft mode in
guards_pass MAX_PROMPT_CHARS prompt = true ->
proceeds prompt = true ->
retrieve_examples (_rewrite_query prompt) category_filter w
= (inr (ctx, trace), w1) ->
llm_generate_ad (draft_messages prompt ctx).1
              (draft_messages prompt ctx).2 w1
= (inr (llm_text, meta), w2) ->
_is_valid_format draft mode = false ->
let out := run true user_prompt category_filter w in
st_calls out.2 = [draft_messages prompt ctx; rm]
/\ forall fixed meta2 w3,
   llm_generate_ad rm.1 rm.2 w2 = (inr (fixed, meta2), w3) ->
   _is_valid_format (or_empty fixed) mode = false ->
   status out.1 = u "ok"
   /\ error out.1 = None
   /\ response out.1 = Some draft
   /\ last (steps out.1) = Some (composer_step false mode false).
Proof.
intros prompt mode draft rm Hguard Hproceed Hretr Hgen Hbad out.
pose proof (run_completed true user_prompt category_filter w
            ctx trace w1 llm_text meta w2
            Hguard Hproceed Hretr Hgen) as H.
cbv zeta in H. fold prompt mode draft rm out in H.
rewrite Hbad in H. cbn [andb negb] in H.
destruct (llm_generate_ad rm.1 rm.2 w2) as [[[k m]|[fixed meta2]] w3].
- split; [apply H|]. intros ? ? ? [=].
- split; [apply H|].
intros fixed' meta2' w3' [= <- <- <-] Hbad2. rewrite Hbad2 in H.
rewrite Hbad in H. destruct H as (? & ? & ? & _ & ? & _). auto.
Qed.


End AgentPipeline.

Section AgentPipelineExamples.
Import Agent Pipeline Notions.

(** A structured request, a context block and two generator answers. *)
Let request : text :=
u "Product: red ceramic mug" ++ nl ++ u "Category: Home & Kitchen" ++ nl
++ u "Task: Write ONLY a high-converting headline for this product.".
Let block : text :=
u "[Category: home-kitchen]" ++ nl ++ u "- Red ceramic mug 350ml" ++ nl
++ u "- Blue glass cup".



Lemma C1_single_repair_keeps_draft_witness :
let out :=
run_agent true 4000 (fixed_retriever block)
          (fixed_generator (u "no headline here"))
          (Some request) [] 0%nat in
length (st_calls out.2) = 2%nat
/\ status out.1 = u "ok"
/\ response out.1 = Some (u "no headline here").
Proof.
intros out.
edestruct (C1_single_repair_keeps_draft 4000 (fixed_retriever block)
           (fixed_generator (u "no headline here"))
           (Some request) [] 0%nat) as [Hcalls H].
- vm_compute. reflexivity.
- vm_compute. reflexivity.
- reflexivity.
- reflexivity.
- vm_compute. reflexivity.
- split; [fold out in Hcalls; by rewrite Hcalls|].
edestruct H as (Hs & _ & Hr & _).
+ reflexivity.
+ vm_compute. reflexivity.
+ split; [exact Hs|exact Hr].
Defined.

End AgentPipelineExamples.

(** ** QueryRewriter *)

Section QueryRewriter.
Import Agent Notions.

Lemma clean_token_ends (t : text) : clean_token t -> ends_clean t.
Proof.
intros [_ Hall]. rewrite Forall_forall in Hall.
split; intros c Hc; apply Hall.
- by apply head_Some_elem_of.
- by apply last_Some_elem_of.
Qed.

Lemma join_clean (sep : text) (toks : list text) :
toks <> [] -> Forall clean_token toks ->
join sep toks <> [] /\ ends_clean (join sep toks).
Proof.
induction toks as [|x r IH]; [done|]. intros _ Hall.
apply Forall_cons in Hall as [Hx Hr].
destruct r as [|y r].
- simpl. split; [apply Hx | by apply clean_token_ends].
- destruct (IH ltac:(discriminate) Hr) as [Hne [Hh Hl]].
change (join sep (x :: y :: r)) with (x ++ sep ++ join sep (y :: r)).
destruct Hx as [Hxne Hxall].
split; [by destruct x|]. split; intros c Hc.
+ destruct x as [|c0 x]; [done|]. simpl in Hc. injection Hc as <-.
  by apply Forall_cons in Hxall as [? _].
+ rewrite app_assoc in Hc. rewrite last_app in Hc.
  destruct (last (join sep (y :: r))) as [d|] eqn:Hd.
  * injection Hc as <-. by apply Hl.
  * by apply last_None in Hd.
Qed.

Lemma alnum_token_clean (t : text) :
t <> [] /\ Forall (fun c => is_lower_alnum c = true) t -> clean_token t.
Proof.
intros [Hne Hall]. split; [exact Hne|].
eapply Forall_impl; [exact Hall|]. apply alnum_not_space.
Qed.

(** The tokens of the text that the rewriter builds from the two values:
the word "category", then the tokens of each value. *)
Lemma tokens_of_both (category_part product_part : text) :
findall_alnum
(lower (u "category " ++ category_part ++ u " " ++ product_part))
= u "category" :: findall_alnum (lower category_part)
++ findall_alnum (lower product_part).
Proof.
rewrite !lower_app.
change (lower (u "category ")) with (u "category" ++ [32%N]).
change (lower (u " ")) with [32%N].
rewrite <- app_assoc.
change ([32%N] ++ lower category_part ++ [32%N] ++ lower product_part)
with (32%N :: (lower category_part ++ 32%N :: lower product_part)).
rewrite findall_alnum_sep by reflexivity.
rewrite findall_alnum_sep by reflexivity.
reflexivity.
Qed.

Lemma kept_tokens_spec (category_part product_part : text) :
Forall (fun t =>
        (t <> [] /\ Forall (fun c => is_lower_alnum c = true) t)
        /\ significant t = true
        /\ (t = u "category"
            \/ drawn_from category_part product_part t = true))
     (kept_tokens category_part product_part).
Proof.
unfold kept_tokens. apply Forall_take.
rewrite Forall_forall. intros t Ht. apply list_elem_of_In in Ht.
apply filter_In in Ht as [Ht Hsig].
split; [|split; [exact Hsig|]].
- pose proof (findall_alnum_spec
              (lower (u "category " ++ category_part ++ u " "
                      ++ product_part))) as H.
rewrite tokens_of_both in H. rewrite Forall_forall in H.
by apply H, list_elem_of_In.
- destruct Ht as [<-|Ht]; [by left|right].
unfold drawn_from, mem. apply orb_true_iff.
apply in_app_or in Ht as [Ht|Ht]; [left|right];
  by apply bool_decide_eq_true, list_elem_of_In.
Qed.

Lemma kept_tokens_head (category_part product_part : text) :
exists r, kept_tokens category_part product_part = u "category" :: r.
Proof.
unfold kept_tokens.
change (List.filter significant (u "category" :: ?l))
with (u "category" :: List.filter significant l).
by eexists.
Qed.

(** C6, as stated, fails: the query of a request with both lines starts
with the word "category", which the rewriter adds itself and which is
a token of neither value. *)
Lemma C6_counterexample :
let request := u "Product: dog leash" ++ nl ++ u "Category: Pets" in
scan_parts request = (u "Pets", u "dog leash")
/\ _rewrite_query request = u "category pets dog leash"
/\ query_words (_rewrite_query request)
 = [u "category"; u "pets"; u "dog"; u "leash"]
/\ ~ Forall (fun t => drawn_from (u "Pets") (u "dog leash") t = true)
          (query_words (_rewrite_query request)).
Proof.
cbv zeta. repeat split; try (vm_compute; reflexivity).
intros H. apply Forall_cons in H as [H _]. vm_compute in H. discriminate.
Qed.

(** C6, amended: for every request whose [Category:] and [Product:] values
(as the rewriter reads them) are both non-empty, the query is the
kept tokens joined by single spaces; there are at most 12 of them, and
each is a non-empty run of lowercase ASCII letters and digits of
length at least 3 outside the stopword set that is either the word
"category", which the rewriter puts first, or a token of the
lower-cased category value or product value. *)
Theorem C6_rewrite_query_structured (prompt category_part product_part : text) :
scan_parts prompt = (category_part, product_part) ->
category_part <> [] -> product_part <> [] ->
let toks := kept_tokens category_part product_part in
_rewrite_query prompt = join (u " ") toks
/\ (length toks <= 12)%nat
/\ Forall (fun t =>
           Forall (fun c => is_lower_alnum c = true) t
           /\ 3 <= len t
           /\ mem t _STOPWORDS = false
           /\ (t = u "category"
               \/ drawn_from category_part product_part t = true))
        toks.
Proof.
intros Hscan Hc Hp toks.
pose proof (kept_tokens_spec category_part product_part) as Hspec.
fold toks in Hspec.
split; [|split].
- unfold _rewrite_query. rewrite Hscan.
destruct category_part as [|c0 cp]; [done|].
destruct product_part as [|p0 pp]; [done|].
cbn [is_empty negb andb]. rewrite tokens_of_both.
fold (kept_tokens (c0 :: cp) (p0 :: pp)). fold toks.
destruct (join_clean (u " ") toks) as [Hne Hends].
+ destruct (kept_tokens_head (c0 :: cp) (p0 :: pp)) as [r Hr].
  unfold toks. rewrite Hr. discriminate.
+ eapply Forall_impl; [exact Hspec|].
  intros t (Ht & _). by apply alnum_token_clean.
+ rewrite (strip_id _ Hends).
  by destruct (join (u " ") toks).
- unfold toks, kept_tokens. rewrite length_take. lia.
- eapply Forall_impl; [exact Hspec|].
intros t ((_ & Hall) & Hsig & Hfrom).
unfold significant in Hsig. apply andb_prop in Hsig as [Hlen Hstop].
apply Z.leb_le in Hlen. apply negb_true_iff in Hstop. auto.
Qed.

Lemma C6_rewrite_query_structured_witness :
_rewrite_query (u "Product: dog leash" ++ nl ++ u "Category: Pets")
= join (u " ") (kept_tokens (u "Pets") (u "dog leash")).
Proof.
assert (Hs : scan_parts (u "Product: dog leash" ++ nl ++ u "Category: Pets")
           = (u "Pets", u "dog leash")) by (vm_compute; reflexivity).
assert (Hc : u "Pets" <> []) by (vm_compute; discriminate).
assert (Hp : u "dog leash" <> []) by (vm_compute; discriminate).
exact (proj1 (C6_rewrite_query_structured _ _ _ Hs Hc Hp)).
Defined.

End QueryRewriter.

(** ** ContextRanker *)

Section StableSort.
Import Agent Notions.
Context {A : Type} (key : A -> nat).

Example sorted_desc_ties :
sorted_desc snd [(1, 1); (2, 2); (3, 1); (4, 2)]%nat
= [(2, 2); (4, 2); (1, 1); (3, 1)]%nat.
Proof. reflexivity. Qed.

Lemma insert_desc_perm (x : A) (l : list A) :
Permutation (insert_desc key x l) (x :: l).
Proof.
induction l as [|y l IH]; simpl; [reflexivity|].
destruct (key y <=? key x)%nat; [reflexivity|].
rewrite IH. apply perm_swap.
Qed.

Lemma sorted_desc_perm (l : list A) : Permutation (sorted_desc key l) l.
Proof.
induction l as [|x l IH]; simpl; [reflexivity|].
rewrite insert_desc_perm. by constructor.
Qed.

Lemma insert_desc_descending (x : A) (l : list A) :
descending key l -> descending key (insert_desc key x l).
Proof.
unfold descending. induction l as [|y l IH]; intros Hl; simpl.
- repeat constructor.
- inversion Hl as [|? ? Hl' Hy]; subst.
destruct (Nat.leb_spec (key y) (key x)) as [Hle|Hgt].
+ constructor; [exact Hl|]. constructor; [exact Hle|].
  eapply Forall_impl; [exact Hy|]. simpl. intros z Hz. lia.
+ constructor; [by apply IH|].
  rewrite (Forall_forall _ (insert_desc key x l)). intros z Hz.
  rewrite Forall_forall in Hy.
  apply list_elem_of_In in Hz.
  apply (Permutation_in _ (insert_desc_perm x l)) in Hz.
  destruct Hz as [<-|Hz]; [lia|]. by apply Hy, list_elem_of_In.
Qed.

Lemma sorted_desc_descending (l : list A) :
descending key (sorted_desc key l).
Proof.
induction l as [|x l IH]; simpl; [constructor|].
by apply insert_desc_descending.
Qed.

(** Stability: among the elements of one key, the order is the order of
the input. *)
Lemma insert_desc_filter (k : nat) (x : A) (l : list A) :
List.filter (fun y => key y =? k)%nat (insert_desc key x l)
= List.filter (fun y => key y =? k)%nat (x :: l).
Proof.
induction l as [|y l IH]; [reflexivity|].
cbn [insert_desc].
destruct (Nat.leb_spec (key y) (key x)) as [Hle|Hgt]; [reflexivity|].
cbn [List.filter] in *. rewrite IH.
destruct (Nat.eqb_spec (key y) k), (Nat.eqb_spec (key x) k);
try reflexivity. lia.
Qed.

Lemma sorted_desc_stable (k : nat) (l : list A) :
List.filter (fun y => key y =? k)%nat (sorted_desc key l)
= List.filter (fun y => key y =? k)%nat l.
Proof.
induction l as [|x l IH]; [reflexivity|].
cbn [sorted_desc]. rewrite insert_desc_filter.
cbn [List.filter]. by rewrite IH.
Qed.

Lemma filter_split (P : A -> bool) (l f1 : list A) (a : A) (f2 : list A) :
List.filter P l = f1 ++ a :: f2 ->
exists m1 m2, l = m1 ++ a :: m2
            /\ List.filter P m1 = f1 /\ List.filter P m2 = f2.
Proof.
revert f1. induction l as [|x l IH]; intros f1 H.
- by destruct f1.
- cbn [List.filter] in H. destruct (P x) eqn:Hx.
+ destruct f1 as [|y f1]; simpl in H; injection H as -> H.
  * exists [], l. by rewrite H.
  * destruct (IH _ H) as (m1 & m2 & -> & H1 & H2).
    exists (y :: m1), m2. cbn [List.filter]. rewrite Hx, H1. auto.
+ destruct (IH _ H) as (m1 & m2 & -> & H1 & H2).
  exists (x :: m1), m2. cbn [List.filter]. rewrite Hx. auto.
Qed.

(** In a stably sorted list, the first occurrences of two elements of
equal key stand in the order they have in the input. *)
Lemma sorted_desc_order (l l1 l2 : list A) (a b : A) :
sorted_desc key l = l1 ++ a :: l2 -> key a = key b ->
(b ∉ l1) -> (b ∈ l2) ->
exists m1 m2, l = m1 ++ a :: m2 /\ (b ∉ m1) /\ b ∈ m2.
Proof.
intros Hs Hk Hb1 Hb2.
pose proof (sorted_desc_stable (key a) l) as Hst.
rewrite Hs, List.filter_app in Hst. cbn [List.filter] in Hst.
rewrite Nat.eqb_refl in Hst. symmetry in Hst.
destruct (filter_split _ _ _ _ _ Hst) as (m1 & m2 & -> & H1 & H2).
exists m1, m2. split; [reflexivity|]. split.
- intros Hin. apply Hb1.
assert (In b (List.filter (fun y => key y =? key a)%nat l1)) as Hf.
{ rewrite <- H1. apply filter_In. split; [by apply list_elem_of_In|].
  apply Nat.eqb_eq. by symmetry. }
apply filter_In in Hf as [Hf _]. by apply list_elem_of_In.
- assert (In b (List.filter (fun y => key y =? key a)%nat m2)) as Hf.
{ rewrite H2. apply filter_In. split; [by apply list_elem_of_In|].
  apply Nat.eqb_eq. by symmetry. }
apply filter_In in Hf as [Hf _]. by apply list_elem_of_In.
Qed.

End StableSort.

Section ContextRanker.
Import Agent Notions.

Lemma dedupe_elem (seen l : list text) (x : text) :
(x ∈ dedupe seen l) ->
x ∈ l /\ (line_key x ∉ seen) /\ line_key x <> [].
Proof.
revert seen. induction l as [|s l IH]; intros seen Hx; simpl in Hx.
- by apply elem_of_nil in Hx.
- destruct (is_empty (line_key s) || mem (line_key s) seen) eqn:E.
+ destruct (IH _ Hx) as (? & ? & ?). split; [by right|done].
+ apply orb_false_iff in E as [E1 E2].
  apply elem_of_cons in Hx as [->|Hx].
  * split; [by left|]. split.
    -- unfold mem in E2. by apply bool_decide_eq_false in E2.
    -- by destruct (line_key s).
  * destruct (IH _ Hx) as (? & Hk & ?). split; [by right|].
    split; [|done]. intros Hin. apply Hk. by right.
Qed.

Lemma dedupe_NoDup (seen l : list text) : NoDup (dedupe seen l).
Proof.
revert seen. induction l as [|s l IH]; intros seen; simpl.
- constructor.
- destruct (is_empty (line_key s) || mem (line_key s) seen); [apply IH|].
constructor; [|apply IH].
intros Hin. apply dedupe_elem in Hin as (_ & Hk & _).
apply Hk. by left.
Qed.

(** The kept lines stand in the order of their first occurrences. *)
Lemma dedupe_order (seen l k1 k2 : list text) (a b : text) :
dedupe seen l = k1 ++ a :: k2 -> (b ∈ k2) ->
exists l1 l2, l = l1 ++ a :: l2 /\ (b ∉ l1) /\ b ∈ l2.
Proof.
revert seen k1. induction l as [|s l IH]; intros seen k1 Hd Hb.
- by destruct k1.
- simpl in Hd.
destruct (is_empty (line_key s) || mem (line_key s) seen) eqn:E.
+ assert (Hbd : b ∈ dedupe seen l).
  { rewrite Hd. apply elem_of_app. right. by right. }
  apply dedupe_elem in Hbd as (_ & Hk & Hne).
  destruct (IH _ _ Hd Hb) as (l1 & l2 & -> & H1 & H2).
  exists (s :: l1), l2. split; [reflexivity|]. split; [|done].
  intros Hin. apply elem_of_cons in Hin as [->|Hin]; [|done].
  apply orb_true_iff in E as [E|E].
  * by destruct (line_key s).
  * apply Hk. unfold mem in E. by apply bool_decide_eq_true in E.
+ destruct k1 as [|x k1]; simpl in Hd; injection Hd as -> Hd.
  * exists [], l. split; [reflexivity|].
    split; [apply not_elem_of_nil|].
    assert (Hbd : b ∈ dedupe (line_key a :: seen) l) by by rewrite Hd.
    by apply dedupe_elem in Hbd as (? & _).
  * assert (Hbd : b ∈ dedupe (line_key x :: seen) l).
    { rewrite Hd. apply elem_of_app. right. by right. }
    apply dedupe_elem in Hbd as (_ & Hk & _).
    destruct (IH _ _ Hd Hb) as (l1 & l2 & -> & H1 & H2).
    exists (x :: l1), l2. split; [reflexivity|]. split; [|done].
    intros Hin. apply elem_of_cons in Hin as [->|Hin]; [|done].
    apply Hk. by left.
Qed.

(** The loop keeps a prefix of the first occurrences. *)
Lemma rank_loop_take (max_lines : Z) (seen ranked l : list text) :
exists n, rank_loop max_lines seen ranked l
        = ranked ++ take n (dedupe seen l).
Proof.
revert seen ranked. induction l as [|s l IH]; intros seen ranked.
- exists 0%nat. simpl. by rewrite app_nil_r.
- cbn [rank_loop dedupe]. fold (line_key s).
destruct (is_empty (line_key s) || mem (line_key s) seen); [apply IH|].
destruct (max_lines <=? len (ranked ++ [s])).
+ exists 1%nat. reflexivity.
+ destruct (IH (line_key s :: seen) (ranked ++ [s])) as [n Hn].
  exists (S n). rewrite Hn. by rewrite <- app_assoc.
Qed.

Example condense_dedupes :
_condense_ctx (u "red mug")
(u "[Category: home]" ++ nl ++ u "- Red Mug" ++ nl ++ u "- red mug") 10
= u "- Red Mug".
Proof. vm_compute. reflexivity. Qed.

Example condense_ranks :
_condense_ctx (u "red ceramic mug")
(u "- Blue glass cup" ++ nl ++ u "- Steel bottle" ++ nl
 ++ u "- Red mug" ++ nl ++ u "- Red ceramic mug") 3
= u "- Red ceramic mug" ++ nl ++ u "- Red mug" ++ nl ++ u "- Blue glass cup".
Proof. vm_compute. reflexivity. Qed.

(** C7: the ranking is stable under score ties.  The condensed output
lists the ranked lines, no line twice; and whenever a line [a] stands
before a line [b] of equal score in it, [a] occurs in the input block
before the first occurrence of [b]. *)
Theorem C7_ranker_stable (prompt ctx : text) (max_lines : Z) (a b : text) :
let lines := candidate_lines ctx in
let out := ranked_lines prompt lines max_lines in
[a; b] `sublist_of` out ->
score (query_tokens prompt) a = score (query_tokens prompt) b ->
_condense_ctx prompt ctx max_lines
= join nl (map (fun s => u "- " ++ s) out)
/\ NoDup out
/\ exists m1 m2, lines = m1 ++ a :: m2 /\ (b ∉ m1) /\ b ∈ m2.
Proof.
intros lines out Hsub Hscore.
destruct (rank_loop_take max_lines [] []
          (sorted_desc (score (query_tokens prompt)) lines)) as [n Hn].
change (rank_loop max_lines [] [] _) with out in Hn. simpl in Hn.
assert (Hlines : lines <> []).
{ intros E. unfold out, ranked_lines in Hsub. rewrite E in Hsub.
simpl in Hsub. by apply sublist_nil_r in Hsub. }
split; [|split].
- unfold _condense_ctx. fold lines.
destruct ctx as [|c ctx]; [done|]. cbn [is_empty].
by destruct lines.
- rewrite Hn. eapply sublist_NoDup; [apply dedupe_NoDup|].
apply sublist_take.
- assert (Hd : [a; b] `sublist_of`
             dedupe [] (sorted_desc (score (query_tokens prompt)) lines)).
{ etransitivity; [exact Hsub|]. rewrite Hn. apply sublist_take. }
apply sublist_cons_l in Hd as (k1 & k2 & Hk & Hb).
apply sublist_cons_l in Hb as (k3 & k4 & -> & _).
assert (Hbk : b ∈ k3 ++ b :: k4).
{ apply elem_of_app. right. by left. }
destruct (dedupe_order _ _ _ _ _ _ Hk Hbk) as (l1 & l2 & Hs & H1 & H2).
exact (sorted_desc_order _ _ _ _ _ _ Hs Hscore H1 H2).
Qed.

Lemma C7_ranker_stable_witness :
exists m1 m2,
candidate_lines (u "- Blue glass cup" ++ nl ++ u "- Steel bottle")
= m1 ++ u "Blue glass cup" :: m2
/\ (u "Steel bottle" ∉ m1) /\ u "Steel bottle" ∈ m2.
Proof.
assert (Hsub : [u "Blue glass cup"; u "Steel bottle"] `sublist_of`
             ranked_lines (u "red ceramic mug")
               (candidate_lines
                  (u "- Blue glass cup" ++ nl ++ u "- Steel bottle")) 10).
{ vm_compute. reflexivity. }
assert (Hscore : score (query_tokens (u "red ceramic mug"))
                     (u "Blue glass cup")
               = score (query_tokens (u "red ceramic mug"))
                       (u "Steel bottle")).
{ vm_compute. reflexivity. }
exact (proj2 (proj2 (C7_ranker_stable _ _ _ _ _ Hsub Hscore))).
Defined.

End ContextRanker.

(** ** More facts about trimming *)

Lemma lstrip_suffix (s : text) :
  exists ws, s = ws ++ lstrip s /\ Forall (fun c => isspace c = true) ws.
Proof.
  induction s as [|c s (ws & Hs & Hws)]; [by exists []|].
  simpl. destruct (isspace c) eqn:Hc.
  - exists (c :: ws). split; [by rewrite Hs at 1|by constructor].
  - by exists [].
Qed.

Lemma lstrip_head (s : text) (c : N) :
  head (lstrip s) = Some c -> isspace c = false.
Proof.
  induction s as [|d s IH]; simpl; [discriminate|].
  destruct (isspace d) eqn:Hd; [exact IH|].
  simpl. by intros [= <-].
Qed.

Lemma rstrip_prefix (s : text) :
  exists ws, s = rstrip s ++ ws /\ Forall (fun c => isspace c = true) ws.
Proof.
  destruct (lstrip_suffix (rev s)) as (ws & Hs & Hws).
  exists (rev ws). split.
  - unfold rstrip. rewrite <- rev_app_distr, <- Hs. by rewrite rev_involutive.
  - rewrite Forall_forall in *. intros c Hc. apply Hws.
    apply list_elem_of_In. apply list_elem_of_In in Hc. by apply in_rev.
Qed.

Lemma rstrip_last (s : text) (c : N) :
  last (rstrip s) = Some c -> isspace c = false.
Proof.
  unfold rstrip. rewrite <- head_rev, rev_involutive. apply lstrip_head.
Qed.

(** A text is its trimmed form between two runs of whitespace. *)
Lemma strip_decompose (s : text) :
  exists l r, s = l ++ strip s ++ r
              /\ Forall (fun c => isspace c = true) l
              /\ Forall (fun c => isspace c = true) r.
Proof.
  destruct (lstrip_suffix s) as (l & Hl & Hlw).
  destruct (rstrip_prefix (lstrip s)) as (r & Hr & Hrw).
  exists l, r. unfold strip. by rewrite <- Hr.
Qed.

Lemma strip_ends_clean (s : text) : ends_clean (strip s).
Proof.
  split; intros c Hc; [|by apply (rstrip_last (lstrip s))].
  unfold strip in Hc.
  destruct (rstrip_prefix (lstrip s)) as (ws & Hs & _).
  destruct (rstrip (lstrip s)) as [|d t] eqn:E; [discriminate|].
  simpl in Hc. injection Hc as ->.
  apply (lstrip_head s). by rewrite Hs.
Qed.

Lemma strip_idempotent (s : text) : strip (strip s) = strip s.
Proof. apply strip_id, strip_ends_clean. Qed.

Lemma lstrip_spaces (s : text) :
  Forall (fun c => isspace c = true) s -> lstrip s = [].
Proof.
  induction 1 as [|c s Hc _ IH]; [reflexivity|]. simpl. by rewrite Hc.
Qed.

Lemma strip_nil_iff (s : text) :
  strip s = [] <-> Forall (fun c => isspace c = true) s.
Proof.
  split.
  - intros H. destruct (strip_decompose s) as (l & r & Hs & Hl & Hr).
    rewrite H in Hs. rewrite Hs. simpl. by apply Forall_app.
  - intros H. unfold strip. by rewrite (lstrip_spaces _ H).
Qed.

Lemma strip_length (s : text) : (length (strip s) <= length s)%nat.
Proof.
  destruct (strip_decompose s) as (l & r & Hs & _).
  rewrite Hs at 2. rewrite !length_app. lia.
Qed.

(** ** OutputFormatValidator: trimming *)

(** Validation looks at the trimmed text only. *)
Theorem valid_format_strip (t mode : text) :
  Agent._is_valid_format (strip t) mode = Agent._is_valid_format t mode.
Proof. unfold Agent._is_valid_format. by rewrite strip_idempotent. Qed.

(** A text of whitespace only is invalid in every mode. *)
Theorem valid_format_blank (t mode : text) :
  Forall (fun c => isspace c = true) t ->
  Agent._is_valid_format t mode = false.
Proof.
  intros H. unfold Agent._is_valid_format.
  by rewrite (proj2 (strip_nil_iff t) H).
Qed.

Lemma valid_format_blank_witness :
  Agent._is_valid_format (u "  " ++ nl) Agent._MODE_FULL = false.
Proof.
  apply valid_format_blank. vm_compute. repeat constructor.
Defined.

(** ** AgentPipeline: every way a run can end *)

Section AgentPipelineOutcomes.
Import Agent Pipeline Notions.

Context {World : Type}.
Variable MAX_PROMPT_CHARS : Z.
Variable retrieve_examples :
text -> text -> World -> (exn + option text * RetrievalTrace) * World.
Variable llm_generate_ad :
text -> text -> World -> (exn + option text * pyval) * World.

Local Abbreviation run_with repair :=
(run_agent repair MAX_PROMPT_CHARS retrieve_examples llm_generate_ad).

Ltac open_run :=
unfold run_agent, run_body;
cbv beta iota zeta delta
[bind ret append call_retriever call_llm _repair_format
 st_steps st_calls st_world].

Ltac read_result :=
cbv beta iota delta [steps status error response st_calls st_world];
cbn [fst snd app map modules module_of step last composed_modules length].

(** The guards: an empty or oversized request ends the run with an error
after the InputGuard step, before any collaborator is called. *)
Theorem run_guard_rejects (repair : bool) (user_prompt : option text)
(category_filter : text) (w : World) :
let prompt := strip (or_empty user_prompt) in
guards_pass MAX_PROMPT_CHARS prompt = false ->
let out := run_with repair user_prompt category_filter w in
status out.1 = u "error"
/\ error out.1
 = Some (if is_empty prompt then u "Empty prompt" else u "Prompt too long")
/\ response out.1 = None
/\ modules (steps out.1) = [u "InputGuard"]
/\ st_calls out.2 = []
/\ st_world out.2 = w.
Proof.
intros prompt Hguard. cbv zeta. unfold guards_pass in Hguard.
open_run. fold prompt.
destruct (is_empty prompt).
- read_result. repeat split; reflexivity.
- cbn [negb andb] in Hguard. apply negb_false_iff in Hguard.
rewrite Hguard. read_result. repeat split; reflexivity.
Qed.

(** The intent guard: a free-form request that the gate stops is answered
with the clarification text, status ok, after two steps and without
any collaborator call. *)
Theorem run_clarifies (repair : bool) (user_prompt : option text)
(category_filter : text) (w : World) :
let prompt := strip (or_empty user_prompt) in
guards_pass MAX_PROMPT_CHARS prompt = true ->
proceeds prompt = false ->
let out := run_with repair user_prompt category_filter w in
status out.1 = u "ok"
/\ error out.1 = None
/\ response out.1
 = Some (_clarification_response (_should_clarify prompt).2)
/\ modules (steps out.1) = [u "InputGuard"; u "IntentGuard"]
/\ st_calls out.2 = []
/\ st_world out.2 = w.
Proof.
intros prompt Hguard Hstop. cbv zeta.
unfold guards_pass in Hguard. apply andb_prop in Hguard as [Hne Hlen].
apply negb_true_iff in Hne, Hlen.
unfold proceeds, from_wizard in Hstop.
apply orb_false_iff in Hstop as [Hw Hc]. apply negb_false_iff in Hc.
open_run. fold prompt. rewrite Hne, Hlen, Hw.
destruct (_should_clarify prompt) as [c r]. simpl in Hc. subst c.
cbv beta iota. read_result. repeat split; reflexivity.
Qed.

(** A failing retrieval ends the run with an error that names the
exception; the two guard steps stay in the trace and the generator is
never called. *)
Theorem run_retrieval_fails (repair : bool) (user_prompt : option text)
(category_filter : text) (w : World) kind msg w1 :
let prompt := strip (or_empty user_prompt) in
guards_pass MAX_PROMPT_CHARS prompt = true ->
proceeds prompt = true ->
retrieve_examples (_rewrite_query prompt) category_filter w
= (inl (Exn kind msg), w1) ->
let out := run_with repair user_prompt category_filter w in
status out.1 = u "error"
/\ error out.1 = Some (kind ++ u ": " ++ msg)
/\ response out.1 = None
/\ modules (steps out.1) = [u "InputGuard"; u "IntentGuard"]
/\ st_calls out.2 = [].
Proof.
intros prompt Hguard Hproceed Hretr. cbv zeta.
unfold guards_pass in Hguard. apply andb_prop in Hguard as [Hne Hlen].
apply negb_true_iff in Hne, Hlen.
unfold proceeds, from_wizard in Hproceed.
open_run. fold prompt. rewrite Hne, Hlen.
destruct (_should_clarify prompt) as [c r].
set (fw := contains (u "RAG Category Filter:") prompt
         || contains (u "Category:") prompt
         || contains (u "Task:") prompt) in *.
assert (Hc : (if fw then (false, []) else (c, r))
           = (false, if fw then [] else r)).
{ destruct fw; [reflexivity|].
simpl in Hproceed. apply negb_true_iff in Hproceed. by subst. }
rewrite Hc. cbv beta iota. rewrite Hretr. cbv beta iota.
read_result. repeat split; reflexivity.
Qed.

(** A failing draft generation ends the run with an error that names the
exception; the three steps appended so far stay in the trace, and the
generator was called once. *)
Theorem run_generation_fails (repair : bool) (user_prompt : option text)
(category_filter : text) (w : World) ctx trace w1 kind msg w2 :
let prompt := strip (or_empty user_prompt) in
guards_pass MAX_PROMPT_CHARS prompt = true ->
proceeds prompt = true ->
retrieve_examples (_rewrite_query prompt) category_filter w
= (inr (ctx, trace), w1) ->
llm_generate_ad (draft_messages prompt ctx).1
              (draft_messages prompt ctx).2 w1
= (inl (Exn kind msg), w2) ->
let out := run_with repair user_prompt category_filter w in
status out.1 = u "error"
/\ error out.1 = Some (kind ++ u ": " ++ msg)
/\ response out.1 = None
/\ modules (steps out.1)
 = [u "InputGuard"; u "IntentGuard"; u "AmazonInspirationRetriever"]
/\ st_calls out.2 = [draft_messages prompt ctx].
Proof.
intros prompt Hguard Hproceed Hretr Hgen. cbv zeta.
unfold guards_pass in Hguard. apply andb_prop in Hguard as [Hne Hlen].
apply negb_true_iff in Hne, Hlen.
unfold proceeds, from_wizard in Hproceed.
unfold draft_messages in *.
open_run. fold prompt. rewrite Hne, Hlen.
destruct (_should_clarify prompt) as [c r].
set (fw := contains (u "RAG Category Filter:") prompt
         || contains (u "Category:") prompt
         || contains (u "Task:") prompt) in *.
assert (Hc : (if fw then (false, []) else (c, r))
           = (false, if fw then [] else r)).
{ destruct fw; [reflexivity|].
simpl in Hproceed. apply negb_true_iff in Hproceed. by subst. }
rewrite Hc. cbv beta iota. rewrite Hretr. cbv beta iota.
destruct (_build_messages prompt _ _ _) as [sys usr].
cbn [fst snd] in Hgen. cbv beta iota. rewrite Hgen. cbv beta iota.
read_result. repeat split; reflexivity.
Qed.

(** A failing repair call ends the run with an error that names the
exception; the four steps appended so far stay in the trace. *)
Theorem run_repair_fails (user_prompt : option text)
(category_filter : text) (w : World) ctx trace w1 llm_text meta w2
kind msg w3 :
let prompt := strip (or_empty user_prompt) in
let mode := _detect_mode prompt in
let draft := strip (or_empty llm_text) in
let rm := repair_messages prompt draft mode in
guards_pass MAX_PROMPT_CHARS prompt = true ->
proceeds prompt = true ->
retrieve_examples (_rewrite_query prompt) category_filter w
= (inr (ctx, trace), w1) ->
llm_generate_ad (draft_messages prompt ctx).1
              (draft_messages prompt ctx).2 w1
= (inr (llm_text, meta), w2) ->
_is_valid_format draft mode = false ->
llm_generate_ad rm.1 rm.2 w2 = (inl (Exn kind msg), w3) ->
let out := run_with true user_prompt category_filter w in
status out.1 = u "error"
/\ error out.1 = Some (kind ++ u ": " ++ msg)
/\ response out.1 = None
/\ modules (steps out.1)
 = [ u "InputGuard"; u "IntentGuard"; u "AmazonInspirationRetriever";
     u "AdCopyWriter" ]
/\ st_calls out.2 = [draft_messages prompt ctx; rm].
Proof.
intros prompt mode draft rm Hguard Hproceed Hretr Hgen Hbad Hfix out.
pose proof (run_completed MAX_PROMPT_CHARS retrieve_examples
            llm_generate_ad true user_prompt category_filter w
            ctx trace w1 llm_text meta w2
            Hguard Hproceed Hretr Hgen) as H.
cbv zeta in H. fold prompt mode draft rm out in H.
rewrite Hbad in H. cbn [andb negb] in H. rewrite Hfix in H. exact H.
Qed.

(** A successful repair replaces the draft: the response is the repaired
text, trimmed, and the last step reports [repaired: true] and
[format_valid: true]. *)
Theorem run_repair_succeeds (user_prompt : option text)
(category_filter : text) (w : World) ctx trace w1 llm_text meta w2
fixed meta2 w3 :
let prompt := strip (or_empty user_prompt) in
let mode := _detect_mode prompt in
let draft := strip (or_empty llm_text) in
let rm := repair_messages prompt draft mode in
guards_pass MAX_PROMPT_CHARS prompt = true ->
proceeds prompt = true ->
retrieve_examples (_rewrite_query prompt) category_filter w
= (inr (ctx, trace), w1) ->
llm_generate_ad (draft_messages prompt ctx).1
              (draft_messages prompt ctx).2 w1
= (inr (llm_text, meta), w2) ->
_is_valid_format draft mode = false ->
llm_generate_ad rm.1 rm.2 w2 = (inr (fixed, meta2), w3) ->
_is_valid_format (or_empty fixed) mode = true ->
let out := run_with true user_prompt category_filter w in
status out.1 = u "ok"
/\ error out.1 = None
/\ response out.1 = Some (strip (or_empty fixed))
/\ last (steps out.1) = Some (composer_step true mode true)
/\ modules (steps out.1) = composed_modules true.
Proof.
intros prompt mode draft rm Hguard Hproceed Hretr Hgen Hbad Hfix Hok out.
pose proof (run_completed MAX_PROMPT_CHARS retrieve_examples
            llm_generate_ad true user_prompt category_filter w
            ctx trace w1 llm_text meta w2
            Hguard Hproceed Hretr Hgen) as H.
cbv zeta in H. fold prompt mode draft rm out in H.
rewrite Hbad in H. cbn [andb negb] in H. rewrite Hfix, Hok in H.
rewrite valid_format_strip, Hok in H.
destruct H as (? & ? & ? & ? & ? & _). auto.
Qed.

(** With repair disabled a completed run calls the generator once and
returns the trimmed draft with status ok, valid or not; the last step
reports the validity of the draft. *)
Theorem run_without_repair (user_prompt : option text)
(category_filter : text) (w : World) ctx trace w1 llm_text meta w2 :
let prompt := strip (or_empty user_prompt) in
let mode := _detect_mode prompt in
let draft := strip (or_empty llm_text) in
guards_pass MAX_PROMPT_CHARS prompt = true ->
proceeds prompt = true ->
retrieve_examples (_rewrite_query prompt) category_filter w
= (inr (ctx, trace), w1) ->
llm_generate_ad (draft_messages prompt ctx).1
              (draft_messages prompt ctx).2 w1
= (inr (llm_text, meta), w2) ->
let out := run_with false user_prompt category_filter w in
status out.1 = u "ok"
/\ error out.1 = None
/\ response out.1 = Some draft
/\ last (steps out.1)
 = Some (composer_step false mode (_is_valid_format draft mode))
/\ st_calls out.2 = [draft_messages prompt ctx]
/\ st_world out.2 = w2.
Proof.
intros prompt mode draft Hguard Hproceed Hretr Hgen out.
pose proof (run_completed MAX_PROMPT_CHARS retrieve_examples
            llm_generate_ad false user_prompt category_filter w
            ctx trace w1 llm_text meta w2
            Hguard Hproceed Hretr Hgen) as H.
cbv zeta in H. fold prompt mode draft out in H. cbn [andb] in H.
destruct H as (? & ? & ? & _ & ? & ?). repeat split; try assumption.
clear -Hguard Hproceed Hretr Hgen.
unfold guards_pass in Hguard. apply andb_prop in Hguard as [Hne Hlen].
apply negb_true_iff in Hne, Hlen.
unfold proceeds, from_wizard in Hproceed.
unfold draft_messages in *. subst out.
open_run. fold prompt. rewrite Hne, Hlen.
destruct (_should_clarify prompt) as [c r].
set (fw := contains (u "RAG Category Filter:") prompt
         || contains (u "Category:") prompt
         || contains (u "Task:") prompt) in *.
assert (Hc : (if fw then (false, []) else (c, r))
           = (false, if fw then [] else r)).
{ destruct fw; [reflexivity|].
simpl in Hproceed. apply negb_true_iff in Hproceed. by subst. }
rewrite Hc. cbv beta iota. rewrite Hretr. cbv beta iota.
destruct (_build_messages prompt _ _ _) as [sys usr].
cbn [fst snd] in Hgen. cbv beta iota. rewrite Hgen. cbv beta iota.
cbn [andb]. cbv beta iota. reflexivity.
Qed.

Lemma summary_eq (r : result) (calls cs : list (text * text))
(s : text) (e p : option text) (ms : list text) :
status r = s -> error r = e -> response r = p ->
modules (steps r) = ms -> calls = cs ->
summary r calls
= (s, bool_decide (is_Some e), bool_decide (is_Some p), ms, length cs).
Proof. by intros <- <- <- <- <-. Qed.

(** Every run ends in one of seven ways (five when repair is disabled). *)
Lemma run_cases (repair : bool) (user_prompt : option text)
(category_filter : text) (w : World) :
let out := run_with repair user_prompt category_filter w in
In (summary out.1 (st_calls out.2)) (run_endings repair).
Proof.
cbv zeta. set (prompt := strip (or_empty user_prompt)).
destruct (guards_pass MAX_PROMPT_CHARS prompt) eqn:Hguard.
2:{ destruct (run_guard_rejects repair user_prompt category_filter w Hguard)
    as (H1 & H2 & H3 & H4 & H5 & _).
  rewrite (summary_eq _ _ _ _ _ _ _ H1 H2 H3 H4 H5).
  left. by destruct (is_empty _). }
destruct (proceeds prompt) eqn:Hproceed.
2:{ destruct (run_clarifies repair user_prompt category_filter w
              Hguard Hproceed) as (H1 & H2 & H3 & H4 & H5 & _).
  rewrite (summary_eq _ _ _ _ _ _ _ H1 H2 H3 H4 H5).
  right. by left. }
destruct (retrieve_examples (_rewrite_query prompt) category_filter w)
as [[[k m]|[ctx trace]] w1] eqn:Hretr.
{ destruct (run_retrieval_fails repair user_prompt category_filter w
            k m w1 Hguard Hproceed Hretr) as (H1 & H2 & H3 & H4 & H5).
rewrite (summary_eq _ _ _ _ _ _ _ H1 H2 H3 H4 H5).
do 2 right. by left. }
destruct (llm_generate_ad (draft_messages prompt ctx).1
                        (draft_messages prompt ctx).2 w1)
as [[[k m]|[llm_text meta]] w2] eqn:Hgen.
{ destruct (run_generation_fails repair user_prompt category_filter w
            ctx trace w1 k m w2 Hguard Hproceed Hretr Hgen)
  as (H1 & H2 & H3 & H4 & H5).
rewrite (summary_eq _ _ _ _ _ _ _ H1 H2 H3 H4 H5).
do 3 right. by left. }
pose proof (run_completed MAX_PROMPT_CHARS retrieve_examples
            llm_generate_ad repair user_prompt category_filter w
            ctx trace w1 llm_text meta w2
            Hguard Hproceed Hretr Hgen) as H.
cbv zeta in H. fold prompt in H.
destruct (repair && negb _) eqn:Hissue.
- apply andb_prop in Hissue as [-> _].
destruct (llm_generate_ad _ _ w2) as [[[k m]|[fixed meta2]] w3].
+ destruct H as (H1 & H2 & H3 & H4 & H5).
  rewrite (summary_eq _ _ _ _ _ _ _ H1 H2 H3 H4 H5).
  do 5 right. by left.
+ destruct H as (H1 & H2 & H3 & H4 & _ & H5).
  rewrite (summary_eq _ _ _ _ _ _ _ H1 H2 H3 H4 H5).
  do 6 right. by left.
- destruct H as (H1 & H2 & H3 & H4 & _ & H5).
rewrite (summary_eq _ _ _ _ _ _ _ H1 H2 H3 H4 H5).
do 4 right. by left.
Qed.

Lemma endings_in_bounds (repair : bool) :
forallb (ending_in_bounds repair) (run_endings repair) = true.
Proof. destruct repair; vm_compute; reflexivity. Qed.

Lemma endings_well_shaped (repair : bool) :
forallb ending_well_shaped (run_endings repair) = true.
Proof. destruct repair; vm_compute; reflexivity. Qed.

(** Bounds that hold for every request and every behaviour of the two
collaborators: at most two generator calls, at most one when repair is
disabled, between one and six steps, and a trace whose module names are
the start of the module order of a composed result. *)
Theorem run_bounds (repair : bool) (user_prompt : option text)
(category_filter : text) (w : World) :
let out := run_with repair user_prompt category_filter w in
(length (st_calls out.2) <= 2)%nat
/\ (repair = false -> length (st_calls out.2) <= 1)%nat
/\ (1 <= length (steps out.1) <= 6)%nat
/\ (modules (steps out.1) `prefix_of` composed_modules true
  \/ modules (steps out.1) `prefix_of` composed_modules false).
Proof.
cbv zeta. pose proof (run_cases repair user_prompt category_filter w) as H.
cbv zeta in H.
set (out := run_with repair user_prompt category_filter w) in *.
clearbody out.
pose proof (endings_in_bounds repair) as Hall.
rewrite forallb_forall in Hall. apply Hall in H. clear Hall.
unfold summary, ending_in_bounds in H.
assert (Hlen : length (steps out.1) = length (modules (steps out.1))).
{ unfold modules. by rewrite length_map. }
rewrite Hlen.
repeat (apply andb_prop in H as [H ?]).
repeat match goal with
     | Hb : (_ <=? _)%nat = true |- _ => apply Nat.leb_le in Hb
     end.
split; [assumption|]. split.
- intros ->. match goal with
           | Hb : false || _ = true |- _ =>
               cbn [orb] in Hb; by apply Nat.leb_le in Hb
           end.
- split; [split; assumption|].
match goal with
| Hb : bool_decide _ || bool_decide _ = true |- _ =>
    apply orb_prop in Hb as [Hb|Hb]; apply bool_decide_eq_true in Hb;
    [by left|by right]
end.
Qed.

(** The shape of the returned dictionary: the status is ok or error; an
error text is present exactly when the status is error, and a response
exactly when it is ok. *)
Theorem run_result_shape (repair : bool) (user_prompt : option text)
(category_filter : text) (w : World) :
let r := (run_with repair user_prompt category_filter w).1 in
(status r = u "ok" /\ error r = None /\ is_Some (response r))
\/ (status r = u "error" /\ is_Some (error r) /\ response r = None).
Proof.
cbv zeta. pose proof (run_cases repair user_prompt category_filter w) as H.
cbv zeta in H.
set (out := run_with repair user_prompt category_filter w) in *.
clearbody out. set (r := out.1) in *. clearbody r.
pose proof (endings_well_shaped repair) as Hall.
rewrite forallb_forall in Hall. apply Hall in H. clear Hall.
unfold summary, ending_well_shaped in H.
assert (Hsome : forall x : text, bool_decide (is_Some (Some x)) = true).
{ intros x. apply bool_decide_eq_true. by eexists. }
assert (Hnone : bool_decide (is_Some (@None text)) = false).
{ apply bool_decide_eq_false. by intros [? ?]. }
destruct (error r) as [e|], (response r) as [p|];
rewrite ?Hsome, ?Hnone in H;
cbn [negb andb] in H; rewrite ?andb_false_r in H; cbn [orb] in H;
try discriminate H.
- right. rewrite !andb_true_r in H. apply bool_decide_eq_true in H.
split; [exact H|]. split; [by eexists|reflexivity].
- left. rewrite !andb_true_r, ?orb_false_r in H.
apply bool_decide_eq_true in H.
split; [exact H|]. split; [reflexivity|by eexists].
Qed.

End AgentPipelineOutcomes.

(** ** AgentPipeline: the endings on examples *)

Section AgentPipelineEndings.
Import Agent Pipeline Notions.

Lemma run_guard_rejects_witness :
error (run_agent true 4000 (fixed_retriever example_block)
               (scripted_generator []) (Some (u "   ")) [] 0%nat).1
= Some (u "Empty prompt").
Proof.
assert (Hg : guards_pass 4000 (strip (or_empty (Some (u "   ")))) = false)
by (vm_compute; reflexivity).
destruct (run_guard_rejects 4000 (fixed_retriever example_block)
          (scripted_generator []) true (Some (u "   ")) [] 0%nat Hg)
as (_ & He & _).
rewrite He. vm_compute. reflexivity.
Defined.

Lemma run_clarifies_witness :
modules (steps (run_agent true 4000 (fixed_retriever example_block)
                (scripted_generator [])
                (Some (u "please write something nice")) [] 0%nat).1)
= [u "InputGuard"; u "IntentGuard"].
Proof.
edestruct (run_clarifies 4000 (fixed_retriever example_block)
           (scripted_generator []) true
           (Some (u "please write something nice")) [] 0%nat)
as (_ & _ & _ & Hm & _).
- vm_compute. reflexivity.
- vm_compute. reflexivity.
- rewrite Hm. reflexivity.
Defined.

Lemma run_retrieval_fails_witness :
error (run_agent true 4000
       (raising_retriever (u "RuntimeError") (u "index unreachable"))
       (scripted_generator []) (Some example_request) [] 0%nat).1
= Some (u "RuntimeError: index unreachable").
Proof.
edestruct (run_retrieval_fails 4000
           (raising_retriever (u "RuntimeError") (u "index unreachable"))
           (scripted_generator []) true (Some example_request) [] 0%nat)
as (_ & He & _).
- vm_compute. reflexivity.
- vm_compute. reflexivity.
- reflexivity.
- rewrite He. vm_compute. reflexivity.
Defined.

Lemma run_generation_fails_witness :
length (steps (run_agent true 4000 (fixed_retriever example_block)
               (scripted_generator []) (Some example_request) [] 0%nat).1)
= 3%nat.
Proof.
edestruct (run_generation_fails 4000 (fixed_retriever example_block)
           (scripted_generator []) true (Some example_request) [] 0%nat)
as (_ & _ & _ & Hm & _).
- vm_compute. reflexivity.
- vm_compute. reflexivity.
- reflexivity.
- reflexivity.
- rewrite <- (length_map module_of). fold (modules (steps
  (run_agent true 4000 (fixed_retriever example_block)
     (scripted_generator []) (Some example_request) [] 0%nat).1)).
rewrite Hm. reflexivity.
Defined.

Lemma run_repair_fails_witness :
status (run_agent true 4000 (fixed_retriever example_block)
        (scripted_generator [Some (u "no headline here")])
        (Some example_request) [] 0%nat).1
= u "error".
Proof.
edestruct (run_repair_fails 4000 (fixed_retriever example_block)
           (scripted_generator [Some (u "no headline here")])
           (Some example_request) [] 0%nat)
as (Hs & _).
- vm_compute. reflexivity.
- vm_compute. reflexivity.
- reflexivity.
- reflexivity.
- vm_compute. reflexivity.
- reflexivity.
- rewrite Hs. reflexivity.
Defined.

Lemma run_repair_succeeds_witness :
response (run_agent true 4000 (fixed_retriever example_block)
          (scripted_generator
             [Some (u "no headline here");
              Some (u " Headline: Red ceramic mug" ++ nl)])
          (Some example_request) [] 0%nat).1
= Some (u "Headline: Red ceramic mug").
Proof.
edestruct (run_repair_succeeds 4000 (fixed_retriever example_block)
           (scripted_generator
              [Some (u "no headline here");
               Some (u " Headline: Red ceramic mug" ++ nl)])
           (Some example_request) [] 0%nat)
as (_ & _ & Hr & _).
- vm_compute. reflexivity.
- vm_compute. reflexivity.
- reflexivity.
- reflexivity.
- vm_compute. reflexivity.
- reflexivity.
- vm_compute. reflexivity.
- rewrite Hr. vm_compute. reflexivity.
Defined.

Lemma run_without_repair_witness :
response (run_agent false 4000 (fixed_retriever example_block)
          (scripted_generator [Some (u "no headline here")])
          (Some example_request) [] 0%nat).1
= Some (u "no headline here").
Proof.
edestruct (run_without_repair 4000 (fixed_retriever example_block)
           (scripted_generator [Some (u "no headline here")])
           (Some example_request) [] 0%nat)
as (_ & _ & Hr & _).
- vm_compute. reflexivity.
- vm_compute. reflexivity.
- reflexivity.
- reflexivity.
- rewrite Hr. vm_compute. reflexivity.
Defined.

End AgentPipelineEndings.

(** ** ContextRanker: what the condensed block holds *)

Section ContextRankerOutput.
Import Agent Notions.

Lemma sublist_descending {A} (key : A -> nat) (l k : list A) :
l `sublist_of` k -> descending key k -> descending key l.
Proof.
unfold descending. induction 1 as [|x l k Hs IH|x l k Hs IH]; intros Hk.
- constructor.
- inversion Hk as [|? ? Hk' Hx]; subst. constructor; [by apply IH|].
rewrite Forall_forall in *. intros y Hy. apply Hx.
by eapply elem_of_sublist.
- inversion Hk; subst. by apply IH.
Qed.

Lemma dedupe_sublist (seen l : list text) : dedupe seen l `sublist_of` l.
Proof.
revert seen. induction l as [|s l IH]; intros seen; simpl; [done|].
destruct (is_empty (line_key s) || mem (line_key s) seen).
- by apply sublist_cons.
- by apply sublist_skip.
Qed.

Lemma dedupe_keys_NoDup (seen l : list text) :
NoDup (map line_key (dedupe seen l)).
Proof.
revert seen. induction l as [|s l IH]; intros seen; simpl.
- constructor.
- destruct (is_empty (line_key s) || mem (line_key s) seen); [apply IH|].
cbn [map]. constructor; [|apply IH].
intros Hin. apply list_elem_of_In, in_map_iff in Hin as (x & Hx & Hin).
apply list_elem_of_In, dedupe_elem in Hin as (_ & Hk & _).
apply Hk. rewrite Hx. by left.
Qed.

Lemma ranked_lines_take (prompt : text) (lines : list text) (max_lines : Z) :
exists n,
ranked_lines prompt lines max_lines
= take n (dedupe [] (sorted_desc (score (query_tokens prompt)) lines)).
Proof.
destruct (rank_loop_take max_lines [] []
          (sorted_desc (score (query_tokens prompt)) lines)) as [n Hn].
by exists n.
Qed.

Lemma rank_loop_length (max_lines : Z) (seen ranked l : list text) :
len ranked < Z.max 1 max_lines ->
len (rank_loop max_lines seen ranked l) <= Z.max 1 max_lines.
Proof.
revert seen ranked. induction l as [|s l IH]; intros seen ranked Hr.
- simpl. lia.
- cbn [rank_loop].
destruct (is_empty _ || mem _ seen); [by apply IH|].
assert (Hlen : len (ranked ++ [s]) = len ranked + 1).
{ unfold len. rewrite length_app. simpl. lia. }
destruct (Z.leb_spec max_lines (len (ranked ++ [s]))); [lia|].
apply IH. lia.
Qed.

(** The condensed block never has more lines than asked for (and one line
when fewer than one is asked for). *)
Theorem ranked_lines_bound (prompt : text) (lines : list text) (max_lines : Z) :
len (ranked_lines prompt lines max_lines) <= Z.max 1 max_lines.
Proof. apply rank_loop_length. unfold len. simpl. lia. Qed.

(** Every line of the condensed block is a candidate line of the input,
and no two of them agree up to case and surrounding whitespace. *)
Theorem ranked_lines_distinct (prompt : text) (lines : list text)
(max_lines : Z) :
let out := ranked_lines prompt lines max_lines in
(forall s, s ∈ out -> s ∈ lines)
/\ NoDup (map (fun s => strip (lower s)) out).
Proof.
cbv zeta. destruct (ranked_lines_take prompt lines max_lines) as [n ->].
split.
- intros s Hs.
assert (Hd : s ∈ sorted_desc (score (query_tokens prompt)) lines).
{ eapply elem_of_sublist; [|apply dedupe_sublist].
  eapply elem_of_sublist; [exact Hs|apply sublist_take]. }
apply list_elem_of_In. apply list_elem_of_In in Hd.
eapply Permutation_in; [apply sorted_desc_perm|exact Hd].
- change (fun s => strip (lower s)) with line_key.
eapply sublist_NoDup; [apply dedupe_keys_NoDup|].
rewrite <- firstn_map. apply sublist_take.
Qed.

(** The lines of the condensed block stand in order of non-increasing
relevance score. *)
Theorem ranked_lines_descending (prompt : text) (lines : list text)
(max_lines : Z) :
descending (score (query_tokens prompt))
         (ranked_lines prompt lines max_lines).
Proof.
destruct (ranked_lines_take prompt lines max_lines) as [n ->].
eapply sublist_descending; [|apply sorted_desc_descending].
etransitivity; [apply sublist_take|apply dedupe_sublist].
Qed.

End ContextRankerOutput.

(** ** AllowedTermExtractor *)

Section AllowedTermExtractor.
Import Agent Notions.

Lemma sublist_map {A B} (f : A -> B) (l k : list A) :
l `sublist_of` k -> map f l `sublist_of` map f k.
Proof.
induction 1; simpl; [constructor|by apply sublist_skip|by apply sublist_cons].
Qed.

Lemma list_filter_sublist {A} (P : A -> bool) (l : list A) :
List.filter P l `sublist_of` l.
Proof.
induction l as [|x l IH]; simpl; [constructor|].
destruct (P x); [by apply sublist_skip|by apply sublist_cons].
Qed.

Lemma count_add_keys (t : text) (cs : list (text * nat)) (k : text) :
k ∈ map fst (count_add t cs) <-> k = t \/ k ∈ map fst cs.
Proof.
induction cs as [|[k' n] cs IH]; simpl.
- rewrite list_elem_of_singleton. split; [by left|].
intros [->|H]; [done|]. by apply elem_of_nil in H.
- destruct (bool_decide (k' = t)) eqn:E; simpl.
+ apply bool_decide_eq_true in E as ->. rewrite !elem_of_cons. tauto.
+ rewrite !elem_of_cons, IH. tauto.
Qed.

Lemma count_add_NoDup (t : text) (cs : list (text * nat)) :
NoDup (map fst cs) -> NoDup (map fst (count_add t cs)).
Proof.
induction cs as [|[k n] cs IH]; simpl; intros Hnd.
- repeat constructor. apply not_elem_of_nil.
- apply NoDup_cons in Hnd as [Hk Hnd].
destruct (bool_decide (k = t)) eqn:E; simpl.
+ by apply NoDup_cons.
+ apply bool_decide_eq_false in E. apply NoDup_cons. split; [|by apply IH].
  rewrite count_add_keys. intros [->|H]; [done|]. by apply Hk.
Qed.

Lemma count_add_count (t : text) (cs : list (text * nat)) (k : text) :
count_of k (count_add t cs)
= if bool_decide (k = t) then S (count_of k cs) else count_of k cs.
Proof.
induction cs as [|[k' n] cs IH]; simpl.
- destruct (bool_decide (t = k)) eqn:E1, (bool_decide (k = t)) eqn:E2;
  try reflexivity.
+ apply bool_decide_eq_true in E1. apply bool_decide_eq_false in E2.
  by subst.
+ apply bool_decide_eq_false in E1. apply bool_decide_eq_true in E2.
  by subst.
- destruct (bool_decide (k' = t)) eqn:E; simpl.
+ apply bool_decide_eq_true in E as ->.
  destruct (bool_decide (t = k)) eqn:E1, (bool_decide (k = t)) eqn:E2;
    try reflexivity.
  * apply bool_decide_eq_true in E1. apply bool_decide_eq_false in E2.
    by subst.
  * apply bool_decide_eq_false in E1. apply bool_decide_eq_true in E2.
    by subst.
+ destruct (bool_decide (k' = k)) eqn:E1; [|exact IH].
  apply bool_decide_eq_true in E1 as ->.
  apply bool_decide_eq_false in E.
  destruct (bool_decide (k = t)) eqn:E2; [|reflexivity].
  by apply bool_decide_eq_true in E2.
Qed.

Lemma count_of_elem (cs : list (text * nat)) (k : text) (n : nat) :
NoDup (map fst cs) -> (k, n) ∈ cs -> count_of k cs = n.
Proof.
induction cs as [|[k' n'] cs IH]; simpl; intros Hnd Hin.
- by apply elem_of_nil in Hin.
- apply NoDup_cons in Hnd as [Hk Hnd].
apply elem_of_cons in Hin as [[= -> ->]|Hin].
+ by rewrite bool_decide_eq_true_2.
+ destruct (bool_decide (k' = k)) eqn:E; [|by apply IH].
  apply bool_decide_eq_true in E as ->. exfalso. apply Hk.
  apply list_elem_of_In, in_map_iff. exists (k, n).
  split; [reflexivity|by apply list_elem_of_In].
Qed.

(** The counter holds, for every token, the number of its occurrences. *)
Lemma Counter_spec (toks : list text) :
NoDup (map fst (Counter toks))
/\ forall k, count_of k (Counter toks) = occurrences k toks.
Proof.
unfold Counter.
assert (H : forall cs,
NoDup (map fst cs) ->
NoDup (map fst (fold_left (fun cs t => count_add t cs) toks cs))
/\ forall k, count_of k (fold_left (fun cs t => count_add t cs) toks cs)
             = (occurrences k toks + count_of k cs)%nat).
{ induction toks as [|t toks IH]; intros cs Hnd; simpl.
- split; [exact Hnd|reflexivity].
- destruct (IH (count_add t cs) (count_add_NoDup t cs Hnd)) as [H1 H2].
  split; [exact H1|]. intros k. rewrite H2, count_add_count.
  unfold occurrences. cbn [List.filter].
  destruct (bool_decide (t = k)) eqn:E1, (bool_decide (k = t)) eqn:E2;
    simpl; try lia.
  + apply bool_decide_eq_true in E1. apply bool_decide_eq_false in E2.
    by subst.
  + apply bool_decide_eq_false in E1. apply bool_decide_eq_true in E2.
    by subst. }
destruct (H [] (NoDup_nil_2)) as [H1 H2]. split; [exact H1|].
intros k. rewrite H2. simpl. lia.
Qed.

Example allowed_terms_example :
_extract_allowed_terms
(u "- Red ceramic mug, ceramic glaze" ++ nl ++ u "- Red mug for tea") 12
= [u "red"; u "ceramic"; u "mug"].
Proof. vm_compute. reflexivity. Qed.

(** The allowed terms: at most [max_terms] of them, no term twice, no
stopword, and every term occurs at least twice among the tokens of the
condensed context. *)
Theorem allowed_terms_frequent (condensed_ctx : text) (max_terms : nat) :
let terms := _extract_allowed_terms condensed_ctx max_terms in
(length terms <= max_terms)%nat
/\ NoDup terms
/\ forall t, t ∈ terms ->
   (2 <= occurrences t (counted_tokens condensed_ctx))%nat
   /\ mem t _STOPWORDS = false.
Proof.
cbv zeta. unfold _extract_allowed_terms.
destruct (is_empty condensed_ctx).
{ split; [simpl; lia|]. split; [constructor|].
intros t Ht. by apply elem_of_nil in Ht. }
fold (counted_tokens condensed_ctx).
set (toks := counted_tokens condensed_ctx).
destruct (Counter_spec toks) as [Hnd Hcount].
set (common := map fst (List.filter (fun wc => (2 <=? wc.2)%nat)
                        (most_common 80 (Counter toks)))).
assert (Hsub : List.filter (fun wc => (2 <=? wc.2)%nat)
               (most_common 80 (Counter toks))
             ⊆ Counter toks).
{ intros wc Hwc. apply list_elem_of_In, filter_In in Hwc as [Hwc _].
unfold most_common in Hwc. apply list_elem_of_In in Hwc.
assert (Hwc' : wc ∈ sorted_desc snd (Counter toks)).
{ eapply elem_of_sublist; [exact Hwc|apply sublist_take]. }
apply list_elem_of_In. apply list_elem_of_In in Hwc'.
eapply Permutation_in; [apply sorted_desc_perm|exact Hwc']. }
assert (Hcommon_nd : NoDup common).
{ unfold common, most_common.
assert (Hp : Permutation (map fst (sorted_desc snd (Counter toks)))
                         (map fst (Counter toks)))
  by apply Permutation_map, sorted_desc_perm.
apply (sublist_NoDup _ (map fst (sorted_desc snd (Counter toks))));
  [by rewrite Hp|].
apply sublist_map.
etransitivity; [apply list_filter_sublist|apply sublist_take]. }
split; [rewrite length_take; lia|].
split; [eapply sublist_NoDup; [exact Hcommon_nd|apply sublist_take]|].
intros t Ht.
assert (Ht' : t ∈ common).
{ eapply elem_of_sublist; [exact Ht|apply sublist_take]. }
apply list_elem_of_In, in_map_iff in Ht' as ([t' n] & Heq & Hin).
simpl in Heq. subst t'.
apply filter_In in Hin as [Hin Hn]. cbn [snd] in Hn.
apply Nat.leb_le in Hn.
assert (Hc : (t, n) ∈ Counter toks).
{ apply Hsub. apply list_elem_of_In, filter_In. split; [exact Hin|].
by apply Nat.leb_le. }
pose proof (count_of_elem _ _ _ Hnd Hc) as Hcn. rewrite Hcount in Hcn.
split; [lia|].
assert (Hocc : (0 < occurrences t toks)%nat) by lia.
unfold occurrences in Hocc.
destruct (List.filter (fun x => bool_decide (x = t)) toks) as [|x r] eqn:E;
[simpl in Hocc; lia|].
assert (Hx : In x (List.filter (fun x => bool_decide (x = t)) toks))
by (rewrite E; by left).
apply filter_In in Hx as [Hx Hxt]. apply bool_decide_eq_true in Hxt. subst x.
unfold toks, counted_tokens in Hx. apply filter_In in Hx as [_ Hx].
by apply negb_true_iff in Hx.
Qed.

End AllowedTermExtractor.

(** ** QueryRewriter: every request *)

Section QueryRewriterAll.
Import Agent Notions.

Example rewrite_free_form :
_rewrite_query (u "Please write an ad for a RED ceramic mug, 350ml")
= u "red ceramic mug 350ml".
Proof. vm_compute. reflexivity. Qed.

Example rewrite_no_token : _rewrite_query (u "an ad!") = u "an ad!".
Proof. vm_compute. reflexivity. Qed.

Lemma rewritten_tokens_spec (prompt : text) :
Forall (fun t => (t <> [] /\ Forall (fun c => is_lower_alnum c = true) t)
               /\ significant t = true)
     (rewritten_tokens prompt).
Proof.
unfold rewritten_tokens. destruct (scan_parts prompt) as [c p].
apply Forall_take. rewrite Forall_forall. intros t Ht.
apply list_elem_of_In, filter_In in Ht as [Ht Hsig]. split; [|exact Hsig].
pose proof (findall_alnum_spec
            (if negb (is_empty c) && negb (is_empty p)
             then lower (u "category " ++ c ++ u " " ++ p)
             else lower prompt)) as H.
rewrite Forall_forall in H. by apply H, list_elem_of_In.
Qed.

(** The rewritten query of any request: at most 12 tokens are kept, each
a run of lowercase ASCII letters and digits of length at least 3
outside the stopword set; the query is these tokens joined by single
spaces, or the raw request when no token is kept. *)
Theorem rewrite_query_shape (prompt : text) :
let toks := rewritten_tokens prompt in
(length toks <= 12)%nat
/\ Forall (fun t => Forall (fun c => is_lower_alnum c = true) t
                  /\ 3 <= len t /\ mem t _STOPWORDS = false) toks
/\ _rewrite_query prompt
 = match toks with [] => prompt | _ => join (u " ") toks end.
Proof.
intros toks. pose proof (rewritten_tokens_spec prompt) as Hspec.
fold toks in Hspec. split; [|split].
- unfold toks, rewritten_tokens. destruct (scan_parts prompt).
rewrite length_take. lia.
- eapply Forall_impl; [exact Hspec|].
intros t ((_ & Hall) & Hsig).
unfold significant in Hsig. apply andb_prop in Hsig as [Hlen Hstop].
apply Z.leb_le in Hlen. apply negb_true_iff in Hstop. auto.
- unfold _rewrite_query. unfold toks, rewritten_tokens in *.
destruct (scan_parts prompt) as [c p].
set (kept := take 12 (List.filter significant (findall_alnum _))) in *.
destruct kept as [|t r] eqn:E; [reflexivity|].
destruct (join_clean (u " ") (t :: r)) as [Hne Hends]; [discriminate| |].
+ eapply Forall_impl; [exact Hspec|].
  intros x (Hx & _). by apply alnum_token_clean.
+ rewrite (strip_id _ Hends). by destruct (join (u " ") (t :: r)).
Qed.

(** The rewriter never turns a non-empty request into an empty query. *)
Theorem rewrite_query_nonempty (prompt : text) :
_rewrite_query prompt = [] <-> prompt = [].
Proof.
destruct (rewrite_query_shape prompt) as (_ & Hall & ->).
destruct (rewritten_tokens prompt) as [|t r] eqn:E; [reflexivity|].
pose proof (rewritten_tokens_spec prompt) as Hspec. rewrite E in Hspec.
destruct (join_clean (u " ") (t :: r)) as [Hne _]; [discriminate| |].
- eapply Forall_impl; [exact Hspec|].
intros x (Hx & _). by apply alnum_token_clean.
- split; [done|]. intros ->. exfalso.
unfold rewritten_tokens in E. vm_compute in E. discriminate.
Qed.

End QueryRewriterAll.

(** ** ClarificationGate and ModeDetector: edge behaviour *)

Section GateAndModeEdges.
Import Agent Notions.

(** A request of whitespace only is stopped as empty, and a request of
fewer than 12 characters after trimming as too short, whatever it
says. *)
Theorem clarify_blank_or_short (prompt : text) :
(Forall (fun c => isspace c = true) prompt ->
 _should_clarify prompt = (true, u "empty"))
/\ (strip prompt <> [] -> len (strip prompt) < 12 ->
  _should_clarify prompt = (true, u "too_short")).
Proof.
split.
- intros H. unfold _should_clarify.
by rewrite (proj2 (strip_nil_iff prompt) H).
- intros Hne Hlen. unfold _should_clarify.
destruct (strip prompt) as [|c s]; [done|]. cbn [is_empty].
unfold MIN_PROMPT_CHARS_FOR_AGENT.
by rewrite (proj2 (Z.ltb_lt _ _) Hlen).
Qed.

Lemma lower_cp_idempotent (c : N) : lower_cp (lower_cp c) = lower_cp c.
Proof.
unfold lower_cp.
destruct ((65 <=? c) && (c <=? 90)
        || (192 <=? c) && (c <=? 222) && negb (c =? 215))%N eqn:E;
[|by rewrite E].
assert (H : ((65 <=? c + 32) && (c + 32 <=? 90)
           || (192 <=? c + 32) && (c + 32 <=? 222)
              && negb (c + 32 =? 215))%N = false); [|by rewrite H].
rewrite orb_true_iff, !andb_true_iff, !N.leb_le in E.
rewrite orb_false_iff, !andb_false_iff, !N.leb_gt. lia.
Qed.

Lemma lower_idempotent (s : text) : lower (lower s) = lower s.
Proof.
unfold lower. rewrite map_map. apply map_ext. apply lower_cp_idempotent.
Qed.

(** The mode depends on the request up to case only, and is one of the
three modes. *)
Theorem detect_mode_case_insensitive (prompt : text) :
_detect_mode (lower prompt) = _detect_mode prompt
/\ (_detect_mode prompt = _MODE_FULL
  \/ _detect_mode prompt = _MODE_HEADLINE
  \/ _detect_mode prompt = _MODE_KEYWORDS5).
Proof.
split.
- unfold _detect_mode. by rewrite lower_idempotent.
- unfold _detect_mode.
generalize _MODE_FULL _MODE_HEADLINE _MODE_KEYWORDS5
           (contains (u "task:") (lower prompt))
           (contains (u "write only") (lower prompt))
           (contains (u "headline") (lower prompt))
           (contains (u "headline only") (lower prompt))
           (contains (u "5 keywords") (lower prompt))
           (contains (u "five keywords") (lower prompt))
           (contains (u "keywords that must be included") (lower prompt)).
intros mf mh mk [] [] [] [] [] [] []; cbn [andb orb]; auto.
Qed.

End GateAndModeEdges.

(** ** ConversationStateMachine: turns *)

Section ConversationTurns.
Import Agent Pipeline Conversation Notions.

Lemma eq_str_true (v : value) (a : text) : eq_str v a = true -> v = VStr a.
Proof.
destruct v; simpl; try discriminate.
intros H. apply bool_decide_eq_true in H. by subst.
Qed.

Lemma step_names_differ (v : value) (a b : text) :
eq_str v a = true -> bool_decide (a = b) = false -> v <> VStr b.
Proof.
intros Ha Hab Hb. apply eq_str_true in Ha. subst v.
injection Hb as ->. apply bool_decide_eq_false in Hab. by apply Hab.
Qed.

Ltac other_step E :=
let H := fresh "H" in
intros [_ H]; exfalso;
eapply (step_names_differ _ _ _ E); [|exact H]; vm_compute; reflexivity.

(** Only the turn that answers the constraints question yields a ready
payload: it needs an input that is no back command and the step
COLLECT_CONSTRAINTS.  A ready payload carries the agent prompt and
comes with the step GENERATE; a payload that is not ready carries no
agent prompt. *)
Theorem process_message_ready (user_input : option text) (st : option state) :
let out := process_message user_input st in
(ready out.2 = true <->
 is_back_command user_input = false
 /\ current_step st = VStr (u "COLLECT_CONSTRAINTS"))
/\ (ready out.2 = true ->
  is_Some (agent_prompt out.2)
  /\ out.1 !! "step" = Some (VStr (u "GENERATE")))
/\ (ready out.2 = false -> agent_prompt out.2 = None).
Proof.
cbv zeta. unfold process_message.
fold (current_state st). fold (current_step st).
fold (is_back_command user_input).
set (text := strip (or_empty user_input)).
destruct (is_back_command user_input).
{ cbn [fst snd].
destruct (payload_menu_not_ready (_go_back (current_state st))) as [-> ->].
repeat split; try done. by intros [? ?]. }
destruct (eq_str (current_step st) (u "GREETING")) eqn:E1.
{ cbn [fst snd ready agent_prompt]. repeat split; try done.
other_step E1. }
destruct (eq_str (current_step st) (u "MENU")) eqn:E2.
{ destruct (negb (mem text (map a_id MENU_ACTIONS)));
  cbn [fst snd ready agent_prompt];
  try (destruct (payload_menu_not_ready
         (<["action":=VStr text]>
            (<["step":=VStr (u "COLLECT_CATEGORY")]> (current_state st))))
         as [-> ->]);
  repeat split; try done; other_step E2. }
destruct (eq_str (current_step st) (u "COLLECT_CATEGORY")) eqn:E3.
{ destruct (negb (mem text _all_top_ids));
  [|destruct (_has_subcategories (VStr text))];
  cbn [fst snd ready agent_prompt];
  try match goal with
      | |- context [_payload_for_step ?s] =>
          destruct (payload_menu_not_ready s) as [-> ->]
      end;
  repeat split; try done; other_step E3. }
destruct (eq_str (current_step st) (u "COLLECT_SUBCATEGORY")) eqn:E4.
{ destruct (negb (mem text _)); cbn [fst snd ready agent_prompt];
  try match goal with
      | |- context [_payload_for_step ?s] =>
          destruct (payload_menu_not_ready s) as [-> ->]
      end;
  repeat split; try done; other_step E4. }
destruct (eq_str (current_step st) (u "COLLECT_PRODUCT")) eqn:E5.
{ destruct (len text <? 5); cbn [fst snd ready agent_prompt];
  try match goal with
      | |- context [_payload_for_step ?s] =>
          destruct (payload_menu_not_ready s) as [-> ->]
      end;
  repeat split; try done; other_step E5. }
destruct (eq_str (current_step st) (u "COLLECT_CONSTRAINTS")) eqn:E6.
{ cbn [fst snd ready agent_prompt]. apply eq_str_true in E6.
repeat split; try done; try (by eexists).
rewrite lookup_insert_ne by discriminate. apply lookup_insert_eq. }
assert (Hd : current_step st <> VStr (u "COLLECT_CONSTRAINTS")).
{ intros H. rewrite H in E6. vm_compute in E6. discriminate. }
destruct (eq_str (current_step st) (u "GENERATE")); cbn [fst snd];
match goal with
| |- context [_payload_for_step ?s] =>
    destruct (payload_menu_not_ready s) as [-> ->]
end;
repeat split; try done; intros [_ H]; exfalso; by apply Hd.
Qed.

Ltac known_step :=
repeat match goal with
| |- context [eq_str (VStr ?a) ?b] =>
  let v := eval vm_compute in (eq_str (VStr a) b) in
  change (eq_str (VStr a) b) with v
| |- context [truthy (VStr ?a)] =>
  let v := eval vm_compute in (truthy (VStr a)) in
  change (truthy (VStr a)) with v
end; cbn [negb orb andb].

(** The start of a turn on a state whose step is known. *)
Ltac open_turn Hstep Hback :=
unfold process_message;
rewrite (get_lookup _ _ _ Hstep); known_step;
rewrite (get_or_lookup _ _ _ _ Hstep);
unfold is_back_command in Hback; rewrite Hback; known_step.

(** An input that the current question does not accept leaves the state
as it is and asks again: an unknown action in MENU, an unknown category
in COLLECT_CATEGORY, an unknown sub-category in COLLECT_SUBCATEGORY, a
product text of fewer than 5 characters in COLLECT_PRODUCT. *)
Theorem process_message_reprompts (user_input : option text) (st : state) :
let text := strip (or_empty user_input) in
is_back_command user_input = false ->
(st !! "step" = Some (VStr (u "MENU"))
 /\ mem text (map a_id MENU_ACTIONS) = false)
\/ (st !! "step" = Some (VStr (u "COLLECT_CATEGORY"))
  /\ mem text _all_top_ids = false)
\/ (st !! "step" = Some (VStr (u "COLLECT_SUBCATEGORY"))
  /\ mem text (map fst (_subcategory_options
                          (get_or st "category" (VStr []))))
     = false)
\/ (st !! "step" = Some (VStr (u "COLLECT_PRODUCT")) /\ len text < 5) ->
let out := process_message user_input (Some st) in
out.1 = st /\ ready out.2 = false /\ agent_prompt out.2 = None.
Proof.
intros text Hback Hcase. cbv zeta.
destruct Hcase as [[Hstep H]|[[Hstep H]|[[Hstep H]|[Hstep H]]]];
open_turn Hstep Hback; fold text.
- rewrite H. cbn [negb fst snd ready agent_prompt]. auto.
- rewrite H. cbn [negb fst snd ready agent_prompt]. auto.
- rewrite H. cbn [negb fst snd ready agent_prompt]. auto.
- rewrite (proj2 (Z.ltb_lt _ _) H). cbn [fst snd ready agent_prompt]. auto.
Qed.

Lemma process_message_reprompts_witness :
(process_message (Some (u "mug"))
 (Some {[ "step" := VStr (u "COLLECT_PRODUCT") ]})).1
= {[ "step" := VStr (u "COLLECT_PRODUCT") ]}.
Proof.
assert (Hb : is_back_command (Some (u "mug")) = false)
by (vm_compute; reflexivity).
refine (proj1 (process_message_reprompts (Some (u "mug"))
               {[ "step" := VStr (u "COLLECT_PRODUCT") ]} Hb _)).
do 3 right. split; vm_compute; reflexivity.
Defined.

(** Forward and back: a product description moves the wizard to the
constraints question, and a back command there returns to the product
question with the description kept, the constraints cleared and every
other key as before. *)
Theorem product_then_back (p b : option text) (st : state) :
st !! "step" = Some (VStr (u "COLLECT_PRODUCT")) ->
is_back_command p = false ->
5 <= len (strip (or_empty p)) ->
is_back_command b = true ->
let st1 := (process_message p (Some st)).1 in
let st2 := (process_message b (Some st1)).1 in
st1 !! "step" = Some (VStr (u "COLLECT_CONSTRAINTS"))
/\ st2 !! "step" = Some (VStr (u "COLLECT_PRODUCT"))
/\ st2 !! "product" = Some (VStr (strip (or_empty p)))
/\ st2 !! "constraints" = Some VNone
/\ forall k, k <> "step"%string -> k <> "product"%string ->
            k <> "constraints"%string -> st2 !! k = st !! k.
Proof.
intros Hstep Hp Hlen Hb.
assert (H1 : (process_message p (Some st)).1
           = <["product" := VStr (strip (or_empty p))]>
               (<["step" := VStr (u "COLLECT_CONSTRAINTS")]> st)).
{ open_turn Hstep Hp.
by rewrite (proj2 (Z.ltb_ge _ _) Hlen). }
cbv zeta. rewrite H1.
set (st1 := <["product" := _]> _).
assert (Hs1 : st1 !! "step" = Some (VStr (u "COLLECT_CONSTRAINTS"))).
{ unfold st1. rewrite lookup_insert_ne by discriminate.
apply lookup_insert_eq. }
assert (H2 : (process_message b (Some st1)).1
           = <["constraints" := VNone]>
               (<["step" := VStr (u "COLLECT_PRODUCT")]> st1)).
{ open_turn Hs1 Hb. cbn [fst]. unfold _go_back.
rewrite (get_or_lookup _ _ _ _ Hs1). known_step. reflexivity. }
rewrite H2. unfold st1.
split; [exact Hs1|].
split; [rewrite lookup_insert_ne by discriminate; apply lookup_insert_eq|].
split.
{ rewrite !lookup_insert_ne by discriminate. apply lookup_insert_eq. }
split; [apply lookup_insert_eq|].
intros k Hk1 Hk2 Hk3. by rewrite !lookup_insert_ne.
Qed.

Lemma product_then_back_witness :
let st : state := {[ "step" := VStr (u "COLLECT_PRODUCT") ]} in
let st1 := (process_message (Some (u "red mug")) (Some st)).1 in
(process_message (Some (u "back")) (Some st1)).1 !! "product"
= Some (VStr (u "red mug")).
Proof.
intros st st1.
assert (Hs : st !! "step" = Some (VStr (u "COLLECT_PRODUCT")))
by (vm_compute; reflexivity).
assert (Hp : is_back_command (Some (u "red mug")) = false)
by (vm_compute; reflexivity).
assert (Hl : 5 <= len (strip (or_empty (Some (u "red mug")))))
by (vm_compute; discriminate).
assert (Hb : is_back_command (Some (u "back")) = true)
by (vm_compute; reflexivity).
destruct (product_then_back _ _ _ Hs Hp Hl Hb) as (_ & _ & H & _).
etransitivity; [exact H|]. vm_compute. reflexivity.
Defined.

End ConversationTurns.

(** ** From the wizard to the pipeline *)

Section WizardPrompt.
Import Agent Pipeline Conversation Main Notions.

Lemma startswith_app (n r : text) : startswith n (n ++ r) = true.
Proof. induction n as [|c n IH]; simpl; [done|]. by rewrite N.eqb_refl. Qed.

Lemma contains_prefix (n s : text) : startswith n s = true -> contains n s = true.
Proof. intros H. destruct s; simpl in *; by rewrite H. Qed.

Lemma contains_app_r (n a b : text) :
contains n b = true -> contains n (a ++ b) = true.
Proof.
intros H. induction a as [|c a IH]; [exact H|].
simpl. rewrite IH. apply orb_true_r.
Qed.

Lemma contains_lower_app_r (n a b : text) :
contains n (lower b) = true -> contains n (lower (a ++ b)) = true.
Proof. intros H. rewrite lower_app. by apply contains_app_r. Qed.

Lemma get_or_insert_ne (st : state) (k k' : string) (v d : value) :
k <> k' -> get_or (<[k := v]> st) k' d = get_or st k' d.
Proof. intros H. unfold get_or. by rewrite lookup_insert_ne. Qed.

Lemma get_insert_ne (st : state) (k k' : string) (v : value) :
k <> k' -> get (<[k := v]> st) k' = get st k'.
Proof. intros H. unfold get. by rewrite lookup_insert_ne. Qed.

Ltac known_step' :=
repeat match goal with
| |- context [eq_str (VStr ?a) ?b] =>
  let v := eval vm_compute in (eq_str (VStr a) b) in
  change (eq_str (VStr a) b) with v
| |- context [truthy (VStr ?a)] =>
  let v := eval vm_compute in (truthy (VStr a)) in
  change (truthy (VStr a)) with v
end; cbn [negb orb andb].

(** The turn that answers the constraints question, in full. *)
Lemma constraints_turn (user_input : option text) (st : state) :
st !! "step" = Some (VStr (u "COLLECT_CONSTRAINTS")) ->
is_back_command user_input = false ->
let answer := strip (or_empty user_input) in
let out := process_message user_input (Some st) in
out.1 = <["constraints" :=
          VStr (if bool_decide (lower answer = u "skip") then []
                else answer)]>
        (<["step" := VStr (u "GENERATE")]> st)
/\ ready out.2 = true
/\ agent_prompt out.2 = Some (wizard_prompt st answer).
Proof.
intros Hstep Hback. cbv zeta. unfold process_message.
rewrite (get_lookup _ _ _ Hstep). known_step'.
rewrite (get_or_lookup _ _ _ _ Hstep).
unfold is_back_command in Hback. rewrite Hback. known_step'.
cbn [fst snd ready agent_prompt]. split; [reflexivity|].
split; [reflexivity|]. unfold wizard_prompt.
rewrite !get_or_insert_ne, !get_insert_ne by discriminate.
reflexivity.
Qed.

Lemma action_instruction_last (action : value) :
last (action_instruction action) = Some 46%N.
Proof.
unfold action_instruction.
repeat match goal with
     | |- context [if ?b then _ else _] => destruct b
     end; vm_compute; reflexivity.
Qed.

Lemma wizard_prompt_task (st : state) (answer : text) :
exists body,
wizard_prompt st answer
= body ++ u "Task: "
  ++ action_instruction (get_or st "action" (VStr (u "full_ad"))).
Proof.
unfold wizard_prompt. eexists. rewrite !app_assoc. reflexivity.
Qed.

(** The request that the wizard builds is a structured one: it is not
empty, trimming leaves it as it is, it carries the [Task:] marker, so
the intent guard lets it through; and for the action [headline_only]
its mode is HeadlineOnly, whatever product and constraints say. *)
Theorem wizard_prompt_structured (st : state) (answer : text) :
let p := wizard_prompt st answer in
p <> [] /\ strip p = p
/\ from_wizard p = true /\ proceeds p = true
/\ (eq_str (get_or st "action" (VStr (u "full_ad"))) (u "headline_only")
  = true ->
  _detect_mode p = _MODE_HEADLINE).
Proof.
cbv zeta. destruct (wizard_prompt_task st answer) as [body Hp].
assert (Htask : contains (u "Task:") (wizard_prompt st answer) = true).
{ rewrite Hp. apply contains_app_r, contains_prefix.
change (u "Task: ") with (u "Task:" ++ [32%N]).
rewrite <- app_assoc. apply startswith_app. }
assert (Hw : from_wizard (wizard_prompt st answer) = true).
{ unfold from_wizard. rewrite Htask. apply orb_true_r. }
split; [|split; [|split; [exact Hw|split]]].
- unfold wizard_prompt. change (u "Product: ") with (80%N :: u "roduct: ").
discriminate.
- apply strip_id. split; intros c Hc.
+ unfold wizard_prompt in Hc.
  change (u "Product: ") with (80%N :: u "roduct: ") in Hc.
  simpl in Hc. by injection Hc as <-.
+ rewrite Hp, app_assoc, last_app, action_instruction_last in Hc.
  by injection Hc as <-.
- unfold proceeds. by rewrite Hw.
- intros Ha. apply eq_str_true in Ha.
assert (H1 : contains (u "write only") (lower (wizard_prompt st answer))
             = true).
{ rewrite Hp, Ha. apply contains_lower_app_r. vm_compute. reflexivity. }
assert (H2 : contains (u "headline") (lower (wizard_prompt st answer))
             = true).
{ rewrite Hp, Ha. apply contains_lower_app_r. vm_compute. reflexivity. }
unfold _detect_mode. rewrite H1, H2. cbn [andb orb].
by destruct (contains (u "task:") (lower (wizard_prompt st answer))),
     (contains (u "headline only") (lower (wizard_prompt st answer))).
Qed.

Lemma wizard_prompt_structured_witness :
_detect_mode
(wizard_prompt {[ "action" := VStr (u "headline_only");
                  "product" := VStr (u "red mug, keywords that must be included") ]}
               (u "skip"))
= _MODE_HEADLINE.
Proof.
refine (proj2 (proj2 (proj2 (proj2
        (wizard_prompt_structured
           {[ "action" := VStr (u "headline_only");
              "product" := VStr (u "red mug, keywords that must be included") ]}
           (u "skip"))))) _).
vm_compute. reflexivity.
Defined.

End WizardPrompt.

(** ** The endpoints *)

Section RagCategory.
Import Agent Pipeline Conversation Main Notions.

Lemma splitlines_go_line (cur a rest : text) :
one_line a ->
splitlines_go false cur (a ++ 10%N :: rest)
= (cur ++ a) :: splitlines_go false [] rest.
Proof.
intros Ha. revert cur. induction Ha as [|c a Hc _ IH]; intros cur.
- simpl. by rewrite app_nil_r.
- cbn [app splitlines_go andb]. rewrite Hc, IH. by rewrite <- app_assoc.
Qed.

Lemma splitlines_line (a rest : text) :
one_line a -> splitlines (a ++ 10%N :: rest) = a :: splitlines rest.
Proof. intros Ha. unfold splitlines. by rewrite splitlines_go_line. Qed.

Lemma split1_go_first (sep : N) (cur a b : text) :
Forall (fun c => (c =? sep)%N = false) a ->
split1_go sep cur (a ++ sep :: b) = [cur ++ a; b].
Proof.
intros Ha. revert cur. induction Ha as [|c a Hc _ IH]; intros cur.
- simpl. by rewrite N.eqb_refl, app_nil_r.
- cbn [app split1_go]. rewrite Hc, IH. by rewrite <- app_assoc.
Qed.

Lemma startswith_other (a b : N) (n s : text) :
(a =? b)%N = false -> startswith (a :: n) (b :: s) = false.
Proof. intros H. simpl. by rewrite H. Qed.

Lemma one_line_app (a b : text) : one_line a -> one_line b -> one_line (a ++ b).
Proof. unfold one_line. intros. by apply Forall_app. Qed.

Example rag_category_example :
rag_category (u "Product: mug" ++ nl ++ u "RAG Category Filter:  home-kitchen "
              ++ nl ++ u "RAG Category Filter: pets")
= u "home-kitchen".
Proof. vm_compute. reflexivity. Qed.

Example rag_category_absent : rag_category (u "Product: mug") = [].
Proof. vm_compute. reflexivity. Qed.

(** The category filter that the endpoint reads back from the request of
  the wizard is the retrieval category that the wizard wrote into it,
  trimmed, provided that the product text, the category label and the
  retrieval category hold no line boundary. *)
Theorem rag_category_of_wizard_prompt (st : state) (answer : text) :
let cat_id := get_or st "category" (VStr []) in
let sub_id := get st "subcategory" in
one_line (fmt (get_or st "product" (VStr []))) ->
one_line (fmt (_category_label cat_id sub_id)) ->
one_line (fmt (_pinecone_id cat_id sub_id)) ->
rag_category (wizard_prompt st answer)
= strip (fmt (_pinecone_id cat_id sub_id)).
Proof.
intros cat_id sub_id HP HC HR.
set (P := fmt (get_or st "product" (VStr []))) in *.
set (C := fmt (_category_label cat_id sub_id)) in *.
set (R := fmt (_pinecone_id cat_id sub_id)) in *.
assert (Hp : exists rest,
  wizard_prompt st answer
  = (u "Product: " ++ P) ++ 10%N
    :: ((u "Category: " ++ C) ++ 10%N
        :: ((u "RAG Category Filter" ++ 58%N :: 32%N :: R) ++ 10%N :: rest))).
{ unfold wizard_prompt. fold cat_id sub_id P C R. unfold nl.
  assert (E : u "RAG Category Filter: "
              = u "RAG Category Filter" ++ [58%N; 32%N])
    by (vm_compute; reflexivity).
  rewrite E. eexists. rewrite <- !app_assoc. cbn [app]. reflexivity. }
destruct Hp as [rest Hp]. unfold rag_category. rewrite Hp.
assert (Hlit : forall s : string, one_line (u s) ->
               forall x, one_line x -> one_line (u s ++ x)).
{ intros s Hs x Hx. by apply one_line_app. }
rewrite splitlines_line.
2:{ apply one_line_app; [|exact HP]. vm_compute. repeat constructor. }
rewrite splitlines_line.
2:{ apply one_line_app; [|exact HC]. vm_compute. repeat constructor. }
rewrite splitlines_line.
2:{ apply one_line_app; [vm_compute; repeat constructor|].
    constructor; [reflexivity|]. constructor; [reflexivity|exact HR]. }
cbn [List.find].
assert (E1 : u "RAG Category Filter:" = 82%N :: u "AG Category Filter:")
  by (vm_compute; reflexivity).
assert (E2 : u "Product: " = 80%N :: u "roduct: ")
  by (vm_compute; reflexivity).
assert (E3 : u "Category: " = 67%N :: u "ategory: ")
  by (vm_compute; reflexivity).
rewrite E2, E3, E1. cbn [app].
rewrite !startswith_other by reflexivity.
assert (E4 : 82%N :: u "AG Category Filter:"
             = u "RAG Category Filter" ++ [58%N])
  by (vm_compute; reflexivity).
rewrite E4. rewrite (app_assoc _ [58%N] (32%N :: R)), startswith_app.
unfold split1. rewrite <- app_assoc. cbn [app].
rewrite split1_go_first by (vm_compute; repeat constructor).
cbn [nth]. unfold strip. cbn [lstrip].
assert (E5 : isspace 32 = true) by reflexivity. rewrite E5. reflexivity.
Qed.

Lemma rag_category_of_wizard_prompt_witness :
rag_category
  (wizard_prompt {[ "category" := VStr (u "home_kitchen");
                    "product" := VStr (u "red mug") ]} (u "skip"))
= u "home-kitchen".
Proof.
rewrite rag_category_of_wizard_prompt.
- vm_compute. reflexivity.
- vm_compute. repeat constructor.
- vm_compute. repeat constructor.
- vm_compute. repeat constructor.
Defined.

End RagCategory.

Section EndpointFacts.
Import Agent Pipeline Conversation Main Notions.

Context {World : Type}.
Variable ENABLE_REPAIR : bool.
Variable MAX_PROMPT_CHARS : Z.
Variable retrieve_examples :
text -> text -> World -> (exn + option text * RetrievalTrace) * World.
Variable llm_generate_ad :
text -> text -> World -> (exn + option text * pyval) * World.

Local Abbreviation run_agent' :=
(run_agent ENABLE_REPAIR MAX_PROMPT_CHARS retrieve_examples llm_generate_ad).
Local Abbreviation chat' :=
(chat ENABLE_REPAIR MAX_PROMPT_CHARS retrieve_examples llm_generate_ad).
Local Abbreviation execute' :=
(execute ENABLE_REPAIR MAX_PROMPT_CHARS retrieve_examples llm_generate_ad).

(** A request that the intent guard lets through is never answered with
  the two-step clarification reply: the run fails with an error, or it
  composes a result after at least five steps. *)
Lemma run_structured (user_prompt : option text) (category_filter : text)
(w : World) :
proceeds (strip (or_empty user_prompt)) = true ->
let r := (run_agent' user_prompt category_filter w).1 in
status r = u "ok" -> (5 <= length (steps r))%nat.
Proof.
intros Hproceed. cbv zeta. set (prompt := strip (or_empty user_prompt)) in *.
assert (Hne : u "error" <> u "ok") by (vm_compute; discriminate).
assert (Hlen : forall l names, modules l = names ->
                               length l = length names).
{ intros l names <-. unfold modules. by rewrite length_map. }
destruct (guards_pass MAX_PROMPT_CHARS prompt) eqn:Hguard.
2:{ destruct (run_guard_rejects MAX_PROMPT_CHARS retrieve_examples
                llm_generate_ad ENABLE_REPAIR user_prompt category_filter
                w Hguard) as (H1 & _).
    intros Hok. rewrite H1 in Hok. by destruct Hne. }
destruct (retrieve_examples (_rewrite_query prompt) category_filter w)
  as [[[k m]|[ctx trace]] w1] eqn:Hretr.
{ destruct (run_retrieval_fails MAX_PROMPT_CHARS retrieve_examples
              llm_generate_ad ENABLE_REPAIR user_prompt category_filter w
              k m w1 Hguard Hproceed Hretr) as (H1 & _).
  intros Hok. rewrite H1 in Hok. by destruct Hne. }
destruct (llm_generate_ad (draft_messages prompt ctx).1
                          (draft_messages prompt ctx).2 w1)
  as [[[k m]|[llm_text meta]] w2] eqn:Hgen.
{ destruct (run_generation_fails MAX_PROMPT_CHARS retrieve_examples
              llm_generate_ad ENABLE_REPAIR user_prompt category_filter w
              ctx trace w1 k m w2 Hguard Hproceed Hretr Hgen) as (H1 & _).
  intros Hok. rewrite H1 in Hok. by destruct Hne. }
pose proof (run_completed MAX_PROMPT_CHARS retrieve_examples
              llm_generate_ad ENABLE_REPAIR user_prompt category_filter w
              ctx trace w1 llm_text meta w2
              Hguard Hproceed Hretr Hgen) as H.
cbv zeta in H. fold prompt in H.
destruct (ENABLE_REPAIR && negb _).
- destruct (llm_generate_ad _ _ w2) as [[[k m]|[fixed meta2]] w3].
  + destruct H as (H1 & _). intros Hok. rewrite H1 in Hok.
    by destruct Hne.
  + destruct H as (_ & _ & _ & Hm & _). intros _.
    rewrite (Hlen _ _ Hm). cbn. lia.
- destruct H as (_ & _ & _ & Hm & _). intros _.
  rewrite (Hlen _ _ Hm). cbn. lia.
Qed.

(** A turn of the wizard that is not ready leaves the pipeline alone: no
  generator call, the services untouched, status ok, the message of the
  payload as response and no agent prompt.  That is every back command
  and every turn in a step other than COLLECT_CONSTRAINTS. *)
Theorem chat_waits_for_ready (prompt : text) (st : option state) (w : World) :
is_back_command (Some prompt) = true
\/ current_step st <> VStr (u "COLLECT_CONSTRAINTS") ->
let out := chat' prompt st w in
out.1.2 = [] /\ out.2 = w
/\ r_status out.1.1 = u "ok" /\ r_error out.1.1 = None
/\ r_response out.1.1 = Some (r_message out.1.1)
/\ r_agent_prompt out.1.1 = None
/\ r_next_state out.1.1 = (process_message (Some prompt) st).1.
Proof.
intros Hcase. cbv zeta.
destruct (process_message_ready (Some prompt) st) as (Hiff & _).
cbv zeta in Hiff. unfold chat.
destruct (process_message (Some prompt) st) as [ns pl]. cbn [fst snd] in *.
destruct (ready pl).
- exfalso. destruct (proj1 Hiff eq_refl) as [Hb Hs].
  destruct Hcase as [Hc|Hc]; [congruence|by apply Hc].
- cbn [fst snd r_status r_error r_response r_message r_agent_prompt
       r_next_state]. auto 10.
Qed.

(** The turn that answers the constraints question runs the pipeline on the
  request of the wizard, with the category filter read back from it; the
  reply carries the result of that run, the step GENERATE and the
  request itself, and it is never the clarification reply: when its
  status is ok, the run went through at least five steps. *)
Theorem chat_generates (prompt : text) (st : state) (w : World) :
st !! "step" = Some (VStr (u "COLLECT_CONSTRAINTS")) ->
is_back_command (Some prompt) = false ->
let p := wizard_prompt st (strip prompt) in
let run := run_agent' (Some p) (rag_category p) w in
let out := chat' prompt (Some st) w in
out.1.2 = st_calls run.2 /\ out.2 = st_world run.2
/\ r_status out.1.1 = status run.1
/\ r_error out.1.1 = error run.1
/\ r_response out.1.1 = response run.1
/\ r_steps out.1.1 = AgentSteps (steps run.1)
/\ r_agent_prompt out.1.1 = Some p
/\ r_next_state out.1.1 !! "step" = Some (VStr (u "GENERATE"))
/\ (status run.1 = u "ok" -> (5 <= length (steps run.1))%nat).
Proof.
intros Hstep Hback. cbv zeta.
destruct (constraints_turn (Some prompt) st Hstep Hback) as (Hns & Hr & Hp).
cbv zeta in Hns, Hr, Hp. cbn [or_empty] in Hns, Hp.
unfold chat.
destruct (process_message (Some prompt) (Some st)) as [ns pl].
cbn [fst snd] in *. rewrite Hr, Hp. cbn [or_empty].
destruct (run_agent' (Some (wizard_prompt st (strip prompt)))
            (rag_category (wizard_prompt st (strip prompt))) w)
  as [r pst] eqn:Hrun.
cbn [fst snd r_status r_error r_response r_steps r_agent_prompt
     r_next_state].
repeat (split; [reflexivity|]). split.
- rewrite Hns. rewrite lookup_insert_ne by discriminate.
  apply lookup_insert_eq.
- pose proof (run_structured (Some (wizard_prompt st (strip prompt)))
                (rag_category (wizard_prompt st (strip prompt))) w) as H.
  cbv zeta in H. rewrite Hrun in H. cbn [fst or_empty] in H. apply H.
  destruct (wizard_prompt_structured st (strip prompt))
    as (_ & -> & _ & Hpr & _).
  exact Hpr.
Qed.

(** [execute] runs the pipeline exactly on the requests that are not blank:
  a blank request gets the error reply with an empty trace and touches
  no service, and every other reply has at least one step. *)
Theorem execute_blank (prompt : text) (w : World) :
let out := execute' prompt w in
(Forall (fun c => isspace c = true) prompt ->
 status out.1.1 = u "error"
 /\ error out.1.1 = Some (u "Empty prompt")
 /\ out.1.2 = [] /\ out.2 = w)
/\ (steps out.1.1 = [] <-> Forall (fun c => isspace c = true) prompt).
Proof.
cbv zeta. unfold execute.
destruct (is_empty (strip prompt)) eqn:E.
- assert (Hb : Forall (fun c => isspace c = true) prompt).
  { apply strip_nil_iff. by destruct (strip prompt). }
  cbn [fst snd status error steps]. repeat split; auto.
- assert (Hb : ~ Forall (fun c => isspace c = true) prompt).
  { intros H. apply strip_nil_iff in H. by rewrite H in E. }
  split; [by intros H|].
  pose proof (run_bounds MAX_PROMPT_CHARS retrieve_examples llm_generate_ad
                ENABLE_REPAIR (Some (strip prompt))
                (rag_category (strip prompt)) w) as (_ & _ & Hlen & _).
  destruct (run_agent' (Some (strip prompt)) (rag_category (strip prompt)) w)
    as [r pst].
  cbn [fst snd steps] in *. split; [|by intros H].
  intros H. rewrite H in Hlen. simpl in Hlen. lia.
Qed.

End EndpointFacts.

Section EndpointExamples.
Import Agent Pipeline Conversation Main Notions.

Lemma chat_waits_for_ready_witness :
(chat true 4000 (fixed_retriever example_block) (scripted_generator [])
      (u "full_ad") (Some {[ "step" := VStr (u "MENU") ]}) 0%nat).1.2 = [].
Proof.
refine (proj1 (chat_waits_for_ready true 4000 (fixed_retriever example_block)
                 (scripted_generator []) (u "full_ad")
                 (Some {[ "step" := VStr (u "MENU") ]}) 0%nat _)).
right. vm_compute. discriminate.
Defined.

Lemma chat_generates_witness :
r_next_state
  (chat true 4000 (fixed_retriever example_block)
        (scripted_generator [Some (u "Headline: Red mug")])
        (u "skip")
        (Some {[ "step" := VStr (u "COLLECT_CONSTRAINTS");
                 "action" := VStr (u "headline_only");
                 "product" := VStr (u "red mug") ]}) 0%nat).1.1
!! "step" = Some (VStr (u "GENERATE")).
Proof.
edestruct (chat_generates true 4000 (fixed_retriever example_block)
             (scripted_generator [Some (u "Headline: Red mug")])
             (u "skip")
             {[ "step" := VStr (u "COLLECT_CONSTRAINTS");
                "action" := VStr (u "headline_only");
                "product" := VStr (u "red mug") ]} 0%nat)
  as (_ & _ & _ & _ & _ & _ & _ & H & _).
- vm_compute. reflexivity.
- vm_compute. reflexivity.
- exact H.
Defined.

Lemma execute_blank_witness :
error (execute true 4000 (fixed_retriever example_block)
               (scripted_generator []) (u "  ") 0%nat).1.1
= Some (u "Empty prompt").
Proof.
destruct (execute_blank true 4000 (fixed_retriever example_block)
            (scripted_generator []) (u "  ") 0%nat) as [H _].
destruct H as (_ & H & _); [vm_compute; repeat constructor|exact H].
Defined.

End EndpointExamples.

(** ** The patterns of the validator *)

Section Patterns.
Import Re Agent Notions.

Lemma in_lang_Void (s : text) : in_lang Void s <-> False.
Proof. split; [|done]. inversion 1. Qed.

Lemma in_lang_Eps (s : text) : in_lang Eps s <-> s = [].
Proof. split; [by inversion 1|intros ->; constructor]. Qed.

Lemma in_lang_Cls (f : N -> bool) (s : text) :
in_lang (Cls f) s <-> exists c, s = [c] /\ f c = true.
Proof.
split; [inversion 1; subst; by eexists|].
intros (c & -> & H). by constructor.
Qed.

Lemma in_lang_Seq (r1 r2 : re) (s : text) :
in_lang (Seq r1 r2) s
<-> exists s1 s2, s = s1 ++ s2 /\ in_lang r1 s1 /\ in_lang r2 s2.
Proof.
split; [inversion 1; subst; by eexists _, _|].
intros (s1 & s2 & -> & H1 & H2). by constructor.
Qed.

Lemma in_lang_Alt (r1 r2 : re) (s : text) :
in_lang (Alt r1 r2) s <-> in_lang r1 s \/ in_lang r2 s.
Proof.
split; [inversion 1; subst; auto|].
intros [H|H]; [by apply L_alt_l|by apply L_alt_r].
Qed.

Lemma nullable_spec (r : re) : nullable r = true <-> in_lang r [].
Proof.
induction r as [| |f|r1 IH1 r2 IH2|r1 IH1 r2 IH2|r IH]; simpl.
- rewrite in_lang_Void. split; [discriminate|done].
- split; [constructor|done].
- rewrite in_lang_Cls. split; [discriminate|]. by intros (c & [=] & _).
- rewrite andb_true_iff, IH1, IH2, in_lang_Seq. split.
  + intros [H1 H2]. by exists [], [].
  + intros (s1 & s2 & Hs & H1 & H2). symmetry in Hs.
    apply app_eq_nil in Hs as [-> ->]. done.
- rewrite orb_true_iff, IH1, IH2, in_lang_Alt. done.
- split; [constructor|done].
Qed.

Lemma seq_spec (r1 r2 : re) (s : text) :
in_lang (seq r1 r2) s <-> in_lang (Seq r1 r2) s.
Proof.
rewrite in_lang_Seq.
assert (HV1 : forall r, (exists s1 s2, s = s1 ++ s2 /\ in_lang Void s1
                                       /\ in_lang r s2) <-> False).
{ intros r. split; [|done]. intros (? & ? & _ & H & _). by inversion H. }
assert (HV2 : forall r, (exists s1 s2, s = s1 ++ s2 /\ in_lang r s1
                                       /\ in_lang Void s2) <-> False).
{ intros r. split; [|done]. intros (? & ? & _ & _ & H). by inversion H. }
assert (HE1 : forall r, (exists s1 s2, s = s1 ++ s2 /\ in_lang Eps s1
                                       /\ in_lang r s2) <-> in_lang r s).
{ intros r. split.
  - intros (? & ? & -> & H & Hr). apply in_lang_Eps in H as ->. done.
  - intros H. exists [], s. repeat split; [constructor|done]. }
assert (HE2 : forall r, (exists s1 s2, s = s1 ++ s2 /\ in_lang r s1
                                       /\ in_lang Eps s2) <-> in_lang r s).
{ intros r. split.
  - intros (? & ? & -> & Hr & H). apply in_lang_Eps in H as ->.
    by rewrite app_nil_r.
  - intros H. exists s, []. rewrite app_nil_r.
    repeat split; [done|constructor]. }
destruct r1, r2; simpl;
  rewrite ?in_lang_Void, ?HV1, ?HV2, ?HE1, ?HE2, ?in_lang_Seq; done.
Qed.

Lemma alt_spec (r1 r2 : re) (s : text) :
in_lang (alt r1 r2) s <-> in_lang (Alt r1 r2) s.
Proof.
rewrite in_lang_Alt.
destruct r1, r2; simpl; rewrite ?in_lang_Void, ?in_lang_Alt; tauto.
Qed.

Lemma in_lang_Star_cons (r : re) (c : N) (s : text) :
in_lang (Star r) (c :: s)
<-> exists s1 s2, s = s1 ++ s2 /\ in_lang r (c :: s1) /\ in_lang (Star r) s2.
Proof.
split.
- intros H. remember (Star r) as r' eqn:Hr. remember (c :: s) as s' eqn:Hs.
  revert Hr Hs.
  induction H as [| | | | | |r0 s1 s2 H1 _ H2 IH2]; try discriminate.
  intros [= ->] Hs. destruct s1 as [|d s1].
  + by apply IH2.
  + simpl in Hs. injection Hs as -> <-. by exists s1, s2.
- intros (s1 & s2 & -> & H1 & H2).
  change (c :: s1 ++ s2) with ((c :: s1) ++ s2). by constructor.
Qed.

Lemma deriv_spec (r : re) (c : N) (s : text) :
in_lang (deriv c r) s <-> in_lang r (c :: s).
Proof.
revert s.
induction r as [| |f|r1 IH1 r2 IH2|r1 IH1 r2 IH2|r IH]; intros s; simpl.
- rewrite !in_lang_Void. done.
- rewrite in_lang_Void, in_lang_Eps. done.
- rewrite in_lang_Cls. destruct (f c) eqn:Hf.
  + rewrite in_lang_Eps. split.
    * intros ->. by exists c.
    * by intros (d & [= -> ->] & _).
  + rewrite in_lang_Void. split; [done|].
    intros (d & [= -> ->] & H). congruence.
- rewrite alt_spec, in_lang_Alt, seq_spec, !in_lang_Seq. split.
  + intros [(s1 & s2 & -> & H1 & H2)|H].
    * exists (c :: s1), s2. split; [done|]. split; [by apply IH1|done].
    * destruct (nullable r1) eqn:Hn; [|by apply in_lang_Void in H].
      exists [], (c :: s). split; [done|].
      split; [by apply nullable_spec|by apply IH2].
  + intros (s1 & s2 & Hs & H1 & H2). destruct s1 as [|d s1].
    * right. simpl in Hs. subst s2.
      rewrite (proj2 (nullable_spec r1) H1). by apply IH2.
    * left. simpl in Hs. injection Hs as <- ->.
      exists s1, s2. split; [done|]. split; [by apply IH1|done].
- rewrite alt_spec, !in_lang_Alt, IH1, IH2. done.
- rewrite seq_spec, in_lang_Seq, in_lang_Star_cons.
  split; intros (s1 & s2 & -> & H1 & H2); exists s1, s2;
    (split; [done|]); (split; [by apply IH|done]).
Qed.

(** The matcher decides membership in the language of the pattern. *)
Theorem fullmatch_spec (r : re) (s : text) :
fullmatch r s = true <-> in_lang r s.
Proof.
unfold fullmatch. revert r.
induction s as [|c s IH]; intros r; simpl.
- apply nullable_spec.
- rewrite IH. apply deriv_spec.
Qed.

Lemma in_lang_lit (w s : text) : in_lang (lit w) s <-> s = w.
Proof.
revert s. induction w as [|c w IH]; intros s; simpl.
- apply in_lang_Eps.
- rewrite in_lang_Seq. split.
  + intros (s1 & s2 & -> & H1 & H2). apply in_lang_Cls in H1 as (d & -> & Hd).
    apply N.eqb_eq in Hd as <-. apply IH in H2 as ->. done.
  + intros ->. exists [c], w. split; [done|]. split; [|by apply IH].
    constructor. apply N.eqb_refl.
Qed.

Lemma in_lang_seqs_nil (s : text) : in_lang (seqs []) s <-> s = [].
Proof. apply in_lang_Eps. Qed.

Lemma in_lang_seqs_cons (r : re) (rs : list re) (s : text) :
in_lang (seqs (r :: rs)) s
<-> exists s1 s2, s = s1 ++ s2 /\ in_lang r s1 /\ in_lang (seqs rs) s2.
Proof. apply in_lang_Seq. Qed.

Lemma in_lang_seqs_app (rs1 rs2 : list re) (s : text) :
in_lang (seqs (rs1 ++ rs2)) s
<-> exists s1 s2, s = s1 ++ s2 /\ in_lang (seqs rs1) s1
                  /\ in_lang (seqs rs2) s2.
Proof.
revert s. induction rs1 as [|r rs1 IH]; intros s.
- cbn [app]. split.
  + intros H. exists [], s. split; [done|]. split; [constructor|done].
  + intros (s1 & s2 & -> & H1 & H2). apply in_lang_seqs_nil in H1 as ->.
    done.
- cbn [app]. rewrite !in_lang_seqs_cons. split.
  + intros (s1 & s2 & -> & H1 & H2). apply IH in H2 as (t1 & t2 & -> & ? & ?).
    exists (s1 ++ t1), t2. rewrite app_assoc. split; [done|].
    split; [|done]. apply in_lang_seqs_cons. by exists s1, t1.
  + intros (s1 & s2 & -> & H1 & H2).
    apply in_lang_seqs_cons in H1 as (t1 & t2 & -> & ? & ?).
    exists t1, (t2 ++ s2). rewrite app_assoc. split; [done|].
    split; [done|]. apply IH. by exists t2, s2.
Qed.

Lemma in_lang_star_cls (f : N -> bool) (s : text) :
in_lang (Star (Cls f)) s <-> Forall (fun c => f c = true) s.
Proof.
split.
- intros H. remember (Star (Cls f)) as r eqn:Hr. revert Hr.
  induction H as [| | | | | |r0 s1 s2 H1 _ H2 IH2]; try discriminate.
  + constructor.
  + intros [= ->]. apply in_lang_Cls in H1 as (c & -> & Hc).
    constructor; [done|by apply IH2].
- induction 1 as [|c s Hc _ IH]; [constructor|].
  change (c :: s) with ([c] ++ s). constructor; [by constructor|done].
Qed.

Lemma in_lang_plus_cls (f : N -> bool) (s : text) :
in_lang (plus (Cls f)) s <-> s <> [] /\ Forall (fun c => f c = true) s.
Proof.
unfold plus. rewrite in_lang_Seq. split.
- intros (s1 & s2 & -> & H1 & H2). apply in_lang_Cls in H1 as (c & -> & Hc).
  apply in_lang_star_cls in H2. split; [done|by constructor].
- intros [Hne H]. destruct H as [|c s Hc H]; [done|].
  exists [c], s. split; [done|]. split; [by constructor|].
  by apply in_lang_star_cls.
Qed.

Lemma in_lang_rep_cls (n : nat) (f : N -> bool) (s : text) :
in_lang (rep n (Cls f)) s
<-> length s = n /\ Forall (fun c => f c = true) s.
Proof.
revert s. induction n as [|n IH]; intros s; simpl.
- rewrite in_lang_Eps. split; [intros ->; by split|].
  intros [H _]. by destruct s.
- rewrite in_lang_Seq. split.
  + intros (s1 & s2 & -> & H1 & H2). apply in_lang_Cls in H1 as (c & -> & Hc).
    apply IH in H2 as [<- H2]. split; [done|by constructor].
  + intros [Hlen H]. destruct H as [|c s Hc H]; [discriminate|].
    exists [c], s. split; [done|]. split; [by constructor|].
    apply IH. split; [by injection Hlen|done].
Qed.

Lemma in_lang_upto_cls (n : nat) (f : N -> bool) (s : text) :
in_lang (upto n (Cls f)) s
<-> (length s <= n)%nat /\ Forall (fun c => f c = true) s.
Proof.
revert s. induction n as [|n IH]; intros s; simpl.
- rewrite in_lang_Eps. split; [intros ->; by split|].
  intros [H _]. destruct s; [done|simpl in H; lia].
- rewrite in_lang_Alt, in_lang_Eps, in_lang_Seq. split.
  + intros [->|(s1 & s2 & -> & H1 & H2)].
    * split; [simpl; lia|constructor].
    * apply in_lang_Cls in H1 as (c & -> & Hc).
      apply IH in H2 as [Hl H2]. split; [simpl; lia|by constructor].
  + intros [Hlen H]. destruct H as [|c s Hc H]; [by left|right].
    exists [c], s. split; [done|]. split; [by constructor|].
    apply IH. split; [simpl in Hlen; lia|done].
Qed.

Lemma not_nl_spec (s : text) :
Forall (fun c => negb (c =? 10)%N = true) s
<-> Forall (fun c => c <> 10%N) s.
Proof.
split; intros H; (eapply Forall_impl; [exact H|]); intros c Hc.
- apply negb_true_iff in Hc. by apply N.eqb_neq.
- apply negb_true_iff. by apply N.eqb_neq.
Qed.

(** A labelled section, as the three patterns spell it. *)
Lemma in_lang_labelled (label s : text) :
in_lang (seqs [lit label; space; plus not_nl]) s <-> labelled label s.
Proof.
unfold labelled. split.
- intros H. apply in_lang_seqs_cons in H as (s1 & s2 & -> & H1 & H).
  apply in_lang_seqs_cons in H as (s3 & s4 & -> & H2 & H).
  apply in_lang_seqs_cons in H as (s5 & s6 & -> & H3 & H4).
  apply in_lang_lit in H1 as ->. apply in_lang_Cls in H2 as (ws & -> & Hws).
  apply in_lang_plus_cls in H3 as [Hne H3]. apply in_lang_seqs_nil in H4 as ->.
  exists ws, s5. rewrite app_nil_r. split; [done|]. split; [done|].
  split; [done|by apply not_nl_spec].
- intros (ws & v & -> & Hws & Hne & Hv).
  apply in_lang_seqs_cons.
  exists label, (ws :: v). split; [done|]. split; [by apply in_lang_lit|].
  apply in_lang_seqs_cons.
  exists [ws], v. split; [done|]. split; [by constructor|].
  apply in_lang_seqs_cons.
  exists v, []. rewrite app_nil_r. split; [done|].
  split; [|constructor]. apply in_lang_plus_cls.
  split; [done|by apply not_nl_spec].
Qed.

Lemma in_lang_labelled_line (label s : text) :
in_lang (seqs [lit label; space; plus not_nl; lit nl]) s
<-> exists l, s = l ++ nl /\ labelled label l.
Proof.
change [lit label; space; plus not_nl; lit nl]
  with ([lit label; space; plus not_nl] ++ [lit nl]).
rewrite in_lang_seqs_app. split.
- intros (s1 & s2 & -> & H1 & H2). apply in_lang_labelled in H1.
  apply in_lang_seqs_cons in H2 as (t1 & t2 & -> & H2 & H3).
  apply in_lang_lit in H2 as ->. apply in_lang_seqs_nil in H3 as ->.
  rewrite app_nil_r. by exists s1.
- intros (l & -> & H). exists l, nl. split; [done|].
  split; [by apply in_lang_labelled|].
  apply in_lang_seqs_cons. exists nl, []. rewrite app_nil_r.
  split; [done|]. split; [by apply in_lang_lit|constructor].
Qed.

Example headline_on_second_line :
_is_valid_format (u "Headline:" ++ nl ++ u "Red mug") _MODE_HEADLINE = true.
Proof. vm_compute. reflexivity. Qed.

(** HeadlineOnly: a text is valid exactly when, trimmed, it is
  [Headline:], one whitespace character, and 3 to 200 characters
  without line feed.  The whitespace character may itself be a line
  feed. *)
Theorem headline_valid_iff (t : text) :
_is_valid_format t _MODE_HEADLINE = true
<-> exists ws body,
      strip t = u "Headline:" ++ ws :: body
      /\ isspace ws = true
      /\ (3 <= length body <= 200)%nat
      /\ Forall (fun c => c <> 10%N) body.
Proof.
unfold _is_valid_format. rewrite bool_decide_eq_true_2 by reflexivity.
assert (Hre : fullmatch _HEADLINE_ONLY_REGEX (strip t) = true
              <-> exists ws body,
                    strip t = u "Headline:" ++ ws :: body
                    /\ isspace ws = true
                    /\ (3 <= length body <= 200)%nat
                    /\ Forall (fun c => c <> 10%N) body).
{ rewrite fullmatch_spec. unfold _HEADLINE_ONLY_REGEX.
  split.
  - intros H. apply in_lang_seqs_cons in H as (s1 & s2 & -> & H1 & H).
    apply in_lang_seqs_cons in H as (s3 & s4 & -> & H2 & H).
    apply in_lang_seqs_cons in H as (s5 & s6 & -> & H3 & H4).
    apply in_lang_lit in H1 as ->. apply in_lang_Cls in H2 as (ws & -> & Hws).
    apply in_lang_seqs_nil in H4 as ->. unfold between in H3.
    apply in_lang_Seq in H3 as (b1 & b2 & -> & Hb1 & Hb2).
    apply in_lang_rep_cls in Hb1 as [Hl1 Hb1].
    apply in_lang_upto_cls in Hb2 as [Hl2 Hb2].
    exists ws, (b1 ++ b2). rewrite app_nil_r. split; [done|].
    split; [done|]. split; [rewrite length_app; simpl in Hl2; lia|].
    apply not_nl_spec, Forall_app. done.
  - intros (ws & body & Ht & Hws & Hlen & Hb). rewrite Ht.
    apply in_lang_seqs_cons.
    exists (u "Headline:"), (ws :: body). split; [done|].
    split; [by apply in_lang_lit|].
    apply in_lang_seqs_cons.
    exists [ws], body. split; [done|]. split; [by constructor|].
    apply in_lang_seqs_cons.
    exists body, []. rewrite app_nil_r. split; [done|].
    split; [|constructor]. unfold between. apply in_lang_Seq.
    exists (take 3 body), (drop 3 body). rewrite take_drop.
    split; [done|]. apply not_nl_spec in Hb. split.
    + apply in_lang_rep_cls. split; [rewrite length_take; lia|].
      by apply Forall_take.
    + apply in_lang_upto_cls. split; [rewrite length_drop; simpl; lia|].
      by apply Forall_drop. }
rewrite <- Hre. destruct (strip t) as [|c s] eqn:E; [|done].
cbn [is_empty]. split; [discriminate|].
intros H. exfalso. apply Hre in H as (ws & body & H & _).
assert (E9 : u "Headline:" = 72%N :: u "eadline:")
  by (vm_compute; reflexivity).
rewrite E9 in H. discriminate.
Qed.

Lemma in_lang_rep5 (r : re) (s : text) :
in_lang (rep 5 r) s
<-> exists s1 s2 s3 s4 s5,
      s = s1 ++ s2 ++ s3 ++ s4 ++ s5
      /\ in_lang r s1 /\ in_lang r s2 /\ in_lang r s3
      /\ in_lang r s4 /\ in_lang r s5.
Proof.
cbn [rep]. split.
- intros H. apply in_lang_Seq in H as (s1 & t1 & -> & H1 & H).
  apply in_lang_Seq in H as (s2 & t2 & -> & H2 & H).
  apply in_lang_Seq in H as (s3 & t3 & -> & H3 & H).
  apply in_lang_Seq in H as (s4 & t4 & -> & H4 & H).
  apply in_lang_Seq in H as (s5 & t5 & -> & H5 & H).
  apply in_lang_Eps in H as ->. rewrite app_nil_r.
  by exists s1, s2, s3, s4, s5.
- intros (s1 & s2 & s3 & s4 & s5 & -> & H1 & H2 & H3 & H4 & H5).
  repeat (constructor; [done|]). rewrite <- (app_nil_r s5).
  constructor; [done|constructor].
Qed.

Lemma full_regex_shape (s : text) :
in_lang _FULL_FORMAT_REGEX s <-> full_shape s.
Proof.
unfold _FULL_FORMAT_REGEX.
set (line := seqs [lit (u "-"); space; plus not_nl; lit nl]).
change (in_lang (seqs
  ([lit (u "Headline:"); space; plus not_nl; lit nl]
   ++ [lit (u "Bullets:"); lit nl]
   ++ [rep 5 line]
   ++ [lit (u "Short description:"); space; plus not_nl; lit nl]
   ++ [lit (u "Keywords:"); space; plus not_nl; lit nl]
   ++ [lit (u "Publishing tips:"); space; plus not_nl])) s <-> full_shape s).
split.
- intros H. apply in_lang_seqs_app in H as (x1 & r1 & -> & H1 & H).
  apply in_lang_seqs_app in H as (x2 & r2 & -> & H2 & H).
  apply in_lang_seqs_app in H as (x3 & r3 & -> & H3 & H).
  apply in_lang_seqs_app in H as (x4 & r4 & -> & H4 & H).
  apply in_lang_seqs_app in H as (x5 & x6 & -> & H5 & H6).
  apply in_lang_labelled_line in H1 as (h & -> & Hh).
  apply in_lang_seqs_cons in H2 as (y1 & y2 & -> & Hy1 & Hy2).
  apply in_lang_lit in Hy1 as ->.
  apply in_lang_seqs_cons in Hy2 as (y3 & y4 & -> & Hy3 & Hy4).
  apply in_lang_lit in Hy3 as ->. apply in_lang_seqs_nil in Hy4 as ->.
  apply in_lang_seqs_cons in H3 as (z & z' & -> & Hz & Hz').
  apply in_lang_seqs_nil in Hz' as ->.
  apply in_lang_rep5 in Hz
    as (l1 & l2 & l3 & l4 & l5 & -> & Hl1 & Hl2 & Hl3 & Hl4 & Hl5).
  apply in_lang_labelled_line in Hl1 as (b1 & -> & Hb1).
  apply in_lang_labelled_line in Hl2 as (b2 & -> & Hb2).
  apply in_lang_labelled_line in Hl3 as (b3 & -> & Hb3).
  apply in_lang_labelled_line in Hl4 as (b4 & -> & Hb4).
  apply in_lang_labelled_line in Hl5 as (b5 & -> & Hb5).
  apply in_lang_labelled_line in H4 as (d & -> & Hd).
  apply in_lang_labelled_line in H5 as (k & -> & Hk).
  apply in_lang_labelled in H6.
  exists h, b1, b2, b3, b4, b5, d, k, x6.
  split; [rewrite <- ?app_assoc, ?app_nil_r; reflexivity|].
  exact (conj Hh (conj Hb1 (conj Hb2 (conj Hb3 (conj Hb4 (conj Hb5
           (conj Hd (conj Hk H6)))))))).
- intros (h & b1 & b2 & b3 & b4 & b5 & d & k & p & -> & Hh & Hb1 & Hb2 & Hb3
          & Hb4 & Hb5 & Hd & Hk & Hp).
  assert (Hline : forall label l, labelled label l ->
            in_lang (seqs [lit label; space; plus not_nl; lit nl]) (l ++ nl)).
  { intros label l Hl. apply in_lang_labelled_line. by exists l. }
  apply in_lang_seqs_app. exists (h ++ nl), (u "Bullets:" ++ nl
        ++ b1 ++ nl ++ b2 ++ nl ++ b3 ++ nl ++ b4 ++ nl ++ b5 ++ nl
        ++ d ++ nl ++ k ++ nl ++ p).
  split; [by rewrite <- app_assoc|]. split; [exact (Hline _ _ Hh)|].
  apply in_lang_seqs_app. exists (u "Bullets:" ++ nl), (
        b1 ++ nl ++ b2 ++ nl ++ b3 ++ nl ++ b4 ++ nl ++ b5 ++ nl
        ++ d ++ nl ++ k ++ nl ++ p).
  split; [by rewrite <- app_assoc|]. split.
  { apply in_lang_seqs_cons. exists (u "Bullets:"), nl.
    split; [done|]. split; [by apply in_lang_lit|].
    apply in_lang_seqs_cons. exists nl, []. rewrite app_nil_r.
    split; [done|]. split; [by apply in_lang_lit|constructor]. }
  apply in_lang_seqs_app.
  exists ((b1 ++ nl) ++ (b2 ++ nl) ++ (b3 ++ nl) ++ (b4 ++ nl) ++ (b5 ++ nl)),
         (d ++ nl ++ k ++ nl ++ p).
  split; [by rewrite <- ?app_assoc|]. split.
  { apply in_lang_seqs_cons. eexists _, []. rewrite app_nil_r.
    split; [reflexivity|]. split; [|constructor].
    apply in_lang_rep5. eexists _, _, _, _, _. split; [reflexivity|].
    exact (conj (Hline _ _ Hb1) (conj (Hline _ _ Hb2) (conj (Hline _ _ Hb3)
             (conj (Hline _ _ Hb4) (Hline _ _ Hb5))))). }
  apply in_lang_seqs_app. exists (d ++ nl), (k ++ nl ++ p).
  split; [by rewrite <- app_assoc|]. split; [exact (Hline _ _ Hd)|].
  apply in_lang_seqs_app. exists (k ++ nl), p.
  split; [by rewrite <- app_assoc|]. split; [exact (Hline _ _ Hk)|].
  exact (proj2 (in_lang_labelled _ _) Hp).
Qed.

(** Full mode: a text is valid exactly when, trimmed, it has the nine
    labelled sections one per line, with the line [Bullets:] after the
    headline. *)
Theorem full_valid_iff (t mode : text) :
mode <> _MODE_HEADLINE -> mode <> _MODE_KEYWORDS5 ->
(_is_valid_format t mode = true <-> full_shape (strip t)).
Proof.
intros Hh Hk. unfold _is_valid_format.
rewrite (bool_decide_eq_false_2 _ Hh), (bool_decide_eq_false_2 _ Hk).
rewrite <- full_regex_shape, <- fullmatch_spec.
destruct (strip t) as [|c s] eqn:E; [|done].
cbn [is_empty]. split; [discriminate|].
intros H. vm_compute in H. discriminate.
Qed.

Lemma full_valid_iff_witness :
_is_valid_format (u "Headline: Red mug") _MODE_FULL = true
<-> full_shape (strip (u "Headline: Red mug")).
Proof. apply full_valid_iff; vm_compute; discriminate. Defined.

End Patterns.
